(** * BeyondChats content-enhancement pipeline: a shallow embedding

    The development follows the TypeScript sources:
    - [services/llmService.ts]      (Article Rewriter),
    - [services/googleSearch.ts]    (Search Provider),
    - [services/contentExtractor.ts] (Content Extractor),
    - [services/scraper.ts]         (Scrape Orchestrator),
    - [controllers/articleController.ts] and the two scripts
      (Enhancement Orchestrator and the CRUD surface).

    Everything outside the repository (headless browser, LLM services, the
    passing of time) is an oracle acting on an abstract world [W]; the article
    store is the table of its rows.  Asynchronous code is sequential ([await]
    everywhere), so it is written in a state-and-exception monad. *)

From Stdlib Require Import ZArith NArith String Ascii.
From stdpp Require Import base option list gmap fin_maps pretty.

Local Open Scope Z_scope.
Local Open Scope list_scope.

(** ** JavaScript strings

    A JavaScript string is a sequence of UTF-16 code units; [.length] is the
    number of code units, which is [length] on this representation. *)

Abbreviation jsstring := (list N).

Definition js (s : string) : jsstring :=
  (fun a => N_of_ascii a) <$> list_ascii_of_string s.

(** [n.toString()] for a non-negative integer, as used by template
    literals. *)
Definition js_of_nat (n : nat) : jsstring := js (pretty n).

(** [s.startsWith(p)] *)
Fixpoint startsWith (p s : jsstring) : bool :=
  match p, s with
  | [], _ => true
  | _ :: _, [] => false
  | a :: p', b :: s' => if N.eqb a b then startsWith p' s' else false
  end.

(** [s.includes(sub)] *)
Fixpoint includes (sub s : jsstring) : bool :=
  startsWith sub s ||
  match s with
  | [] => false
  | _ :: s' => includes sub s'
  end.

(** [s.substring(0, n)] for [0 <= n] *)
Definition substring0 (n : nat) (s : jsstring) : jsstring := take n s.

(** [parts.join(sep)] *)
Fixpoint join (sep : jsstring) (parts : list jsstring) : jsstring :=
  match parts with
  | [] => []
  | [p] => p
  | p :: rest => p ++ sep ++ join sep rest
  end.

(** ECMAScript [WhiteSpace] and [LineTerminator] code units: the class [\s] of
    regular expressions and the characters removed by [trim()]. *)
Definition is_space (c : N) : bool :=
  ((9 <=? c) && (c <=? 13) || (c =? 32) || (c =? 160) || (c =? 5760)
   || (8192 <=? c) && (c <=? 8202) || (c =? 8232) || (c =? 8233)
   || (c =? 8239) || (c =? 8287) || (c =? 12288) || (c =? 65279))%N.

Fixpoint trimStart (s : jsstring) : jsstring :=
  match s with
  | c :: s' => if is_space c then trimStart s' else s
  | [] => []
  end.

Definition trimEnd (s : jsstring) : jsstring := rev (trimStart (rev s)).

(** [s.trim()] *)
Definition trim (s : jsstring) : jsstring := trimEnd (trimStart s).

(** JavaScript truthiness of a string: non-empty. *)
Definition truthy (s : jsstring) : bool :=
  match s with [] => false | _ :: _ => true end.

(** [a || b] on strings *)
Definition or_else (a b : jsstring) : jsstring := if truthy a then a else b.

(** ** Thrown values, results and the monad *)

(** A thrown JavaScript value, as far as the code inspects or sets it:
    [error.message], [error.status] (set by the Gemini client) and
    [error.statusCode] (set by [AppError]). *)
Record JsError : Type := mkError {
  err_message : option jsstring;
  err_status : option Z;
  err_statusCode : option Z
}.

(** [new Error(msg)] *)
Definition Error (msg : jsstring) : JsError :=
  {| err_message := Some msg; err_status := None; err_statusCode := None |}.

(** [new AppError(msg, statusCode)] *)
Definition AppError (msg : jsstring) (statusCode : Z) : JsError :=
  {| err_message := Some msg; err_status := None; err_statusCode := Some statusCode |}.

Inductive Result (A : Type) : Type :=
| Ok (a : A)
| Throw (e : JsError).
Arguments Ok {A} a.
Arguments Throw {A} e.

(** Computations over a state [S] that return a value or throw. *)
Definition M (S A : Type) : Type := S -> Result A * S.

Definition ret {S A} (a : A) : M S A := fun s => (Ok a, s).

Definition throw {S A} (e : JsError) : M S A := fun s => (Throw e, s).

Definition bind {S A B} (c : M S A) (k : A -> M S B) : M S B :=
  fun s =>
    match c s with
    | (Ok a, s') => k a s'
    | (Throw e, s') => (Throw e, s')
    end.

(** [try { c } catch (error) { h error }]: the state changes made by [c]
    before it threw are kept. *)
Definition try_catch {S A} (c : M S A) (h : JsError -> M S A) : M S A :=
  fun s =>
    match c s with
    | (Ok a, s') => (Ok a, s')
    | (Throw e, s') => h e s'
    end.

Definition modify {S} (f : S -> S) : M S unit := fun s => (Ok tt, f s).

Definition get {S} : M S S := fun s => (Ok s, s).

Declare Scope js_scope.
Delimit Scope js_scope with jsm.
Notation "x <- c ;; k" := (bind c (fun x => k))
  (at level 100, c at next level, right associativity) : js_scope.
Notation "c ;;; k" := (bind c (fun _ => k))
  (at level 100, right associativity) : js_scope.
Local Open Scope js_scope.

(** ** Transient records of the pipeline *)

(** [SearchResult] of [googleSearch.ts] *)
Record SearchResult : Type := mkSearchResult {
  sr_title : jsstring;
  sr_url : jsstring;
  sr_snippet : jsstring
}.

(** [ExtractedContent] of [contentExtractor.ts] *)
Record ExtractedContent : Type := mkExtracted {
  ec_title : jsstring;
  ec_content : jsstring;
  ec_url : jsstring
}.

(** [RewriteResult] of [llmService.ts] *)
Record RewriteResult : Type := mkRewrite {
  updatedContent : jsstring;
  references : list jsstring
}.

(** ** The environment of the services

    [world] is whatever the external collaborators depend on; [trace] records
    the externally visible actions of a run in the order they happen (it is
    only written, never read, by the code). *)

Inductive Event : Type :=
| EvSleep (ms : Z)                 (* setTimeout(resolve, ms) awaited *)
| EvGenerate (prompt : jsstring)   (* one model.generateContent(prompt) call *)
| EvChat (prompt : jsstring)       (* one openai.chat.completions.create call *)
| EvSearch (query : jsstring)      (* one search-page navigation *)
| EvFetch (url : jsstring).        (* one content-page navigation *)

Record Env (W : Type) : Type := mkEnv {
  world : W;
  trace : list Event
}.
Arguments mkEnv {W} world trace.
Arguments world {W} e.
Arguments trace {W} e.

Definition emit {W} (ev : Event) : M (Env W) unit :=
  modify (fun e => mkEnv (world e) (trace e ++ [ev])).

(** Run an oracle on the world component. *)
Definition ask {W A} (o : W -> Result A * W) : M (Env W) A :=
  fun e => let '(r, w') := o (world e) in (r, mkEnv w' (trace e)).


Definition is_generate (ev : Event) : bool :=
  match ev with EvGenerate _ => true | _ => false end.

Definition is_fetch (url : jsstring) (ev : Event) : bool :=
  match ev with EvFetch u => bool_decide (u = url) | _ => false end.

(** [count_events p t]: how many events of [t] satisfy [p]. *)
Definition count_events (p : Event -> bool) (t : list Event) : nat :=
  length (List.filter p t).

(** ** The document object model

    CSS selectors are kept as syntax trees.  A selector is a comma-separated
    list of alternatives; an alternative is a chain of compound selectors
    joined by the descendant combinator; a compound selector is a conjunction
    of simple selectors. *)

Inductive Simple : Type :=
| Tag (name : string)                 (* article *)
| Class (name : string)               (* .content *)
| Id (name : string)                  (* #content *)
| AttrEq (attr value : string)        (* [role="main"] *)
| AttrHas (attr value : string)       (* [href*="/blog"] *)
| HasAttr (attr : string).            (* [href] *)

Abbreviation Compound := (list Simple).
Abbreviation Complex := (list Compound).
Abbreviation Selector := (list Complex).

(** The part of the cheerio interface the services use.  [Doc] is a loaded
    document ([cheerio.load(html)]), [Sel] a selection of elements. *)
Class Cheerio (Doc Sel : Type) : Type := {
  (** [$(selector)]: the matching elements, in document order *)
  query : Doc -> Selector -> Sel;
  (** [sel.length] *)
  sel_length : Sel -> nat;
  (** [sel.first()] *)
  sel_first : Sel -> Sel;
  (** [sel.text()]: the text of all the selected elements, concatenated *)
  sel_text : Sel -> jsstring;
  (** [sel.attr(name)]: the attribute of the first selected element *)
  sel_attr : Sel -> string -> option jsstring;
  (** [sel.find(selector)]: matching descendants of the selected elements *)
  sel_find : Sel -> Selector -> Sel;
  (** the elements [sel.each] visits, each wrapped as [$(el)] *)
  sel_each : Sel -> list Sel;
  (** [sel.clone()] after [clone.find(selector).remove()] *)
  clone_without : Sel -> Selector -> Sel;
  (** the document after [$(container).find(selector).remove()], which
      changes it in place *)
  doc_without : Doc -> Selector -> Selector -> Doc
}.

(** ** External collaborators *)

(** What the callback of [page.evaluate] reads from one search result
    element: [element.querySelector('a[href]')?.href],
    [element.querySelector('h3')?.textContent] and the text of the snippet
    element, each absent when the element is. *)
Record ResultElement : Type := mkResultElement {
  linkElement : option jsstring;
  titleElement : option jsstring;
  snippetElement : option jsstring
}.

Record Oracles (W Doc : Type) : Type := mkOracles {
  (** [puppeteer.launch] *)
  puppeteer_launch : W -> Result unit * W;
  (** [browser.newPage] and [page.setUserAgent] *)
  browser_newPage : W -> Result unit * W;
  (** [browser.close()], taken not to throw *)
  browser_close : W -> W;
  (** [page.goto(url, ...)] followed by [page.waitForSelector(selector, ...)];
      throws when the navigation fails or either timeout expires *)
  page_goto : jsstring -> Selector -> W -> Result unit * W;
  (** [page.evaluate] of the result-scanning callback: the result elements
      of the loaded search page, in document order *)
  page_resultElements : W -> Result (list ResultElement) * W;
  (** [cheerio.load(await page.content())] *)
  page_content : W -> Result Doc * W;
  (** [openai.chat.completions.create]; the answer is
      [response.choices[0]?.message?.content] *)
  openai_create : jsstring -> jsstring -> W -> Result (option jsstring) * W;
  (** [model.generateContent(prompt)] then [result.response.text()] *)
  gemini_generateContent : jsstring -> W -> Result jsstring * W;
  (** the world after [ms] milliseconds have passed *)
  elapse : Z -> W -> W;
  (** [encodeURIComponent] *)
  encodeURIComponent : jsstring -> Result jsstring;
  (** [new URL(href, base).href] *)
  resolveUrl : jsstring -> jsstring -> Result jsstring;
  (** [new Date(s)], [None] when [isNaN(parsed.getTime())] *)
  parseDate : jsstring -> option Z
}.
Arguments puppeteer_launch {W Doc} o.
Arguments browser_newPage {W Doc} o.
Arguments browser_close {W Doc} o.
Arguments page_goto {W Doc} o.
Arguments page_resultElements {W Doc} o.
Arguments page_content {W Doc} o.
Arguments openai_create {W Doc} o.
Arguments gemini_generateContent {W Doc} o.
Arguments elapse {W Doc} o.
Arguments encodeURIComponent {W Doc} o.
Arguments resolveUrl {W Doc} o.
Arguments parseDate {W Doc} o.

(** The process environment and the module-level clients of
    [llmService.ts]. *)
Record Config : Type := mkConfig {
  env_OPENAI_API_KEY : option jsstring;
  env_GEMINI_API_KEY : option jsstring;
  (** [openai !== null], [genAI !== null]: set when the module is loaded *)
  openai : bool;
  genAI : bool;
  env_BEYONDCHATS_BLOG_URL : option jsstring;
  (** listed in the README; no source file reads it *)
  env_ARTICLES_TO_SCRAPE : option jsstring
}.

(** [!!process.env.X] *)
Definition env_set (v : option jsstring) : bool :=
  match v with Some s => truthy s | None => false end.

(** [await new Promise(resolve => setTimeout(resolve, ms))] *)
Definition sleep {W Doc} (orc : Oracles W Doc) (ms : Z) : M (Env W) unit :=
  emit (EvSleep ms) ;;;
  ask (fun w => (Ok tt, elapse orc ms w)).

(** [try { c } finally { f }] where [f] does not throw. *)
Definition try_finally {S A} (c : M S A) (f : S -> S) : M S A :=
  fun s => let '(r, s') := c s in (r, f s').

(** ** [services/llmService.ts]: the Article Rewriter *)

Definition nl : jsstring := [10%N].
Definition dquote : jsstring := [34%N].

Section LlmService.
Context {W Doc : Type} (orc : Oracles W Doc) (cfg : Config).

(** [error.status === 429 || error.message?.includes('429')] *)
Definition is_rate_limit (error : JsError) : bool :=
  bool_decide (err_status error = Some 429)
  || match err_message error with
     | Some m => includes (js "429") m
     | None => false
     end.

(** The text of one reference article in the prompt; [index] is the
    zero-based position in [referenceArticles]. *)
Definition referenceText (index : nat) (ref : ExtractedContent) : jsstring :=
  js "Reference Article " ++ js_of_nat (index + 1) ++ js ": " ++ ec_title ref
  ++ nl ++ js "URL: " ++ ec_url ref ++ nl ++ nl ++ js "Content:" ++ nl
  ++ substring0 2000 (ec_content ref) ++ js "..." ++ nl.

Definition referencesText (referenceArticles : list ExtractedContent) : jsstring :=
  join (nl ++ js "---" ++ nl ++ nl) (imap referenceText referenceArticles).

Definition buildPrompt (originalTitle originalContent : jsstring)
    (referenceArticles : list ExtractedContent) : jsstring :=
  js "You are an expert content writer and editor. Your task is to rewrite and improve the following article based on the style, formatting, and content approach of the reference articles provided.

ORIGINAL ARTICLE:
Title: " ++ originalTitle ++ js "
Content:
" ++ originalContent ++ js "

---

REFERENCE ARTICLES (Top-ranking articles on Google for this topic):
" ++ referencesText referenceArticles ++ js "

---

INSTRUCTIONS:
1. Analyze the formatting, structure, and writing style of the reference articles
2. Rewrite the original article to match the quality and style of the reference articles
3. Improve the content while maintaining the core message and facts
4. Use similar heading structures, paragraph lengths, and formatting patterns
5. Make the content more engaging and SEO-friendly
6. Keep the rewritten content comprehensive and well-structured
7. Do NOT include any meta-commentary or explanations - only output the rewritten article
8. Do NOT add a " ++ dquote ++ js "References" ++ dquote ++ js " section at the end. The references will be displayed separately by the system.
9. Ensure the content flows naturally and is not just a list of summaries.

OUTPUT FORMAT:
Return ONLY the rewritten article content in markdown format. DO NOT include a "
  ++ dquote ++ js "References" ++ dquote ++ js " section.".

Definition systemMessage : jsstring :=
  js "You are an expert content writer who specializes in rewriting and improving articles to match the style and quality of top-ranking content.".

Definition maxAttempts : nat := 5.

(** The loop [while (attempts < maxAttempts)] of the Gemini branch.

    [remaining] is [maxAttempts - attempts], the number of iterations the
    loop condition still allows; the value returned is [updatedContent] when
    the loop is left ([''] when the condition fails, the generated text on
    [break]). *)
Fixpoint generateLoop (prompt : jsstring) (remaining attempts : nat)
    : M (Env W) jsstring :=
  match remaining with
  | O => ret []
  | S remaining' =>
      try_catch
        (emit (EvGenerate prompt) ;;;
         text <- ask (gemini_generateContent orc prompt) ;;
         ret text)
        (fun error =>
           let attempts := S attempts in
           if is_rate_limit error then
             sleep orc 65000 ;;;
             generateLoop prompt remaining' attempts
           else throw error)
  end.

Definition rateLimitsExhausted : JsError :=
  Error (js "Failed to generate content after " ++ js_of_nat maxAttempts
         ++ js " attempts due to rate limits.").

Definition rewriteArticle (originalTitle originalContent : jsstring)
    (referenceArticles : list ExtractedContent) : M (Env W) RewriteResult :=
  try_catch
    (let hasOpenAI := env_set (env_OPENAI_API_KEY cfg) in
     let hasGemini := env_set (env_GEMINI_API_KEY cfg) in
     if negb hasOpenAI && negb hasGemini then
       throw (Error (js "Neither OPENAI_API_KEY nor GEMINI_API_KEY is set in environment variables"))
     else
       let prompt := buildPrompt originalTitle originalContent referenceArticles in
       generated <-
         (if hasOpenAI && openai cfg then
            emit (EvChat prompt) ;;;
            response <- ask (openai_create orc systemMessage prompt) ;;
            ret (or_else (default [] response) [])
          else if hasGemini && genAI cfg then
            text <- generateLoop prompt (maxAttempts - 0) 0 ;;
            if negb (truthy text) then throw rateLimitsExhausted
            else ret text
          else ret []) ;;
       if negb (truthy generated) then
         throw (Error (js "LLM returned empty content"))
       else
         ret {| updatedContent := generated;
                references := ec_url <$> referenceArticles |})
    (fun error => throw error).

End LlmService.

(** ** Array helpers *)

(** [l.slice(0, end)] for an integer [end]: a negative [end] counts from
    the end of the array. *)
Definition slice_to {A} (end_ : Z) (l : list A) : list A :=
  if end_ <? 0 then take (Z.to_nat (Z.max (Z.of_nat (length l) + end_) 0)) l
  else take (Z.to_nat end_) l.

(** [l.slice(start)] for an integer [start]: a negative [start] counts from
    the end of the array. *)
Definition slice_from {A} (start : Z) (l : list A) : list A :=
  if start <? 0 then drop (Z.to_nat (Z.max (Z.of_nat (length l) + start) 0)) l
  else drop (Z.to_nat start) l.

(** ** Scoped browser sessions

    The three browser-driven services share one shape:
    [let browser = null; try { browser = await puppeteer.launch(...); body }
     catch (error) { handler } finally { if (browser) await browser.close() }]. *)

Section Browser.
Context {W Doc : Type} (orc : Oracles W Doc).

Definition closeBrowser (e : Env W) : Env W :=
  mkEnv (browser_close orc (world e)) (trace e).

Definition with_browser {A} (body : M (Env W) A)
    (handler : JsError -> M (Env W) A) : M (Env W) A :=
  fun e =>
    match ask (puppeteer_launch orc) e with
    | (Throw error, e1) => handler error e1   (* browser is still null *)
    | (Ok _, e1) => try_finally (try_catch body handler) closeBrowser e1
    end.

End Browser.

(** ** [services/googleSearch.ts]: the Search Provider *)

Section GoogleSearch.
Context {W Doc : Type} (orc : Oracles W Doc).

Definition excludeDomains : list jsstring :=
  js <$> ["youtube.com"; "facebook.com"; "twitter.com"; "instagram.com";
          "linkedin.com/posts"]%string.

(** [excludeDomains.some(domain => url.includes(domain))] *)
Definition isExcluded (url : jsstring) : bool :=
  existsb (fun domain => includes domain url) excludeDomains.

(** The body of the [forEach] callback: what one result element adds to
    [searchResults]. *)
Definition scanElement (searchResults : list SearchResult)
    (element : ResultElement) : list SearchResult :=
  match linkElement element, titleElement element with
  | Some href, Some textContent =>
      if startsWith (js "http") href then
        let url := href in
        if negb (isExcluded url) then
          searchResults ++
            [{| sr_title := or_else textContent [];
                sr_url := url;
                sr_snippet := or_else (default [] (snippetElement element)) [] |}]
        else searchResults
      else searchResults
  | _, _ => searchResults
  end.

(** The callback of [page.evaluate], on the result elements in document
    order. *)
Definition scanResults (resultElements : list ResultElement) : list SearchResult :=
  fold_left scanElement resultElements [].

(** ['#search, #rso, .g'] *)
Definition resultsContainer : Selector :=
  [ [[Id "search"]]; [[Id "rso"]]; [[Class "g"]] ].

Definition searchGoogle (query : jsstring) (numResults : Z)
    : M (Env W) (list SearchResult) :=
  with_browser orc
    (ask (browser_newPage orc) ;;;
     match encodeURIComponent orc query with
     | Throw e => throw e
     | Ok encoded =>
         let searchUrl :=
           js "https://www.google.com/search?q=" ++ encoded ++ js "&gl=us&hl=en" in
         loaded <-
           try_catch
             (emit (EvSearch searchUrl) ;;;
              ask (page_goto orc searchUrl resultsContainer) ;;;
              ret true)
             (fun _ => ret false) ;;
         if negb loaded then ret []
         else
           resultElements <- ask (page_resultElements orc) ;;
           let results := scanResults resultElements in
           let topResults := slice_to numResults results in
           ret topResults
     end)
    (fun error => throw error).

End GoogleSearch.

(** ** [services/contentExtractor.ts]: the Content Extractor *)

(** Selector builders: [one s] is a single simple selector, [compound c] a
    conjunction, [inside a b] is [a b] (descendant), and [++] is the comma. *)
Definition one (s : Simple) : Selector := [[[s]]].
Definition compound (c : Compound) : Selector := [[c]].
Definition inside (a b : Compound) : Selector := [[a; b]].

(** [a || b] where [a] may be [undefined] or the empty string *)
Definition falsy_or (a b : option jsstring) : option jsstring :=
  match a with
  | Some s => if truthy s then a else b
  | None => b
  end.

(** [text.replace(/\s+/g, ' ')]; [inrun] tells that the previous code unit was
    white space, already replaced. *)
Fixpoint collapseSpaces (inrun : bool) (text : jsstring) : jsstring :=
  match text with
  | [] => []
  | c :: rest =>
      if is_space c then
        if inrun then collapseSpaces true rest else 32%N :: collapseSpaces true rest
      else c :: collapseSpaces false rest
  end.

Definition newlineRun (run : nat) : jsstring :=
  if (3 <=? run)%nat then [10%N; 10%N] else repeat 10%N run.

(** [text.replace(/\n{3,}/g, '\n\n')]; [run] counts the line feeds read and
    not yet written. *)
Fixpoint collapseNewlines (run : nat) (text : jsstring) : jsstring :=
  match text with
  | [] => newlineRun run
  | c :: rest =>
      if (c =? 10)%N then collapseNewlines (S run) rest
      else newlineRun run ++ c :: collapseNewlines 0 rest
  end.

(** The class [[\u0000-\u001F\u007F-\u009F]] *)
Definition is_control (c : N) : bool :=
  ((c <=? 31) || (127 <=? c) && (c <=? 159))%N.

Definition cleanContent (text : jsstring) : jsstring :=
  trim
    (List.filter (fun c => negb (is_control c))
       (collapseNewlines 0
          (collapseSpaces false text))).

Section ContentExtractor.
Context {W Doc Sel : Type} `{Cheerio Doc Sel} (orc : Oracles W Doc).

Definition contentSelectors : list Selector :=
  [ one (Tag "article");
    inside [Tag "main"] [Tag "article"];
    one (Class "article-content");
    one (Class "post-content");
    one (Class "entry-content");
    one (Tag "main");
    one (AttrEq "role" "main");
    one (Class "content");
    one (Id "content") ].

(** ['script, style, nav, footer, aside, header, .comments, .related,
    .sidebar, .advertisement, .ads, iframe, button, form'] *)
Definition unwantedElements : Selector :=
  one (Tag "script") ++ one (Tag "style") ++ one (Tag "nav")
  ++ one (Tag "footer") ++ one (Tag "aside") ++ one (Tag "header")
  ++ one (Class "comments") ++ one (Class "related") ++ one (Class "sidebar")
  ++ one (Class "advertisement") ++ one (Class "ads") ++ one (Tag "iframe")
  ++ one (Tag "button") ++ one (Tag "form").

(** ['p, h1, h2, h3, h4, h5, h6, li'] *)
Definition textElements : Selector :=
  one (Tag "p") ++ one (Tag "h1") ++ one (Tag "h2") ++ one (Tag "h3")
  ++ one (Tag "h4") ++ one (Tag "h5") ++ one (Tag "h6") ++ one (Tag "li").

Definition blankLine : jsstring := [10%N; 10%N].

(** [sel.each((_, el) => { const text = $(el).text().trim();
    if (text.length > min) parts.push(text) })] *)
Definition longTexts (min : nat) (sel : Sel) : list jsstring :=
  List.filter (fun text => (min <? length text)%nat)
    ((fun el => trim (sel_text el)) <$> sel_each sel).

(** The body of the [if (element.length > 0)] block up to the assignment
    of [content]. *)
Definition containerContent (element : Sel) : jsstring :=
  let clone := clone_without element unwantedElements in
  let paragraphs := sel_find clone textElements in
  let textParts := longTexts 20 paragraphs in
  join blankLine textParts.

(** The loop [for (const selector of contentSelectors)]; the result is the
    value of [content] when the loop is left. *)
Fixpoint selectorLoop (doc : Doc) (selectors : list Selector)
    (content : jsstring) : jsstring :=
  match selectors with
  | [] => content
  | selector :: rest =>
      let element := query doc selector in
      if (0 <? sel_length element)%nat then
        let content := containerContent element in
        if (200 <? length content)%nat then content
        else selectorLoop doc rest content
      else selectorLoop doc rest content
  end.

(** Strategy 2: every [<p>] of the document *)
Definition allParagraphs (doc : Doc) : jsstring :=
  join blankLine (longTexts 50 (query doc (one (Tag "p")))).

(** The value of [content] before [cleanContent] is applied. *)
Definition extractBody (doc : Doc) : jsstring :=
  let content := selectorLoop doc contentSelectors [] in
  if negb (truthy content) || (length content <? 200)%nat then allParagraphs doc
  else content.

Definition extractTitle (doc : Doc) : jsstring :=
  default (js "Untitled")
    (falsy_or (Some (trim (sel_text (sel_first (query doc (one (Tag "h1")))))))
    (falsy_or (Some (trim (sel_text (sel_first
                 (query doc (inside [Tag "article"] [Tag "h1"]))))))
    (falsy_or (sel_attr (query doc (compound [Tag "meta"; AttrEq "property" "og:title"]))
                 "content")
    (falsy_or (Some (trim (sel_text (query doc (one (Tag "title"))))))
              (Some (js "Untitled")))))).

Definition extractArticleContent (url : jsstring)
    : M (Env W) (option ExtractedContent) :=
  with_browser orc
    (ask (browser_newPage orc) ;;;
     emit (EvFetch url) ;;;
     ask (page_goto orc url (one (Tag "body"))) ;;;
     doc <- ask (page_content orc) ;;
     let title := extractTitle doc in
     let content := extractBody doc in
     let content := cleanContent content in
     if negb (truthy content) || (length content <? 100)%nat then ret None
     else ret (Some {| ec_title := title; ec_content := content; ec_url := url |}))
    (fun _ => ret None).

(** The loop of [extractMultipleArticles]. *)
Fixpoint extractEach (urls : list jsstring) (results : list ExtractedContent)
    : M (Env W) (list ExtractedContent) :=
  match urls with
  | [] => ret results
  | url :: rest =>
      results <-
        try_catch
          (content <- extractArticleContent url ;;
           match content with
           | Some c => ret (results ++ [c])
           | None => ret results
           end)
          (fun _ => ret results) ;;
      extractEach rest results
  end.

Definition extractMultipleArticles (urls : list jsstring)
    : M (Env W) (list ExtractedContent) :=
  extractEach urls [].

End ContentExtractor.

(** ** [services/scraper.ts]: the Scrape Orchestrator *)

Record ScrapedArticle : Type := mkScraped {
  sa_title : jsstring;
  sa_content : jsstring;
  sa_author : option jsstring;
  sa_publishedDate : option Z;
  sa_originalUrl : jsstring
}.

Section Scraper.
Context {W Doc Sel : Type} `{Cheerio Doc Sel} (orc : Oracles W Doc) (cfg : Config).

(** [process.env.BEYONDCHATS_BLOG_URL || 'https://beyondchats.com/blogs/'] *)
Definition blogUrl : jsstring :=
  default (js "https://beyondchats.com/blogs/")
    (falsy_or (env_BEYONDCHATS_BLOG_URL cfg) None).

(** ['article, .blog-post, .post, [class*="article"]'] *)
Definition indexReady : Selector :=
  one (Tag "article") ++ one (Class "blog-post") ++ one (Class "post")
  ++ one (AttrHas "class" "article").

(** ['a[href*="/blog"], a[href*="/article"], article a, .blog-post a,
    .post a'] *)
Definition articleAnchors : Selector :=
  compound [Tag "a"; AttrHas "href" "/blog"]
  ++ compound [Tag "a"; AttrHas "href" "/article"]
  ++ inside [Tag "article"] [Tag "a"]
  ++ inside [Class "blog-post"] [Tag "a"]
  ++ inside [Class "post"] [Tag "a"].

(** [articleLinks.includes(href)] *)
Definition array_includes (l : list jsstring) (x : jsstring) : bool :=
  existsb (fun y => bool_decide (y = x)) l.

(** The body of the [each] callback over the anchors: [href] is
    [$(element).attr('href')]. *)
Definition collectLink (articleLinks : list jsstring) (href : option jsstring)
    : Result (list jsstring) :=
  match href with
  | Some href =>
      if truthy href && negb (array_includes articleLinks href) then
        if startsWith (js "http") href then Ok (articleLinks ++ [href])
        else
          match resolveUrl orc href blogUrl with
          | Ok absoluteUrl => Ok (articleLinks ++ [absoluteUrl])
          | Throw e => Throw e
          end
      else Ok articleLinks
  | None => Ok articleLinks
  end.

Fixpoint collectLinks (articleLinks : list jsstring)
    (hrefs : list (option jsstring)) : Result (list jsstring) :=
  match hrefs with
  | [] => Ok articleLinks
  | href :: rest =>
      match collectLink articleLinks href with
      | Ok articleLinks => collectLinks articleLinks rest
      | Throw e => Throw e
      end
  end.

(** The [href] attributes of the anchors of the index page, in document
    order. *)
Definition anchorHrefs (doc : Doc) : list (option jsstring) :=
  (fun el => sel_attr el "href") <$> sel_each (query doc articleAnchors).

(** [articleLinks.slice(-5)] *)
Definition articlesToScrape (articleLinks : list jsstring) : list jsstring :=
  slice_from (-5) articleLinks.

(** ['article, .article-content, .post-content, main'] *)
Definition articleReady : Selector :=
  one (Tag "article") ++ one (Class "article-content")
  ++ one (Class "post-content") ++ one (Tag "main").

Definition scrapeSelectors : list Selector :=
  [ inside [Tag "article"] [Class "content"];
    one (Class "article-content");
    one (Class "post-content");
    one (Tag "article");
    inside [Tag "main"] [Tag "article"];
    one (Class "entry-content");
    one (AttrHas "class" "content") ].

(** ['script, style, nav, footer, aside, .comments'] *)
Definition scrapeUnwanted : Selector :=
  one (Tag "script") ++ one (Tag "style") ++ one (Tag "nav")
  ++ one (Tag "footer") ++ one (Tag "aside") ++ one (Class "comments").

(** The content loop of [scrapeArticleContent]; the removal changes the
    document, so the document is threaded through. *)
Fixpoint scrapeLoop (doc : Doc) (selectors : list Selector)
    (content : jsstring) : Doc * jsstring :=
  match selectors with
  | [] => (doc, content)
  | selector :: rest =>
      let element := query doc selector in
      if (0 <? sel_length element)%nat then
        let content := trim (sel_text (clone_without element scrapeUnwanted)) in
        let doc := doc_without doc selector scrapeUnwanted in
        if (100 <? length content)%nat then (doc, content)
        else scrapeLoop doc rest content
      else scrapeLoop doc rest content
  end.

Definition scrapeArticleContent (url : jsstring)
    : M (Env W) (option ScrapedArticle) :=
  try_catch
    (emit (EvFetch url) ;;;
     ask (page_goto orc url articleReady) ;;;
     doc <- ask (page_content orc) ;;
     let title :=
       default (js "Untitled Article")
         (falsy_or (Some (trim (sel_text (sel_first (query doc (one (Tag "h1")))))))
         (falsy_or (Some (trim (sel_text (sel_first
                      (query doc (inside [Tag "article"] [Tag "h1"]))))))
         (falsy_or (Some (trim (sel_text (query doc (one (Tag "title"))))))
                   (Some (js "Untitled Article"))))) in
     let '(doc, content) := scrapeLoop doc scrapeSelectors [] in
     let author :=
       falsy_or (Some (trim (sel_text (sel_first
                   (query doc (inside [AttrHas "class" "author"] [Tag "a"]))))))
       (falsy_or (Some (trim (sel_text (sel_first
                   (query doc (one (AttrEq "rel" "author")))))))
       (falsy_or (sel_attr (query doc (compound [Tag "meta"; AttrEq "name" "author"]))
                   "content")
                 None)) in
     let dateStr :=
       falsy_or (sel_attr (query doc (one (Tag "time"))) "datetime")
       (falsy_or (Some (trim (sel_text (sel_first
                   (query doc (one (AttrHas "class" "date")))))))
                 (sel_attr (query doc
                    (compound [Tag "meta"; AttrEq "property" "article:published_time"]))
                    "content")) in
     let publishedDate :=
       match falsy_or dateStr None with
       | Some s => parseDate orc s
       | None => None
       end in
     if negb (truthy content) || (length content <? 50)%nat then ret None
     else ret (Some {| sa_title := title; sa_content := content;
                       sa_author := author; sa_publishedDate := publishedDate;
                       sa_originalUrl := url |}))
    (fun _ => ret None).

(** The loop [for (const url of articlesToScrape)]. *)
Fixpoint scrapeEach (urls : list jsstring) (articles : list ScrapedArticle)
    : M (Env W) (list ScrapedArticle) :=
  match urls with
  | [] => ret articles
  | url :: rest =>
      articles <-
        try_catch
          (article <- scrapeArticleContent url ;;
           match article with
           | Some a => ret (articles ++ [a])
           | None => ret articles
           end)
          (fun _ => ret articles) ;;
      scrapeEach rest articles
  end.

Definition scrapeBeyondChatsArticles : M (Env W) (list ScrapedArticle) :=
  with_browser orc
    (ask (browser_newPage orc) ;;;
     ask (page_goto orc blogUrl indexReady) ;;;
     doc <- ask (page_content orc) ;;
     match collectLinks [] (anchorHrefs doc) with
     | Throw e => throw e
     | Ok articleLinks =>
         scrapeEach (articlesToScrape articleLinks) []
     end)
    (fun error => throw error).

End Scraper.

(** ** The article store *)

(** Modelled from the spec: the Prisma schema is not among the sources.  The
    fields are those of the [Article] interface of [client/src/services/api.ts]
    and of the data model of the specification; the store-managed timestamps
    [createdAt] and [updatedAt] are left out.  A new article has
    [isUpdated = false], no [updatedContent] and no [references]. *)
Module Article.
Record t : Type := mk {
  id : jsstring;
  title : jsstring;
  content : jsstring;
  author : option jsstring;
  publishedDate : option Z;
  originalUrl : jsstring;
  isUpdated : bool;
  updatedContent : option jsstring;
  references : list jsstring
}.
End Article.

(** The [data] of [prisma.article.create] *)
Record CreateData : Type := mkCreateData {
  c_title : jsstring;
  c_content : jsstring;
  c_author : option jsstring;
  c_publishedDate : option Z;
  c_originalUrl : jsstring
}.

(** The [data] of [prisma.article.update]: an absent field is left as it
    is. *)
Record UpdateData : Type := mkUpdateData {
  u_title : option jsstring;
  u_content : option jsstring;
  u_author : option jsstring;
  u_publishedDate : option Z;
  u_isUpdated : option bool;
  u_updatedContent : option jsstring;
  u_references : option (list jsstring)
}.

Definition noUpdate : UpdateData :=
  {| u_title := None; u_content := None; u_author := None;
     u_publishedDate := None; u_isUpdated := None; u_updatedContent := None;
     u_references := None |}.

(** The table of articles, in insertion order. *)
Abbreviation Table := (list Article.t).

Module prisma.

Definition has_id (id : jsstring) (a : Article.t) : bool :=
  bool_decide (Article.id a = id).

Definition has_url (url : jsstring) (a : Article.t) : bool :=
  bool_decide (Article.originalUrl a = url).

(** [findUnique({ where: { id } })] *)
Definition findUnique_id (id : jsstring) (tbl : Table) : option Article.t :=
  List.find (has_id id) tbl.

(** [findUnique({ where: { originalUrl } })] *)
Definition findUnique_originalUrl (url : jsstring) (tbl : Table)
    : option Article.t :=
  List.find (has_url url) tbl.

(** [findMany({ where: { isUpdated }, take })]; an absent [take] is no
    bound. *)
Definition findMany (isUpdated : bool) (take_ : option nat) (tbl : Table)
    : list Article.t :=
  let rows := List.filter (fun a => Bool.eqb (Article.isUpdated a) isUpdated) tbl in
  match take_ with
  | Some n => take n rows
  | None => rows
  end.

(** The row [create({ data })] inserts; the identifier is new.
    Modelled from the spec: the defaults of the schema, which is not among
    the sources, are those of the data model ([isUpdated] false until the
    enhancement completes, no [updatedContent], no [references]). *)
Definition newArticle (data : CreateData) (tbl : Table) : Article.t :=
  {| Article.id := fresh (Article.id <$> tbl);
     Article.title := c_title data;
     Article.content := c_content data;
     Article.author := c_author data;
     Article.publishedDate := c_publishedDate data;
     Article.originalUrl := c_originalUrl data;
     Article.isUpdated := false;
     Article.updatedContent := None;
     Article.references := [] |}.

(** [create({ data })].  The insertion itself checks nothing: that
    [originalUrl] stays unique is shown from the checks of the callers. *)
Definition create (data : CreateData) (tbl : Table) : Article.t * Table :=
  let a := newArticle data tbl in (a, tbl ++ [a]).

Definition applyUpdate (data : UpdateData) (a : Article.t) : Article.t :=
  {| Article.id := Article.id a;
     Article.title := default (Article.title a) (u_title data);
     Article.content := default (Article.content a) (u_content data);
     Article.author :=
       match u_author data with Some v => Some v | None => Article.author a end;
     Article.publishedDate :=
       match u_publishedDate data with
       | Some v => Some v
       | None => Article.publishedDate a
       end;
     Article.originalUrl := Article.originalUrl a;
     Article.isUpdated := default (Article.isUpdated a) (u_isUpdated data);
     Article.updatedContent :=
       match u_updatedContent data with
       | Some v => Some v
       | None => Article.updatedContent a
       end;
     Article.references := default (Article.references a) (u_references data) |}.

Definition updateRow (id : jsstring) (data : UpdateData) (a : Article.t)
    : Article.t :=
  if has_id id a then applyUpdate data a else a.

Definition recordNotFound : JsError :=
  Error (js "Record to update not found.").

(** [update({ where: { id }, data })]: throws when no row has this [id]. *)
Definition update (id : jsstring) (data : UpdateData) (tbl : Table)
    : Result Article.t * Table :=
  match findUnique_id id tbl with
  | Some a => (Ok (applyUpdate data a), updateRow id data <$> tbl)
  | None => (Throw recordNotFound, tbl)
  end.

(** [delete({ where: { id } })] *)
Definition delete (id : jsstring) (tbl : Table) : Table :=
  List.filter (fun a => negb (has_id id a)) tbl.

End prisma.

(** The state of the server: the environment of the services and the
    article table. *)
Record Sys (W : Type) : Type := mkSys {
  env : Env W;
  db : Table
}.
Arguments mkSys {W} env db.
Arguments env {W} s.
Arguments db {W} s.

(** Run a service: it sees and changes the environment only. *)
Definition liftEnv {W A} (c : M (Env W) A) : M (Sys W) A :=
  fun s => let '(r, e') := c (env s) in (r, mkSys e' (db s)).

(** Run a store operation: it sees and changes the table only. *)
Definition onDb {W A} (op : Table -> Result A * Table) : M (Sys W) A :=
  fun s => let '(r, tbl') := op (db s) in (r, mkSys (env s) tbl').

Definition readDb {W A} (q : Table -> A) : M (Sys W) A :=
  fun s => (Ok (q (db s)), s).

(** ** [controllers/articleController.ts] *)

(** What a controller answers: a JSON envelope with its HTTP status, an empty
    [204], or [next(error)], which hands the error to the error middleware
    (an [AppError] carries the HTTP status to answer with). *)
Inductive Message : Type :=
| MsgNone
| MsgNoArticlesToScrape
| MsgScrapingCompleted (savedCount : nat)
| MsgNoArticlesNeedEnhancement
| MsgEnhancementCompleted (successCount failureCount : nat)
| MsgArticleEnhanced.

Inductive Reply : Type :=
| ReplyArticle (status : Z) (message : Message) (article : Article.t)
| ReplyArticles (status : Z) (message : Message) (count : nat)
    (articles : list Article.t)
| ReplyNoContent
| ReplyNext (error : JsError).

(** [req.body] of [POST /articles]; [validationOk] is
    [validationResult(req).isEmpty()]. *)
Record CreateRequest : Type := mkCreateRequest {
  validationOk : bool;
  b_title : jsstring;
  b_content : jsstring;
  b_author : option jsstring;
  b_publishedDate : option jsstring;
  b_originalUrl : jsstring
}.

(** [req.body] of [PUT /articles/:id] *)
Record UpdateRequest : Type := mkUpdateRequest {
  p_title : option jsstring;
  p_content : option jsstring;
  p_author : option jsstring;
  p_publishedDate : option jsstring;
  p_isUpdated : option bool;
  p_updatedContent : option jsstring;
  p_references : option (list jsstring)
}.

(** The counters and the list the batch loop accumulates. *)
Record Tally : Type := mkTally {
  successCount : nat;
  failureCount : nat;
  enhancedArticles : list Article.t
}.

Section Controllers.
Context {W Doc Sel : Type} `{Cheerio Doc Sel} (orc : Oracles W Doc) (cfg : Config).

Definition invalidDate : JsError :=
  Error (js "Provided Date object is invalid.").

(** [new Date(s)] handed to the store, which rejects an invalid date. *)
Definition toDate (s : jsstring) : M (Sys W) Z :=
  match parseDate orc s with
  | Some d => ret d
  | None => throw invalidDate
  end.

Definition createArticle (req : CreateRequest) : M (Sys W) Reply :=
  try_catch
    (if negb (validationOk req) then throw (AppError (js "Validation failed") 400)
     else
       existing <- readDb (prisma.findUnique_originalUrl (b_originalUrl req)) ;;
       match existing with
       | Some _ => throw (AppError (js "Article with this URL already exists") 409)
       | None =>
           publishedDate <-
             match falsy_or (b_publishedDate req) None with
             | Some s => d <- toDate s ;; ret (Some d)
             | None => ret None
             end ;;
           article <-
             onDb (fun tbl =>
               let '(a, tbl') :=
                 prisma.create
                   {| c_title := b_title req; c_content := b_content req;
                      c_author := b_author req; c_publishedDate := publishedDate;
                      c_originalUrl := b_originalUrl req |} tbl in
               (Ok a, tbl')) ;;
           ret (ReplyArticle 201 MsgNone article)
       end)
    (fun error => ret (ReplyNext error)).

Definition updateArticle (id : jsstring) (req : UpdateRequest) : M (Sys W) Reply :=
  try_catch
    (article <- readDb (prisma.findUnique_id id) ;;
     match article with
     | None => throw (AppError (js "Article not found") 404)
     | Some _ =>
         publishedDate <-
           match falsy_or (p_publishedDate req) None with
           | Some s => d <- toDate s ;; ret (Some d)
           | None => ret None
           end ;;
         updated <-
           onDb (prisma.update id
             {| u_title := falsy_or (p_title req) None;
                u_content := falsy_or (p_content req) None;
                u_author := falsy_or (p_author req) None;
                u_publishedDate := publishedDate;
                u_isUpdated := p_isUpdated req;
                u_updatedContent := falsy_or (p_updatedContent req) None;
                u_references := p_references req |}) ;;
         ret (ReplyArticle 200 MsgNone updated)
     end)
    (fun error => ret (ReplyNext error)).

Definition deleteArticle (id : jsstring) : M (Sys W) Reply :=
  try_catch
    (article <- readDb (prisma.findUnique_id id) ;;
     match article with
     | None => throw (AppError (js "Article not found") 404)
     | Some _ =>
         onDb (fun tbl => (Ok tt, prisma.delete id tbl)) ;;;
         ret ReplyNoContent
     end)
    (fun error => ret (ReplyNext error)).

Definition scrapedData (article : ScrapedArticle) : CreateData :=
  {| c_title := sa_title article; c_content := sa_content article;
     c_author := sa_author article; c_publishedDate := sa_publishedDate article;
     c_originalUrl := sa_originalUrl article |}.

(** The loop [for (const article of articles)] of [scrapeArticles];
    [savedCount] is the length of [savedArticles]. *)
Fixpoint saveEach (articles : list ScrapedArticle) (savedArticles : list Article.t)
    : M (Sys W) (list Article.t) :=
  match articles with
  | [] => ret savedArticles
  | article :: rest =>
      existing <- readDb (prisma.findUnique_originalUrl (sa_originalUrl article)) ;;
      match existing with
      | None =>
          saved <- onDb (fun tbl =>
            let '(a, tbl') := prisma.create (scrapedData article) tbl in (Ok a, tbl')) ;;
          saveEach rest (savedArticles ++ [saved])
      | Some _ => saveEach rest savedArticles
      end
  end.

Definition scrapeArticles : M (Sys W) Reply :=
  try_catch
    (articles <- liftEnv (scrapeBeyondChatsArticles orc cfg) ;;
     if (length articles =? 0)%nat then
       ret (ReplyArticles 200 MsgNoArticlesToScrape 0 [])
     else
       savedArticles <- saveEach articles [] ;;
       let savedCount := length savedArticles in
       ret (ReplyArticles 200 (MsgScrapingCompleted savedCount) savedCount
              savedArticles))
    (fun error => ret (ReplyNext error)).

(** The [data] of the store update of an enhancement. *)
Definition enhancement (r : RewriteResult) : UpdateData :=
  {| u_title := None; u_content := None; u_author := None;
     u_publishedDate := None;
     u_isUpdated := Some true;
     u_updatedContent := Some (updatedContent r);
     u_references := Some (references r) |}.

(** Steps 1 and 2 of an enhancement: the reference articles for a title. *)
Definition findReferences (title : jsstring) : M (Sys W) (list ExtractedContent) :=
  searchResults <- liftEnv (searchGoogle orc title 2) ;;
  if (0 <? length searchResults)%nat then
    let referenceUrls := sr_url <$> searchResults in
    liftEnv (extractMultipleArticles orc referenceUrls)
  else ret [].

(** Steps 1 to 4 for one article: the body of the [try] block of
    [enhanceArticles] up to the store update, and the body of
    [enhanceArticleById]. *)
Definition enhanceOne (article : Article.t) : M (Sys W) Article.t :=
  referenceArticles <- findReferences (Article.title article) ;;
  r <- liftEnv (rewriteArticle orc cfg (Article.title article)
                  (Article.content article) referenceArticles) ;;
  onDb (prisma.update (Article.id article) (enhancement r)).

(** One turn of the loop [for (const article of articles)] of
    [enhanceArticles]. *)
Definition enhanceStep (article : Article.t) (t : Tally) : M (Sys W) Tally :=
  try_catch
    (updated <- enhanceOne article ;;
     ret {| successCount := successCount t + 1;
            failureCount := failureCount t;
            enhancedArticles := enhancedArticles t ++ [updated] |})
    (fun _ =>
     ret {| successCount := successCount t;
            failureCount := failureCount t + 1;
            enhancedArticles := enhancedArticles t |}).

Fixpoint enhanceEach (articles : list Article.t) (t : Tally) : M (Sys W) Tally :=
  match articles with
  | [] => ret t
  | article :: rest =>
      t <- enhanceStep article t ;;
      enhanceEach rest t
  end.

Definition emptyTally : Tally :=
  {| successCount := 0; failureCount := 0; enhancedArticles := [] |}.

Definition enhanceArticles : M (Sys W) Reply :=
  try_catch
    (articles <- readDb (prisma.findMany false (Some 5%nat)) ;;
     if (length articles =? 0)%nat then
       ret (ReplyArticles 200 MsgNoArticlesNeedEnhancement 0 [])
     else
       t <- enhanceEach articles emptyTally ;;
       ret (ReplyArticles 200
              (MsgEnhancementCompleted (successCount t) (failureCount t))
              (successCount t) (enhancedArticles t)))
    (fun error => ret (ReplyNext error)).

Definition enhanceArticleById (id : jsstring) : M (Sys W) Reply :=
  try_catch
    (article <- readDb (prisma.findUnique_id id) ;;
     match article with
     | None => throw (AppError (js "Article not found") 404)
     | Some article =>
         updated <- enhanceOne article ;;
         ret (ReplyArticle 200 MsgArticleEnhanced updated)
     end)
    (fun error => ret (ReplyNext error)).

End Controllers.

(** ** The standalone scripts

    [scripts/updateArticles.ts] and [scripts/scrapeArticles.ts]; what a run
    reports in its summary is returned. *)

Section Scripts.
Context {W Doc Sel : Type} `{Cheerio Doc Sel} (orc : Oracles W Doc) (cfg : Config).

(** One turn of the loop of the update script; the pair is
    [(successCount, failureCount)]. *)
Definition updateStep (article : Article.t) (counts : nat * nat)
    : M (Sys W) (nat * nat) :=
  let '(successCount, failureCount) := counts in
  try_catch
    (searchResults <- liftEnv (searchGoogle orc (Article.title article) 2) ;;
     if (length searchResults =? 0)%nat then
       ret (successCount, failureCount + 1)%nat
     else
       let referenceUrls := sr_url <$> searchResults in
       referenceArticles <- liftEnv (extractMultipleArticles orc referenceUrls) ;;
       if (length referenceArticles =? 0)%nat then
         ret (successCount, failureCount + 1)%nat
       else
         r <- liftEnv (rewriteArticle orc cfg (Article.title article)
                         (Article.content article) referenceArticles) ;;
         onDb (prisma.update (Article.id article) (enhancement r)) ;;;
         liftEnv (sleep orc 2000) ;;;
         ret (successCount + 1, failureCount)%nat)
    (fun _ => ret (successCount, failureCount + 1)%nat).

Fixpoint updateEach (articles : list Article.t) (counts : nat * nat)
    : M (Sys W) (nat * nat) :=
  match articles with
  | [] => ret counts
  | article :: rest =>
      counts <- updateStep article counts ;;
      updateEach rest counts
  end.

(** [main] of the update script *)
Definition updateMain : M (Sys W) (nat * nat) :=
  articles <- readDb (prisma.findMany false None) ;;
  if (length articles =? 0)%nat then ret (0, 0)%nat
  else updateEach articles (0, 0)%nat.

(** The loop of the scrape script; the pair is
    [(savedCount, skippedCount)]. *)
Fixpoint persistEach (articles : list ScrapedArticle) (counts : nat * nat)
    : M (Sys W) (nat * nat) :=
  match articles with
  | [] => ret counts
  | article :: rest =>
      let '(savedCount, skippedCount) := counts in
      counts <-
        try_catch
          (existing <- readDb (prisma.findUnique_originalUrl (sa_originalUrl article)) ;;
           match existing with
           | Some _ => ret (savedCount, skippedCount + 1)%nat
           | None =>
               onDb (fun tbl =>
                 let '(a, tbl') := prisma.create (scrapedData article) tbl in
                 (Ok a, tbl')) ;;;
               ret (savedCount + 1, skippedCount)%nat
           end)
          (fun _ => ret (savedCount, skippedCount)) ;;
      persistEach rest counts
  end.

(** [main] of the scrape script *)
Definition scrapeMain : M (Sys W) (nat * nat) :=
  articles <- liftEnv (scrapeBeyondChatsArticles orc cfg) ;;
  if (length articles =? 0)%nat then ret (0, 0)%nat
  else persistEach articles (0, 0)%nat.

End Scripts.

(** ** A document tree implementing the cheerio interface

    Used to run the services on concrete pages. *)

Module Dom.

#[local] Set Warnings "-register-all".

Inductive Node : Type :=
| Text (s : jsstring)
| Element (tag : string) (attrs : list (string * jsstring)) (children : list Node).

Abbreviation Attrs := (list (string * jsstring)).

Definition attr (name : string) (attrs : Attrs) : option jsstring :=
  snd <$> List.find (fun kv => String.eqb (fst kv) name) attrs.

(** The white-space separated words of an attribute value; [cur] is the
    word being read, reversed. *)
Fixpoint words (cur : jsstring) (s : jsstring) : list jsstring :=
  match s with
  | [] => match cur with [] => [] | _ => [rev cur] end
  | c :: rest =>
      if is_space c then
        match cur with [] => words [] rest | _ => rev cur :: words [] rest end
      else words (c :: cur) rest
  end.

Definition jseqb (a b : jsstring) : bool := bool_decide (a = b).

Definition matchSimple (tag : string) (attrs : Attrs) (s : Simple) : bool :=
  match s with
  | Tag name => String.eqb tag name
  | Class name =>
      match attr "class" attrs with
      | Some v => existsb (jseqb (js name)) (words [] v)
      | None => false
      end
  | Id name =>
      match attr "id" attrs with Some v => jseqb (js name) v | None => false end
  | AttrEq a value =>
      match attr a attrs with Some v => jseqb (js value) v | None => false end
  | AttrHas a value =>
      match attr a attrs with Some v => includes (js value) v | None => false end
  | HasAttr a =>
      match attr a attrs with Some _ => true | None => false end
  end.

Definition matchCompound (el : string * Attrs) (c : Compound) : bool :=
  forallb (matchSimple (fst el) (snd el)) c.

(** [ancestorsMatch chain ancestors]: the compounds of [chain] (innermost
    first) are matched by ancestors, nearest first, in this order. *)
Fixpoint ancestorsMatch (chain : list Compound) (ancestors : list (string * Attrs))
    : bool :=
  match chain, ancestors with
  | [], _ => true
  | _ :: _, [] => false
  | c :: chain', a :: above =>
      if matchCompound a c then ancestorsMatch chain' above
      else ancestorsMatch chain above
  end.

Definition matchComplex (ancestors : list (string * Attrs)) (el : string * Attrs)
    (cx : Complex) : bool :=
  match rev cx with
  | [] => false
  | c :: chain => matchCompound el c && ancestorsMatch chain ancestors
  end.

Definition matches (sel : Selector) (ancestors : list (string * Attrs))
    (el : string * Attrs) : bool :=
  existsb (matchComplex ancestors el) sel.

(** The elements below (and including, when [self]) node [n] that match
    [sel], in document order. *)
Fixpoint selectIn (sel : Selector) (self : bool)
    (ancestors : list (string * Attrs)) (n : Node) : list Node :=
  match n with
  | Text _ => []
  | Element tag attrs children =>
      (if self && matches sel ancestors (tag, attrs) then [n] else [])
      ++ List.flat_map (selectIn sel true ((tag, attrs) :: ancestors)) children
  end.

Fixpoint text (n : Node) : jsstring :=
  match n with
  | Text s => s
  | Element _ _ children => List.concat (List.map text children)
  end.

(** Node [n] without its descendants matching [sel]. *)
Fixpoint without (sel : Selector) (ancestors : list (string * Attrs)) (n : Node)
    : Node :=
  match n with
  | Text _ => n
  | Element tag attrs children =>
      Element tag attrs
        (List.flat_map
           (fun c =>
              match c with
              | Element t a _ =>
                  if matches sel ((tag, attrs) :: ancestors) (t, a) then []
                  else [without sel ((tag, attrs) :: ancestors) c]
              | Text _ => [c]
              end) children)
  end.

(** Node [n] after the descendants matching [sel] of every element matching
    [container] are removed; [within] tells that an ancestor matches
    [container]. *)
Fixpoint prune (container sel : Selector) (within : bool)
    (ancestors : list (string * Attrs)) (n : Node) : list Node :=
  match n with
  | Text _ => [n]
  | Element tag attrs children =>
      if within && matches sel ancestors (tag, attrs) then []
      else
        [Element tag attrs
           (List.flat_map
              (prune container sel
                 (within || matches container ancestors (tag, attrs))
                 ((tag, attrs) :: ancestors)) children)]
  end.

Definition firstAttr (name : string) (sel : list Node) : option jsstring :=
  match sel with
  | Element _ attrs _ :: _ => attr name attrs
  | _ => None
  end.

#[global] Instance cheerio : Cheerio (list Node) (list Node) := {|
  query doc sel := List.flat_map (selectIn sel true []) doc;
  sel_length s := length s;
  sel_first s := take 1 s;
  sel_text s := List.concat (List.map text s);
  sel_attr s name := firstAttr name s;
  sel_find s sel := List.flat_map (selectIn sel false []) s;
  sel_each s := (fun n => [n]) <$> s;
  clone_without s sel := without sel [] <$> s;
  doc_without doc container sel :=
    List.flat_map (prune container sel false []) doc
|}.

End Dom.

(** ** A scripted world

    A closed instance of the oracles: a site of known pages, and LLM services
    that answer from a script, one answer per call. *)

Module Scripted.

Inductive Page : Type :=
| Document (doc : list Dom.Node)
| Results (elements : list ResultElement).

Record World : Type := mkWorld {
  site : list (jsstring * Page);
  current : option Page;
  gemini_script : list (Result jsstring);
  openai_script : list (Result (option jsstring));
  clock : Z
}.

Definition lookupPage (url : jsstring) (w : World) : option Page :=
  snd <$> List.find (fun p => bool_decide (fst p = url)) (site w).

Definition timeout : JsError := Error (js "TimeoutError").

(** The awaited selector is present: always on a results page (the scripted
    site only lists loaded result pages), by a query on a document. *)
Definition present (sel : Selector) (p : Page) : bool :=
  match p with
  | Document doc => (0 <? length (query (Sel := list Dom.Node) doc sel))%nat
  | Results _ => true
  end.

Definition goto (url : jsstring) (sel : Selector) (w : World) : Result unit * World :=
  match lookupPage url w with
  | Some p =>
      if present sel p then
        (Ok tt, mkWorld (site w) (Some p) (gemini_script w) (openai_script w) (clock w))
      else (Throw timeout, w)
  | None => (Throw timeout, w)
  end.

Definition currentResults (w : World) : Result (list ResultElement) * World :=
  match current w with
  | Some (Results els) => (Ok els, w)
  | _ => (Throw (Error (js "Execution context was destroyed")), w)
  end.

Definition currentDocument (w : World) : Result (list Dom.Node) * World :=
  match current w with
  | Some (Document doc) => (Ok doc, w)
  | Some (Results _) => (Ok [], w)
  | None => (Throw (Error (js "Execution context was destroyed")), w)
  end.

Definition serviceDown : JsError := Error (js "fetch failed").

Definition gemini (prompt : jsstring) (w : World) : Result jsstring * World :=
  match gemini_script w with
  | r :: rest => (r, mkWorld (site w) (current w) rest (openai_script w) (clock w))
  | [] => (Throw serviceDown, w)
  end.

Definition chat (system prompt : jsstring) (w : World)
    : Result (option jsstring) * World :=
  match openai_script w with
  | r :: rest => (r, mkWorld (site w) (current w) (gemini_script w) rest (clock w))
  | [] => (Throw serviceDown, w)
  end.

Definition wait (ms : Z) (w : World) : World :=
  mkWorld (site w) (current w) (gemini_script w) (openai_script w) (clock w + ms).

(** Absolute and root-relative references only, against the origin of the
    default blog index. *)
Definition resolve (href base : jsstring) : Result jsstring :=
  if startsWith (js "/") href then Ok (js "https://beyondchats.com" ++ href)
  else Ok (base ++ href).

Definition oracles : Oracles World (list Dom.Node) := {|
  puppeteer_launch w := (Ok tt, w);
  browser_newPage w := (Ok tt, w);
  browser_close w := w;
  page_goto := goto;
  page_resultElements := currentResults;
  page_content := currentDocument;
  openai_create := chat;
  gemini_generateContent := gemini;
  elapse := wait;
  encodeURIComponent q := Ok q;
  resolveUrl := resolve;
  parseDate _ := None
|}.

Definition start (pages : list (jsstring * Page))
    (gemini_answers : list (Result jsstring)) : World :=
  mkWorld pages None gemini_answers [] 0.

(** Only the Gemini key is set. *)
Definition geminiOnly : Config :=
  {| env_OPENAI_API_KEY := None;
     env_GEMINI_API_KEY := Some (js "key");
     openai := false; genAI := true;
     env_BEYONDCHATS_BLOG_URL := None;
     env_ARTICLES_TO_SCRAPE := None |}.

(** The error of the Gemini client on HTTP 429 *)
Definition tooManyRequests : JsError :=
  {| err_message := Some (js "[429 Too Many Requests] Resource has been exhausted");
     err_status := Some 429; err_statusCode := None |}.

Definition badRequest : JsError :=
  {| err_message := Some (js "[400 Bad Request] API key not valid");
     err_status := Some 400; err_statusCode := None |}.

End Scripted.

(** ** The rest of the services and of the controller

    [generateSummary] of [llmService.ts], [extractTextContent] of
    [scraper.ts], the two read endpoints of [articleController.ts], and
    [truncateContent] of the article card of the client. *)

Section Summary.
Context {W Doc : Type} (orc : Oracles W Doc) (cfg : Config).

Definition summarySystemMessage : jsstring :=
  js "You are a helpful assistant that creates concise summaries.".

(** [`${n}`] for an integer [n] *)
Definition js_of_Z (n : Z) : jsstring := js (pretty n).

Definition summaryPrompt (content : jsstring) (maxLength : Z) : jsstring :=
  js "Summarize the following article in " ++ js_of_Z maxLength
  ++ js " characters or less:" ++ nl ++ nl ++ content.

(** [generateSummary(content, maxLength = 200)].  The model name and the
    token limit of the OpenAI call differ from those of [rewriteArticle]; the
    service tells the calls apart by the system message. *)
Definition generateSummary (content : jsstring) (maxLength : Z)
    : M (Env W) jsstring :=
  try_catch
    (let hasOpenAI := env_set (env_OPENAI_API_KEY cfg) in
     let hasGemini := env_set (env_GEMINI_API_KEY cfg) in
     let prompt := summaryPrompt content maxLength in
     if hasOpenAI && openai cfg then
       emit (EvChat prompt) ;;;
       response <- ask (openai_create orc summarySystemMessage prompt) ;;
       ret (or_else (default [] response) [])
     else if hasGemini && genAI cfg then
       emit (EvGenerate prompt) ;;;
       text <- ask (gemini_generateContent orc prompt) ;;
       ret text
     else ret [])
    (fun _ => ret []).

End Summary.

(** [cheerio.load(html)] on its own and the removal of elements from a whole
    document, which [extractTextContent] uses. *)
Class CheerioHtml (Doc Sel : Type) `{Cheerio Doc Sel} : Type := {
  (** [cheerio.load(html)] *)
  cheerio_load : jsstring -> Doc;
  (** the document after [$(selector).remove()] *)
  doc_remove : Doc -> Selector -> Doc
}.

(** [text.replace(/\n+/g, '\n')]; [inrun] tells that the previous code unit
    was a line feed, already written. *)
Fixpoint collapseLineFeeds (inrun : bool) (text : jsstring) : jsstring :=
  match text with
  | [] => []
  | c :: rest =>
      if (c =? 10)%N then
        if inrun then collapseLineFeeds true rest
        else 10%N :: collapseLineFeeds true rest
      else c :: collapseLineFeeds false rest
  end.

Section TextContent.
Context {Doc Sel : Type} `{CheerioHtml Doc Sel}.

(** ['script, style, nav, footer, aside, iframe, .ads, .advertisement'] *)
Definition textUnwanted : Selector :=
  one (Tag "script") ++ one (Tag "style") ++ one (Tag "nav")
  ++ one (Tag "footer") ++ one (Tag "aside") ++ one (Tag "iframe")
  ++ one (Class "ads") ++ one (Class "advertisement").

(** [$('body').text()] once the unwanted elements are removed *)
Definition bodyText (html : jsstring) : jsstring :=
  let doc := cheerio_load html in
  let doc := doc_remove doc textUnwanted in
  sel_text (query doc (one (Tag "body"))).

Definition extractTextContent (html : jsstring) : jsstring :=
  let text := bodyText html in
  trim (collapseLineFeeds false (collapseSpaces false text)).

End TextContent.

Section ReadEndpoints.
Context {W : Type}.

(** [findMany({ where, orderBy: { createdAt: 'desc' } })] of
    [getAllArticles]; an absent [isUpdated] is the empty [where].

    Modelled from the spec: [createdAt] is managed by the store and is not a
    field of the rows, so the ordering [byCreatedAtDesc] is a parameter. *)
Definition findManyOrdered (byCreatedAtDesc : Table -> Table)
    (isUpdated : option bool) (tbl : Table) : list Article.t :=
  byCreatedAtDesc
    match isUpdated with
    | Some flag => List.filter (fun a => Bool.eqb (Article.isUpdated a) flag) tbl
    | None => tbl
    end.

(** [getAllArticles]; [updated] is [req.query.updated]. *)
Definition getAllArticles (byCreatedAtDesc : Table -> Table)
    (updated : option jsstring) : M (Sys W) Reply :=
  try_catch
    (let where_ :=
       match updated with
       | Some v => Some (bool_decide (v = js "true"))
       | None => None
       end in
     articles <- readDb (findManyOrdered byCreatedAtDesc where_) ;;
     ret (ReplyArticles 200 MsgNone (length articles) articles))
    (fun error => ret (ReplyNext error)).

Definition getArticleById (id : jsstring) : M (Sys W) Reply :=
  try_catch
    (article <- readDb (prisma.findUnique_id id) ;;
     match article with
     | None => throw (AppError (js "Article not found") 404)
     | Some article => ret (ReplyArticle 200 MsgNone article)
     end)
    (fun error => ret (ReplyNext error)).

End ReadEndpoints.

(** [truncateContent(content, maxLength = 200)] of the article card:
    [content.substring(0, maxLength)] takes a negative [maxLength] as 0. *)
Definition truncateContent (content : jsstring) (maxLength : Z) : jsstring :=
  if Z.of_nat (length content) <=? maxLength then content
  else trim (substring0 (Z.to_nat maxLength) content) ++ js "...".

(** * Vocabulary of the statements *)

Section RetrySpec.
Context {W Doc : Type} (orc : Oracles W Doc).

(** [rateLimited prompt n w w']: from world [w], the Gemini backend answers
    [n] calls in a row with a rate-limit signal, each followed by the
    cooldown of 65 seconds; [w'] is the world after the last cooldown. *)
Inductive rateLimited (prompt : jsstring) : nat -> W -> W -> Prop :=
| rateLimited_0 w : rateLimited prompt 0 w w
| rateLimited_S n w error w1 w' :
    gemini_generateContent orc prompt w = (Throw error, w1) ->
    is_rate_limit error = true ->
    rateLimited prompt n (elapse orc 65000 w1) w' ->
    rateLimited prompt (S n) w w'.

(** What [n] rate-limited attempts leave in the trace. *)
Fixpoint cooldowns (prompt : jsstring) (n : nat) : list Event :=
  match n with
  | O => []
  | S n' => EvGenerate prompt :: EvSleep 65000 :: cooldowns prompt n'
  end.

End RetrySpec.

(** The configuration routes a rewrite to the secondary (Gemini) backend. *)
Definition routedToGemini (cfg : Config) : Prop :=
  env_set (env_OPENAI_API_KEY cfg) && openai cfg = false /\
  env_set (env_GEMINI_API_KEY cfg) && genAI cfg = true.

(** The identifiers, and the source URLs, of a table are pairwise
    distinct. *)
Definition unique_ids (tbl : Table) : Prop := NoDup (Article.id <$> tbl).
Definition unique_urls (tbl : Table) : Prop := NoDup (Article.originalUrl <$> tbl).

(** The article is marked as enhanced and carries generated text. *)
Definition enhanced (a : Article.t) : Prop :=
  Article.isUpdated a = true /\
  exists text, Article.updatedContent a = Some text /\ text ≠ [].

(** A row after a run, compared with the same row before: untouched, or
    enhanced. *)
Definition same_or_enhanced (before after : Article.t) : Prop :=
  after = before \/ (Article.id after = Article.id before /\ enhanced after).

(** The tally after a success, and after a failure. *)
Definition tallySuccess (t : Tally) (updated : Article.t) : Tally :=
  {| successCount := successCount t + 1;
     failureCount := failureCount t;
     enhancedArticles := enhancedArticles t ++ [updated] |}.

Definition tallyFailure (t : Tally) : Tally :=
  {| successCount := successCount t;
     failureCount := failureCount t + 1;
     enhancedArticles := enhancedArticles t |}.

(** The message and the articles of a JSON answer. *)
Definition replyMessage (r : Result Reply) : option Message :=
  match r with
  | Ok (ReplyArticle _ m _) | Ok (ReplyArticles _ m _ _) => Some m
  | _ => None
  end.

Definition replyArticles (r : Result Reply) : list Article.t :=
  match r with
  | Ok (ReplyArticles _ _ _ l) => l
  | Ok (ReplyArticle _ _ a) => [a]
  | _ => []
  end.

(** The error of the final emptiness check of [rewriteArticle]. *)
Definition emptyContent : JsError := Error (js "LLM returned empty content").

(** The number of rows with a given source URL. *)
Definition rowsWithUrl (url : jsstring) (tbl : Table) : nat :=
  length (List.filter (prisma.has_url url) tbl).

(** The error of the create endpoint on a stored [originalUrl]. *)
Definition duplicateUrl : JsError :=
  AppError (js "Article with this URL already exists") 409.

(** A row after a pipeline run, compared with the same row before: a set flag
    stays set, and a row the run changed is marked and carries content. *)
Definition pipeline_step (before after : Article.t) : Prop :=
  Article.id after = Article.id before
  /\ (Article.isUpdated before = true -> Article.isUpdated after = true)
  /\ (after ≠ before ->
      Article.isUpdated after = true /\
      exists text, Article.updatedContent after = Some text).

(** A row after a request to the update endpoint for [id]: untouched, or the
    row of [id] with the flag the request supplies (kept when it supplies
    none). *)
Definition update_step (id : jsstring) (req : UpdateRequest)
    (before after : Article.t) : Prop :=
  after = before
  \/ (Article.id before = id /\
      Article.isUpdated after = default (Article.isUpdated before) (p_isUpdated req)).

(** The result a result element yields when it is kept: it has an anchor
    link and a heading, and its URL starts with [http] and contains no
    excluded domain. *)
Definition keptResult (element : ResultElement) : option SearchResult :=
  match linkElement element, titleElement element with
  | Some url, Some heading =>
      if startsWith (js "http") url && negb (isExcluded url) then
        Some {| sr_title := heading; sr_url := url;
                sr_snippet := default [] (snippetElement element) |}
      else None
  | _, _ => None
  end.

(** The search URL of a query whose encoding is [encoded]. *)
Definition searchUrlOf (encoded : jsstring) : jsstring :=
  js "https://www.google.com/search?q=" ++ encoded ++ js "&gl=us&hl=en".

Section BodySpec.
Context {Doc Sel : Type} `{Cheerio Doc Sel}.

(** The output of a container selector on a document, when it matches. *)
Definition containerOutput (doc : Doc) (selector : Selector) : option jsstring :=
  let element := query doc selector in
  if (0 <? sel_length element)%nat then Some (containerContent element) else None.

(** The outputs of the matching containers, in priority order. *)
Definition containerOutputs (doc : Doc) (selectors : list Selector) : list jsstring :=
  omap (containerOutput doc) selectors.

(** [content.length > 200] *)
Definition exceeds200 (output : jsstring) : bool := (200 <? length output)%nat.

(** The body text as C4 words it: the output of the first container whose
    output exceeds 200 characters, and the paragraphs of the document if no
    container yields more than 200 characters. *)
Definition specBody (doc : Doc) : jsstring :=
  match List.find exceeds200 (containerOutputs doc contentSelectors) with
  | Some output => output
  | None => allParagraphs doc
  end.

(** The body text as the code selects it: when no output exceeds 200
    characters, the paragraphs of the document are taken only if the output of
    the last matching container is shorter than 200 characters (or no
    container matches); an output of exactly 200 characters is kept. *)
Definition amendedBody (doc : Doc) : jsstring :=
  let outputs := containerOutputs doc contentSelectors in
  match List.find exceeds200 outputs with
  | Some output => output
  | None =>
      let lastOutput := List.last outputs [] in
      if (length lastOutput <? 200)%nat then allParagraphs doc else lastOutput
  end.

(** The content [extractArticleContent] compares with its threshold: the
    selected body text after [cleanContent]. *)
Definition finalContent (doc : Doc) : jsstring := cleanContent (extractBody doc).

End BodySpec.

(** ** Shapes of normalised text *)

(** Every white-space code unit of the text is the plain space U+0020. *)
Definition plain_spaces (s : jsstring) : Prop :=
  Forall (fun c => is_space c = true -> c = 32%N) s.

(** The text does not begin, and does not end, with white space. *)
Definition starts_clean (s : jsstring) : Prop :=
  match s with
  | c :: _ => is_space c = false
  | [] => True
  end.

Definition ends_clean (s : jsstring) : Prop := starts_clean (rev s).

(** No two adjacent code units of the text are white space. *)
Fixpoint single_spaced (s : jsstring) : Prop :=
  match s with
  | c :: rest =>
      match rest with
      | d :: _ => ~ (is_space c = true /\ is_space d = true)
      | [] => True
      end /\ single_spaced rest
  | [] => True
  end.

(** ** Errors of the endpoints *)

(** The error of the endpoints that address one article by an [id] that is
    not stored. *)
Definition articleNotFound : JsError := AppError (js "Article not found") 404.

(** The error of the create endpoint on a request the validators reject. *)
Definition validationFailed : JsError := AppError (js "Validation failed") 400.

(** [publishedDate] of a request is absent, empty, or a date [new Date]
    can read. *)
Definition validDate {W Doc : Type} (orc : Oracles W Doc)
    (publishedDate : option jsstring) : bool :=
  match falsy_or publishedDate None with
  | Some s => bool_decide (is_Some (parseDate orc s))
  | None => true
  end.

(** A stored row carries the fields of the scraped article it was created
    from. *)
Definition savedFrom (articles : list ScrapedArticle) (row : Article.t) : Prop :=
  exists a,
    a ∈ articles
    /\ Article.originalUrl row = sa_originalUrl a
    /\ Article.title row = sa_title a
    /\ Article.content row = sa_content a
    /\ Article.author row = sa_author a
    /\ Article.publishedDate row = sa_publishedDate a.

(** The number of rows that are not yet enhanced: what
    [findMany({ where: { isUpdated: false } })] returns. *)
Definition pending (tbl : Table) : nat := length (prisma.findMany false None tbl).

(** The fields an enhancement leaves as they are. *)
Definition sameOriginal (before after : Article.t) : Prop :=
  Article.id after = Article.id before
  /\ Article.title after = Article.title before
  /\ Article.content after = Article.content before
  /\ Article.author after = Article.author before
  /\ Article.publishedDate after = Article.publishedDate before
  /\ Article.originalUrl after = Article.originalUrl before.

(** The primary (OpenAI) backend is usable: its key is set and its client
    exists. *)
Definition routedToOpenAI (cfg : Config) : Prop :=
  env_set (env_OPENAI_API_KEY cfg) && openai cfg = true.

(** Two reference articles the prompt cannot tell apart: the same title, the
    same URL, and contents that agree on their first 2000 code units. *)
Definition sameUpTo2000 (a b : ExtractedContent) : Prop :=
  ec_title a = ec_title b
  /\ ec_url a = ec_url b
  /\ substring0 2000 (ec_content a) = substring0 2000 (ec_content b).

(** ** Shapes of what the services return *)

(** A URL the search keeps: it starts with [http] and contains no excluded
    domain. *)
Definition keptUrl (url : jsstring) : Prop :=
  startsWith (js "http") url = true /\ isExcluded url = false.

(** An extracted reference article: a title, and a content of at least 100
    code units that is normalised text. *)
Definition wellExtracted (c : ExtractedContent) : Prop :=
  ec_title c ≠ []
  /\ (100 <= length (ec_content c))%nat
  /\ Forall (fun ch => is_control ch = false) (ec_content c)
  /\ plain_spaces (ec_content c)
  /\ starts_clean (ec_content c)
  /\ ends_clean (ec_content c).

(** A scraped article: a title, a trimmed content of at least 50 code units,
    and an author that is not the empty string. *)
Definition wellScraped (a : ScrapedArticle) : Prop :=
  sa_title a ≠ []
  /\ (50 <= length (sa_content a))%nat
  /\ starts_clean (sa_content a)
  /\ ends_clean (sa_content a)
  /\ sa_author a ≠ Some [].

(** An absolute reference of an anchor: it is present and starts with
    [http]. *)
Definition absoluteHref (href : option jsstring) : Prop :=
  exists h, href = Some h /\ startsWith (js "http") h = true.

(** ** The outcomes of a batch *)

Section BatchSpec.
Context {W Doc Sel : Type} `{Cheerio Doc Sel} (orc : Oracles W Doc) (cfg : Config).

(** The outcome of each article of a batch, in the order of the batch: what
    the per-article sequence answers for the article in the state its
    predecessors left, a returned row or a thrown error.  The state is the one
    after the last article. *)
Fixpoint batchOutcomes (articles : list Article.t) (s : Sys W)
    : list (Result Article.t) * Sys W :=
  match articles with
  | [] => ([], s)
  | article :: rest =>
      let '(r, s1) := enhanceOne orc cfg article s in
      let '(rs, s') := batchOutcomes rest s1 in
      (r :: rs, s')
  end.

End BatchSpec.

(** The values of the outcomes that returned, in order, and the number of
    outcomes that threw. *)
Definition returned {A} (outcomes : list (Result A)) : list A :=
  omap (fun r => match r with Ok a => Some a | Throw _ => None end) outcomes.

Definition thrown {A} (outcomes : list (Result A)) : nat :=
  length (List.filter (fun r => match r with Throw _ => true | Ok _ => false end)
            outcomes).

(** A stored row carries the fields of this scraped article. *)
Definition savedAs (a : ScrapedArticle) (row : Article.t) : Prop :=
  Article.originalUrl row = sa_originalUrl a
  /\ Article.title row = sa_title a
  /\ Article.content row = sa_content a
  /\ Article.author row = sa_author a
  /\ Article.publishedDate row = sa_publishedDate a.

(** * Concrete pages, tables and backends

    The inputs on which the statements are instantiated and evaluated. *)

Definition sampleTitle : jsstring := js "Chatbots".
Definition sampleContent : jsstring := js "Chatbots answer questions.".
Definition betterText : jsstring := js "# Chatbots, explained".

(** A backend that signals a rate limit [n] times and then follows
    [answers]. *)
Definition rateLimits (n : nat) (answers : list (Result jsstring))
    : list (Result jsstring) :=
  repeat (Throw Scripted.tooManyRequests) n ++ answers.

Definition freshEnv (gemini_answers : list (Result jsstring)) : Env Scripted.World :=
  mkEnv (Scripted.start [] gemini_answers) [].

(** A not yet enhanced article of the source blog. *)
Definition draft (name : string) : Article.t :=
  {| Article.id := js name;
     Article.title := js "About " ++ js name;
     Article.content := js "Text of " ++ js name;
     Article.author := None;
     Article.publishedDate := None;
     Article.originalUrl := js "https://beyondchats.com/blogs/" ++ js name;
     Article.isUpdated := false;
     Article.updatedContent := None;
     Article.references := [] |}.

Definition fiveDrafts : Table := draft <$> ["a1"; "a2"; "a3"; "a4"; "a5"]%string.

(** The rewrite of the third article fails, the others succeed. *)
Definition thirdFails : list (Result jsstring) :=
  [Ok betterText; Ok betterText; Throw Scripted.badRequest; Ok betterText; Ok betterText].

(** A server whose search finds nothing (no page of the site loads). *)
Definition server (tbl : Table) (gemini_answers : list (Result jsstring))
    : Sys Scripted.World :=
  mkSys (freshEnv gemini_answers) tbl.

(** Only the OpenAI key is set. *)
Definition openaiOnly : Config :=
  {| env_OPENAI_API_KEY := Some (js "key");
     env_GEMINI_API_KEY := None;
     openai := true; genAI := false;
     env_BEYONDCHATS_BLOG_URL := None;
     env_ARTICLES_TO_SCRAPE := None |}.

(** No key is set. *)
Definition noBackend : Config :=
  {| env_OPENAI_API_KEY := None;
     env_GEMINI_API_KEY := None;
     openai := false; genAI := false;
     env_BEYONDCHATS_BLOG_URL := None;
     env_ARTICLES_TO_SCRAPE := None |}.

(** An environment whose OpenAI service answers from [answers]. *)
Definition chatEnv (answers : list (Result (option jsstring))) : Env Scripted.World :=
  mkEnv (Scripted.mkWorld [] None [] answers 0) [].

(** A blog index whose only post is linked twice (image and headline), both
    times by the same root-relative reference, and the page of the post. *)
Definition postUrl : jsstring := js "https://beyondchats.com/blogs/post-1/".

Definition postParagraph : jsstring :=
  js "Chatbots answer the questions of your customers at any hour of the day, without a queue.".

Definition blogIndex : list Dom.Node :=
  [Dom.Element "html" []
     [Dom.Element "body" []
        [Dom.Element "article" []
           [Dom.Element "a" [("href", js "/blogs/post-1/")]%string [Dom.Text (js "cover")];
            Dom.Element "a" [("href", js "/blogs/post-1/")]%string
              [Dom.Text (js "Why chatbots")]]]]].

Definition postPage : list Dom.Node :=
  [Dom.Element "html" []
     [Dom.Element "body" []
        [Dom.Element "article" []
           [Dom.Element "h1" [] [Dom.Text (js "Why chatbots")];
            Dom.Element "p" [] [Dom.Text postParagraph];
            Dom.Element "p" [] [Dom.Text postParagraph]]]]].

Definition blogSite : list (jsstring * Scripted.Page) :=
  [(js "https://beyondchats.com/blogs/", Scripted.Document blogIndex);
   (postUrl, Scripted.Document postPage)].

Definition blogServer (tbl : Table) : Sys Scripted.World :=
  mkSys (mkEnv (Scripted.start blogSite []) []) tbl.

(** The article of [draft], as scraped from the blog. *)
Definition scraped (name : string) : ScrapedArticle :=
  {| sa_title := js "About " ++ js name;
     sa_content := js "Text of " ++ js name;
     sa_author := None;
     sa_publishedDate := None;
     sa_originalUrl := js "https://beyondchats.com/blogs/" ++ js name |}.

(** A valid request to create the article of [draft]. *)
Definition createRequest (name : string) : CreateRequest :=
  {| validationOk := true;
     b_title := js "About " ++ js name;
     b_content := js "Text of " ++ js name;
     b_author := None;
     b_publishedDate := None;
     b_originalUrl := js "https://beyondchats.com/blogs/" ++ js name |}.

(** An article the pipeline has enhanced. *)
Definition published (name : string) : Article.t :=
  prisma.applyUpdate
    (enhancement {| updatedContent := betterText; references := [] |})
    (draft name).

(** A request to the update endpoint that supplies [isUpdated] only. *)
Definition setFlag (flag : bool) : UpdateRequest :=
  {| p_title := None; p_content := None; p_author := None;
     p_publishedDate := None; p_isUpdated := Some flag;
     p_updatedContent := None; p_references := None |}.

(** A result page for the query [chatbots]: a video, a result without a
    heading, an internal link, and three articles. *)
Definition resultElement (href : string) (heading : option string) : ResultElement :=
  {| linkElement := Some (js href);
     titleElement := js <$> heading;
     snippetElement := None |}.

Definition chatbotResults : list ResultElement :=
  [ resultElement "https://www.youtube.com/watch?v=1" (Some "Video");
    resultElement "https://example.org/no-heading" None;
    resultElement "ftp://example.org/file" (Some "File");
    resultElement "https://example.org/one" (Some "One");
    {| linkElement := None; titleElement := Some (js "Orphan"); snippetElement := None |};
    resultElement "http://example.org/two" (Some "Two");
    resultElement "https://example.org/three" (Some "Three") ]%string.

Definition searchSite : list (jsstring * Scripted.Page) :=
  [(searchUrlOf (js "chatbots"), Scripted.Results chatbotResults)].

Definition searchEnv (pages : list (jsstring * Scripted.Page)) : Env Scripted.World :=
  mkEnv (Scripted.start pages []) [].

(** [letters n]: a word of [n] letters. *)
Definition letters (n : nat) : jsstring := repeat 120%N n.

Definition page (body : list Dom.Node) : list Dom.Node :=
  [Dom.Element "html" []
     [Dom.Element "head" [] [Dom.Element "title" [] [Dom.Text (js "A page")]];
      Dom.Element "body" [] body]].

(** [<article><p>120 letters</p><p>120 letters</p></article>] *)
Definition articlePage : list Dom.Node :=
  page [Dom.Element "article" []
          [Dom.Element "p" [] [Dom.Text (letters 120)];
           Dom.Element "p" [] [Dom.Text (letters 120)]]].

(** [<main><h2>200 letters</h2></main>]: the only matching container yields
    exactly 200 characters, and the document has no paragraph. *)
Definition boundaryPage : list Dom.Node :=
  page [Dom.Element "main" [] [Dom.Element "h2" [] [Dom.Text (letters 200)]]].

(** [<article><p>n letters</p></article>] *)
Definition paragraphPage (text : jsstring) : list Dom.Node :=
  page [Dom.Element "article" [] [Dom.Element "p" [] [Dom.Text text]]].

(** 101 code units, 99 once the three spaces in the middle are collapsed to
    one *)
Definition spacedText : jsstring := letters 60 ++ js "   " ++ letters 38.

Definition extractionSite : list (jsstring * Scripted.Page) :=
  [(js "https://example.org/99", Scripted.Document (paragraphPage (letters 99)));
   (js "https://example.org/100", Scripted.Document (paragraphPage (letters 100)));
   (js "https://example.org/spaced", Scripted.Document (paragraphPage spacedText))].

Definition loaded (doc : list Dom.Node) : Scripted.World :=
  Scripted.mkWorld extractionSite (Some (Scripted.Document doc)) [] [] 0.

(** The Gemini configuration with [ARTICLES_TO_SCRAPE=1]. *)
Definition scrapeOne : Config :=
  {| env_OPENAI_API_KEY := None;
     env_GEMINI_API_KEY := Some (js "key");
     openai := false; genAI := true;
     env_BEYONDCHATS_BLOG_URL := None;
     env_ARTICLES_TO_SCRAPE := Some (js "1") |}.

Definition sevenLinks : list jsstring :=
  js <$> ["https://beyondchats.com/blogs/1"; "https://beyondchats.com/blogs/2";
          "https://beyondchats.com/blogs/3"; "https://beyondchats.com/blogs/4";
          "https://beyondchats.com/blogs/5"; "https://beyondchats.com/blogs/6";
          "https://beyondchats.com/blogs/7"]%string.

(** The scripted services with a [Date] that reads one day. *)
Definition newYear : jsstring := js "2025-01-01".

Definition calendar : Oracles Scripted.World (list Dom.Node) := {|
  puppeteer_launch := puppeteer_launch Scripted.oracles;
  browser_newPage := browser_newPage Scripted.oracles;
  browser_close := browser_close Scripted.oracles;
  page_goto := page_goto Scripted.oracles;
  page_resultElements := page_resultElements Scripted.oracles;
  page_content := page_content Scripted.oracles;
  openai_create := openai_create Scripted.oracles;
  gemini_generateContent := gemini_generateContent Scripted.oracles;
  elapse := elapse Scripted.oracles;
  encodeURIComponent := encodeURIComponent Scripted.oracles;
  resolveUrl := resolveUrl Scripted.oracles;
  parseDate s := if bool_decide (s = newYear) then Some 1735689600000%Z else None
|}.

(** A valid request to create the article of [draft], with its date. *)
Definition datedRequest (name : string) : CreateRequest :=
  {| validationOk := true;
     b_title := js "About " ++ js name;
     b_content := js "Text of " ++ js name;
     b_author := Some (js "Editor");
     b_publishedDate := Some newYear;
     b_originalUrl := js "https://beyondchats.com/blogs/" ++ js name |}.

(** A reference article of more than 2000 code units, ending in [tail]. *)
Definition longReference (tail : string) : ExtractedContent :=
  {| ec_title := js "A guide to chatbots";
     ec_content := letters 2000 ++ js tail;
     ec_url := js "https://example.org/guide" |}.

(** Both keys are set and both clients exist. *)
Definition bothBackends : Config :=
  {| env_OPENAI_API_KEY := Some (js "key");
     env_GEMINI_API_KEY := Some (js "key");
     openai := true; genAI := true;
     env_BEYONDCHATS_BLOG_URL := None;
     env_ARTICLES_TO_SCRAPE := None |}.

(** A site whose search for the sample title finds two pages of the
    extraction site, one long enough to be extracted, and a video. *)
Definition citingSite : list (jsstring * Scripted.Page) :=
  (searchUrlOf sampleTitle,
   Scripted.Results
     [ resultElement "https://www.youtube.com/watch?v=1" (Some "Video");
       resultElement "https://example.org/100" (Some "Hundred");
       resultElement "https://example.org/99" (Some "Short");
       resultElement "https://example.org/spaced" (Some "Spaced") ]%string)
  :: extractionSite.

(** A server on the citing site that stores one article with the sample
    title. *)
Definition sampleArticle : Article.t :=
  {| Article.id := js "a1";
     Article.title := sampleTitle;
     Article.content := sampleContent;
     Article.author := None;
     Article.publishedDate := None;
     Article.originalUrl := js "https://beyondchats.com/blogs/a1";
     Article.isUpdated := false;
     Article.updatedContent := None;
     Article.references := [] |}.

Definition citingServer : Sys Scripted.World :=
  mkSys (mkEnv (Scripted.start citingSite [Ok betterText]) []) [sampleArticle].

(** The scripted services on a machine where the browser does not start. *)
Definition launchFailed : JsError := Error (js "Failed to launch the browser process").

Definition noBrowser : Oracles Scripted.World (list Dom.Node) := {|
  puppeteer_launch w := (Throw launchFailed, w);
  browser_newPage := browser_newPage Scripted.oracles;
  browser_close := browser_close Scripted.oracles;
  page_goto := page_goto Scripted.oracles;
  page_resultElements := page_resultElements Scripted.oracles;
  page_content := page_content Scripted.oracles;
  openai_create := openai_create Scripted.oracles;
  gemini_generateContent := gemini_generateContent Scripted.oracles;
  elapse := elapse Scripted.oracles;
  encodeURIComponent := encodeURIComponent Scripted.oracles;
  resolveUrl := resolveUrl Scripted.oracles;
  parseDate := parseDate Scripted.oracles
|}.

(** * Properties *)

(** ** The monad *)

Lemma bind_ok {S A B} (c : M S A) (k : A -> M S B) s a s' :
  c s = (Ok a, s') -> bind c k s = k a s'.
Proof. intros Hc. unfold bind. by rewrite Hc. Qed.

Lemma bind_throw {S A B} (c : M S A) (k : A -> M S B) s e s' :
  c s = (Throw e, s') -> bind c k s = (Throw e, s').
Proof. intros Hc. unfold bind. by rewrite Hc. Qed.

Lemma try_catch_rethrow {S A} (c : M S A) s :
  try_catch c (fun error => throw error) s = c s.
Proof. unfold try_catch, throw. by destruct (c s) as [[a|e] s']. Qed.

Lemma truthy_nonempty (s : jsstring) : truthy s = true <-> s ≠ [].
Proof. destruct s; simpl; split; congruence. Qed.




(** ** The retry loop of the secondary backend *)

Section RetryLoop.
Context {W Doc : Type} (orc : Oracles W Doc).

Lemma generateLoop_answer prompt remaining attempts (e : Env W) text w' :
  gemini_generateContent orc prompt (world e) = (Ok text, w') ->
  generateLoop orc prompt (S remaining) attempts e
  = (Ok text, mkEnv w' (trace e ++ [EvGenerate prompt])).
Proof.
  intros Hg. simpl. unfold try_catch, bind, emit, modify, ask, ret. simpl.
  by rewrite Hg.
Qed.

Lemma generateLoop_rate_limit prompt remaining attempts (e : Env W) error w1 :
  gemini_generateContent orc prompt (world e) = (Throw error, w1) ->
  is_rate_limit error = true ->
  generateLoop orc prompt (S remaining) attempts e
  = generateLoop orc prompt remaining (S attempts)
      (mkEnv (elapse orc 65000 w1)
             (trace e ++ [EvGenerate prompt; EvSleep 65000])).
Proof.
  intros Hg Hrl. simpl. unfold try_catch at 1. unfold bind at 1 2, emit at 1, modify, ask at 1.
  simpl. rewrite Hg, Hrl. unfold sleep, bind, emit, modify, ask. simpl.
  by rewrite <- app_assoc.
Qed.


(** After [n] rate-limited attempts the loop is where it would be with [n]
    attempts fewer to go. *)
Lemma generateLoop_cooldowns prompt n :
  forall remaining attempts (e : Env W) w',
    rateLimited orc prompt n (world e) w' ->
    generateLoop orc prompt (n + remaining) attempts e
    = generateLoop orc prompt remaining (n + attempts)
        (mkEnv w' (trace e ++ cooldowns prompt n)).
Proof.
  induction n as [|n IH]; intros remaining attempts e w' Hrl;
    inversion Hrl as [|? ? error w1 ? Hcall Hsignal Hrest]; subst.
  - simpl. rewrite app_nil_r. by destruct e.
  - change (S n + remaining)%nat with (S (n + remaining)).
    rewrite (generateLoop_rate_limit _ _ _ _ _ _ Hcall Hsignal).
    rewrite (IH remaining (S attempts) _ w'); [|done].
    simpl. rewrite <- app_assoc. simpl. by rewrite Nat.add_succ_r.
Qed.


End RetryLoop.

(** ** The rewriter *)

Section Rewriter.
Context {W Doc : Type} (orc : Oracles W Doc) (cfg : Config).

(** On the Gemini route, [rewriteArticle] is the retry loop followed by the
    two emptiness checks. *)
Lemma rewriteArticle_gemini title content refs (e : Env W) :
  routedToGemini cfg ->
  rewriteArticle orc cfg title content refs e
  = match generateLoop orc (buildPrompt title content refs) maxAttempts 0 e with
    | (Ok text, e') =>
        if truthy text then
          (Ok {| updatedContent := text; references := ec_url <$> refs |}, e')
        else (Throw rateLimitsExhausted, e')
    | (Throw error, e') => (Throw error, e')
    end.
Proof.
  intros [Hopenai Hgemini]. unfold rewriteArticle. rewrite try_catch_rethrow.
  rewrite Hopenai, Hgemini.
  assert (env_set (env_GEMINI_API_KEY cfg) = true) as ->
    by (by apply andb_true_iff in Hgemini as [? _]).
  rewrite andb_false_r.
  change (maxAttempts - 0)%nat with maxAttempts.
  unfold bind at 1 2.
  destruct (generateLoop orc _ maxAttempts 0 e) as [[text|error] e']; [|done].
  destruct (truthy text) eqn:Htext; simpl; unfold throw, ret; [|done].
  by rewrite Htext.
Qed.

(** A returned rewrite carries generated text and the URLs of the
    reference articles, in order. *)
Lemma rewriteArticle_returns title content refs (e e' : Env W) r :
  rewriteArticle orc cfg title content refs e = (Ok r, e') ->
  updatedContent r ≠ [] /\ references r = ec_url <$> refs.
Proof.
  unfold rewriteArticle. rewrite try_catch_rethrow.
  destruct (negb _ && negb _); [discriminate|].
  unfold bind at 1.
  match goal with
  | |- context [match ?c e with _ => _ end] =>
      destruct (c e) as [[generated|error] e1]; [|discriminate]
  end.
  destruct (truthy generated) eqn:Hgen; simpl; unfold throw, ret;
    [|discriminate].
  intros [= <- <-]. simpl. split; [|done]. by apply truthy_nonempty.
Qed.

End Rewriter.


Lemma rateLimited_script prompt n answers pages cur chat now :
  rateLimited Scripted.oracles prompt n
    (Scripted.mkWorld pages cur (rateLimits n answers) chat now)
    (Scripted.mkWorld pages cur answers chat (now + 65000 * Z.of_nat n)).
Proof.
  revert now. induction n as [|n IH]; intros now.
  - replace (now + 65000 * Z.of_nat 0) with now by lia. constructor.
  - replace (now + 65000 * Z.of_nat (S n)) with ((now + 65000) + 65000 * Z.of_nat n)
      by lia.
    eapply rateLimited_S; [reflexivity | reflexivity | apply IH].
Defined.


(** ** The article store *)

Section Store.

Lemma find_unique_row (tbl : Table) a :
  unique_ids tbl -> a ∈ tbl -> prisma.findUnique_id (Article.id a) tbl = Some a.
Proof.
  unfold unique_ids, prisma.findUnique_id.
  induction tbl as [|b tbl IH]; intros Hnd Hin; [by apply elem_of_nil in Hin|].
  rewrite fmap_cons in Hnd. apply NoDup_cons in Hnd as [Hb Hnd].
  simpl. unfold prisma.has_id at 1.
  apply elem_of_cons in Hin as [->|Hin].
  - by rewrite bool_decide_eq_true_2.
  - rewrite bool_decide_eq_false_2; [by apply IH|].
    intros Heq. apply Hb. rewrite Heq. by apply list_elem_of_fmap_2.
Qed.

Lemma updateRow_id id data a :
  Article.id (prisma.updateRow id data a) = Article.id a.
Proof. unfold prisma.updateRow. by destruct (prisma.has_id id a). Qed.

Lemma updateRow_ids id data (tbl : Table) :
  Article.id <$> (prisma.updateRow id data <$> tbl) = Article.id <$> tbl.
Proof.
  rewrite <- list_fmap_compose. apply list_fmap_ext.
  intros i a _. apply updateRow_id.
Qed.

Lemma updateRow_other id data (tbl : Table) a :
  a ∈ tbl -> Article.id a ≠ id -> a ∈ prisma.updateRow id data <$> tbl.
Proof.
  intros Hin Hne. apply list_elem_of_fmap. exists a. split; [|done].
  unfold prisma.updateRow, prisma.has_id. by rewrite bool_decide_eq_false_2.
Qed.

Lemma updateRow_same id data (tbl : Table) a :
  a ∈ tbl -> Article.id a = id ->
  prisma.applyUpdate data a ∈ prisma.updateRow id data <$> tbl.
Proof.
  intros Hin Heq. apply list_elem_of_fmap. exists a. split; [|done].
  unfold prisma.updateRow, prisma.has_id. by rewrite bool_decide_eq_true_2.
Qed.

Lemma update_cases id data (tbl : Table) :
  (exists a, prisma.findUnique_id id tbl = Some a /\
     prisma.update id data tbl
     = (Ok (prisma.applyUpdate data a), prisma.updateRow id data <$> tbl))
  \/ (prisma.findUnique_id id tbl = None /\
      prisma.update id data tbl = (Throw prisma.recordNotFound, tbl)).
Proof.
  unfold prisma.update. destruct (prisma.findUnique_id id tbl) as [a|]; eauto.
Qed.

(** The store keeps the identifiers distinct: a created row gets a new one,
    an update keeps the one of the row. *)
Lemma create_unique_ids data (tbl : Table) :
  unique_ids tbl -> unique_ids (snd (prisma.create data tbl)).
Proof.
  unfold unique_ids, prisma.create. simpl. intros Hnd.
  rewrite fmap_app. apply NoDup_app. split; [done|]. split; [|apply NoDup_singleton].
  intros id Hin Hnew. apply list_elem_of_singleton in Hnew. subst id.
  by apply (infinite_is_fresh (Article.id <$> tbl)).
Qed.

Lemma update_unique_ids id data (tbl : Table) :
  unique_ids tbl -> unique_ids (snd (prisma.update id data tbl)).
Proof.
  unfold unique_ids, prisma.update. intros Hnd.
  destruct (prisma.findUnique_id id tbl); simpl; [|done].
  by rewrite updateRow_ids.
Qed.

Lemma enhancement_enhanced r a :
  updatedContent r ≠ [] -> enhanced (prisma.applyUpdate (enhancement r) a).
Proof. intros Hr. split; [done|]. by exists (updatedContent r). Qed.

End Store.

(** ** One enhancement *)

Section Enhancement.
Context {W Doc Sel : Type} `{Cheerio Doc Sel} (orc : Oracles W Doc) (cfg : Config).

Lemma liftEnv_db {A} (c : M (Env W) A) (s s' : Sys W) r :
  liftEnv c s = (r, s') -> db s' = db s.
Proof. unfold liftEnv. destruct (c (env s)) as [r0 e']. by intros [= _ <-]. Qed.

Lemma findReferences_db title (s s' : Sys W) r :
  findReferences orc title s = (r, s') -> db s' = db s.
Proof.
  unfold findReferences, bind.
  destruct (liftEnv (searchGoogle orc title 2) s) as [[results|e] s1] eqn:Hsearch.
  - apply liftEnv_db in Hsearch.
    destruct (0 <? length results)%nat.
    + intros Hextract. apply liftEnv_db in Hextract. congruence.
    + unfold ret. intros [= _ <-]. done.
  - apply liftEnv_db in Hsearch. intros [= _ <-]. done.
Qed.

(** The outcomes of [enhanceOne]: either the rewrite returned [r] and the
    row of the article was updated with it, or an exception was thrown and
    the table is as it was. *)
Lemma enhanceOne_outcome article (s : Sys W) :
  (exists refs s0 r s1 row,
      findReferences orc (Article.title article) s = (Ok refs, s0) /\
      liftEnv (rewriteArticle orc cfg (Article.title article)
                 (Article.content article) refs) s0 = (Ok r, s1) /\
      prisma.findUnique_id (Article.id article) (db s) = Some row /\
      updatedContent r ≠ [] /\ references r = ec_url <$> refs /\
      enhanceOne orc cfg article s
      = (Ok (prisma.applyUpdate (enhancement r) row),
         mkSys (env s1)
           (prisma.updateRow (Article.id article) (enhancement r) <$> db s)))
  \/ (exists error s1,
      enhanceOne orc cfg article s = (Throw error, s1) /\ db s1 = db s).
Proof.
  destruct (findReferences orc (Article.title article) s) as [[refs|e] s0] eqn:Hrefs.
  2:{ right. exists e, s0. split; [|by eapply findReferences_db].
      unfold enhanceOne. by rewrite (bind_throw _ _ _ _ _ Hrefs). }
  pose proof (findReferences_db _ _ _ _ Hrefs) as Hdb0.
  destruct (liftEnv (rewriteArticle orc cfg (Article.title article)
              (Article.content article) refs) s0) as [[r|e] s1] eqn:Hrewrite.
  2:{ right. exists e, s1. split; [|apply liftEnv_db in Hrewrite; congruence].
      unfold enhanceOne. rewrite (bind_ok _ _ _ _ _ Hrefs).
      by rewrite (bind_throw _ _ _ _ _ Hrewrite). }
  pose proof (liftEnv_db _ _ _ _ Hrewrite) as Hdb1.
  assert (Hr : updatedContent r ≠ [] /\ references r = ec_url <$> refs).
  { unfold liftEnv in Hrewrite.
    destruct (rewriteArticle orc cfg _ _ refs (env s0)) as [r0 e'] eqn:Hrw.
    injection Hrewrite as -> _. by eapply rewriteArticle_returns. }
  destruct Hr as [Hr1 Hr2].
  assert (Hrun : enhanceOne orc cfg article s
                 = onDb (prisma.update (Article.id article) (enhancement r)) s1).
  { unfold enhanceOne. rewrite (bind_ok _ _ _ _ _ Hrefs).
    by rewrite (bind_ok _ _ _ _ _ Hrewrite). }
  rewrite Hrun. unfold onDb.
  destruct (update_cases (Article.id article) (enhancement r) (db s1))
    as [(row & Hfind & ->)|(Hfind & ->)].
  - left. exists refs, s0, r, s1, row. rewrite Hdb1, Hdb0 in *. done.
  - right. eexists _, _. split; [done|]. simpl. congruence.
Qed.

End Enhancement.

(** ** The batch loop *)

Lemma tally_ext s1 s2 f1 f2 e1 e2 :
  s1 = s2 -> f1 = f2 -> e1 = e2 -> mkTally s1 f1 e1 = mkTally s2 f2 e2.
Proof. by intros -> -> ->. Qed.

Lemma filter_sublist {A} (p : A -> bool) (l : list A) :
  List.filter p l `sublist_of` l.
Proof.
  induction l as [|x l IH]; simpl; [constructor|].
  destruct (p x); by constructor.
Qed.

Lemma findMany_sublist isUpdated take_ (tbl : Table) :
  prisma.findMany isUpdated take_ tbl `sublist_of` tbl.
Proof.
  unfold prisma.findMany. destruct take_ as [n|].
  - etrans; [apply sublist_take|apply filter_sublist].
  - apply filter_sublist.
Qed.

Section Batch.
Context {W Doc Sel : Type} `{Cheerio Doc Sel} (orc : Oracles W Doc) (cfg : Config).

Lemma enhanceStep_ok article t (s s1 : Sys W) updated :
  enhanceOne orc cfg article s = (Ok updated, s1) ->
  enhanceStep orc cfg article t s = (Ok (tallySuccess t updated), s1).
Proof.
  intros Hone. unfold enhanceStep, try_catch.
  by rewrite (bind_ok _ _ _ _ _ Hone).
Qed.

Lemma enhanceStep_throw article t (s s1 : Sys W) error :
  enhanceOne orc cfg article s = (Throw error, s1) ->
  enhanceStep orc cfg article t s = (Ok (tallyFailure t), s1).
Proof.
  intros Hone. unfold enhanceStep, try_catch.
  by rewrite (bind_throw _ _ _ _ _ Hone).
Qed.

Lemma enhanceEach_cons article rest t (s s1 : Sys W) t1 :
  enhanceStep orc cfg article t s = (Ok t1, s1) ->
  enhanceEach orc cfg (article :: rest) t s = enhanceEach orc cfg rest t1 s1.
Proof. intros Hstep. simpl. by rewrite (bind_ok _ _ _ _ _ Hstep). Qed.

(** The loop over a batch of rows with distinct identifiers: it never
    throws, every article is counted once, the enhanced rows are in the
    table, and every other row is as before. *)
Lemma enhanceEach_spec articles :
  forall t (s : Sys W),
    unique_ids (db s) ->
    NoDup (Article.id <$> articles) ->
    (forall a, a ∈ articles -> a ∈ db s) ->
    exists new s',
      enhanceEach orc cfg articles t s
      = (Ok {| successCount := successCount t + length new;
               failureCount := failureCount t + (length articles - length new);
               enhancedArticles := enhancedArticles t ++ new |}, s')
      /\ (length new <= length articles)%nat
      /\ Article.id <$> db s' = Article.id <$> db s
      /\ (forall u, u ∈ new ->
            u ∈ db s' /\ enhanced u /\
            exists a, a ∈ articles /\ Article.id a = Article.id u)
      /\ (forall a, a ∈ articles -> Article.id a ∉ Article.id <$> new -> a ∈ db s')
      /\ (forall row, row ∈ db s -> Article.id row ∉ Article.id <$> articles ->
            row ∈ db s').
Proof.
  induction articles as [|a rest IH]; intros t s Huniq Hnd Hrows.
  - exists [], s. simpl. unfold ret.
    rewrite !Nat.add_0_r, app_nil_r. destruct t. simpl.
    split; [done|]. split; [done|]. split; [done|].
    split; [|split; [|done]]; intros u Hu; by apply elem_of_nil in Hu.
  - rewrite fmap_cons in Hnd. apply NoDup_cons in Hnd as [Ha Hnd].
    assert (Hin : a ∈ db s) by (apply Hrows; left).
    destruct (enhanceOne_outcome orc cfg a s)
      as [(refs & s0 & r & s1 & row & _ & _ & Hfind & Hr & _ & Hone)
         |(error & s1 & Hone & Hdb)].
    + rewrite (find_unique_row _ _ Huniq Hin) in Hfind. injection Hfind as <-.
      set (u := prisma.applyUpdate (enhancement r) a) in *.
      set (s2 := mkSys (env s1) _) in Hone.
      rewrite (enhanceEach_cons _ _ _ _ _ _ (enhanceStep_ok _ _ _ _ _ Hone)).
      destruct (IH (tallySuccess t u) s2) as (new & s' & Hrun & Hlen & Hids & Hnew & Hold & Hother).
      { unfold unique_ids, s2. simpl. by rewrite updateRow_ids. }
      { done. }
      { intros b Hb. unfold s2. simpl. apply updateRow_other; [apply Hrows; by right|].
        intros Heq. apply Ha. rewrite <- Heq. by apply list_elem_of_fmap_2. }
      assert (Hu : u ∈ db s').
      { apply Hother; [|done]. unfold s2. simpl. by apply updateRow_same. }
      exists (u :: new), s'. rewrite Hrun.
      split; [|split; [simpl; lia|split; [|split; [|split]]]].
      * do 2 f_equal. apply tally_ext;
          cbn [tallySuccess successCount failureCount enhancedArticles];
          rewrite ?length_cons; [lia|lia|by rewrite <- app_assoc].
      * rewrite Hids. unfold s2. simpl. by rewrite updateRow_ids.
      * intros v Hv. apply elem_of_cons in Hv as [->|Hv].
        -- split; [done|]. split; [by apply enhancement_enhanced|].
           exists a. split; [left|done].
        -- destruct (Hnew v Hv) as (? & ? & b & ? & ?).
           split; [done|]. split; [done|]. exists b. split; [by right|done].
      * intros b Hb Hnot. apply elem_of_cons in Hb as [->|Hb].
        -- exfalso. apply Hnot. left.
        -- apply Hold; [done|]. intros Hmem. apply Hnot. by right.
      * intros b Hb Hnot. apply Hother.
        -- unfold s2. simpl. apply updateRow_other; [done|].
           intros Heq. apply Hnot. rewrite Heq. left.
        -- intros Hmem. apply Hnot. by right.
    + rewrite (enhanceEach_cons _ _ _ _ _ _ (enhanceStep_throw _ _ _ _ _ Hone)).
      destruct (IH (tallyFailure t) s1) as (new & s' & Hrun & Hlen & Hids & Hnew & Hold & Hother).
      { unfold unique_ids. by rewrite Hdb. }
      { done. }
      { intros b Hb. rewrite Hdb. apply Hrows. by right. }
      exists new, s'. rewrite Hrun.
      split; [|split; [simpl; lia|split; [|split; [|split]]]].
      * do 2 f_equal. apply tally_ext;
          cbn [tallyFailure successCount failureCount enhancedArticles];
          rewrite ?length_cons; [lia|lia|done].
      * by rewrite Hids, Hdb.
      * intros v Hv. destruct (Hnew v Hv) as (? & ? & b & ? & ?).
        split; [done|]. split; [done|]. exists b. split; [by right|done].
      * intros b Hb Hnot. apply elem_of_cons in Hb as [->|Hb].
        -- apply Hother; [by rewrite Hdb|done].
        -- by apply Hold.
      * intros b Hb Hnot. apply Hother; [by rewrite Hdb|].
        intros Hmem. apply Hnot. by right.
Qed.

End Batch.

(** ** The batch and the outcomes of its articles *)

Lemma find_updateRow id data (tbl : Table) row :
  prisma.findUnique_id id tbl = Some row ->
  prisma.findUnique_id id (prisma.updateRow id data <$> tbl)
  = Some (prisma.applyUpdate data row).
Proof.
  unfold prisma.findUnique_id. induction tbl as [|a tbl IH]; [done|].
  rewrite fmap_cons. cbn [List.find].
  assert (Hid : prisma.has_id id (prisma.updateRow id data a) = prisma.has_id id a).
  { unfold prisma.has_id. by rewrite updateRow_id. }
  rewrite Hid. destruct (prisma.has_id id a) eqn:Ha; [|apply IH].
  intros [= <-]. unfold prisma.updateRow. by rewrite Ha.
Qed.

Lemma thrown_returned {A} (outcomes : list (Result A)) :
  (length (returned outcomes) + thrown outcomes = length outcomes)%nat.
Proof.
  induction outcomes as [|[a|e] rest IH]; [done| |].
  - change (returned (Ok a :: rest)) with (a :: returned rest).
    change (thrown (Ok a :: rest)) with (thrown rest). simpl. lia.
  - change (returned (Throw e :: rest)) with (returned rest).
    change (thrown (Throw e :: rest)) with (S (thrown rest)). simpl. lia.
Qed.

Section BatchOutcomes.
Context {W Doc Sel : Type} `{Cheerio Doc Sel} (orc : Oracles W Doc) (cfg : Config).

(** An enhancement that returns has stored the row it returns. *)
Lemma enhanceOne_stored article (s s1 : Sys W) updated :
  enhanceOne orc cfg article s = (Ok updated, s1) ->
  Article.isUpdated updated = true
  /\ prisma.findUnique_id (Article.id article) (db s1) = Some updated.
Proof.
  intros Hrun.
  destruct (enhanceOne_outcome orc cfg article s)
    as [(refs & s0 & r & s2 & row & _ & _ & Hfind & _ & _ & Hone)
       |(error & s2 & Hone & _)]; rewrite Hone in Hrun; [|discriminate].
  injection Hrun as <- <-. split; [done|]. cbn [db]. by apply find_updateRow.
Qed.

Lemma batchOutcomes_length articles :
  forall s : Sys W, length (fst (batchOutcomes orc cfg articles s)) = length articles.
Proof.
  induction articles as [|a rest IH]; intros s; [done|].
  cbn [batchOutcomes]. destruct (enhanceOne orc cfg a s) as [r s1].
  specialize (IH s1). destruct (batchOutcomes orc cfg rest s1) as [rs s'].
  simpl in *. by rewrite IH.
Qed.

(** The loop counts an article as a success exactly when its enhancement
    returns, and reports the returned rows in order. *)
Lemma enhanceEach_outcomes articles :
  forall t (s : Sys W),
    enhanceEach orc cfg articles t s
    = (Ok {| successCount :=
               successCount t + length (returned (fst (batchOutcomes orc cfg articles s)));
             failureCount :=
               failureCount t + thrown (fst (batchOutcomes orc cfg articles s));
             enhancedArticles :=
               enhancedArticles t ++ returned (fst (batchOutcomes orc cfg articles s)) |},
       snd (batchOutcomes orc cfg articles s)).
Proof.
  induction articles as [|a rest IH]; intros t s.
  - simpl. unfold ret. rewrite !Nat.add_0_r, app_nil_r. by destruct t.
  - cbn [batchOutcomes].
    destruct (enhanceOne orc cfg a s) as [[u|error] s1] eqn:Hone.
    + rewrite (enhanceEach_cons _ _ _ _ _ _ _ _ (enhanceStep_ok _ _ _ _ _ _ _ Hone)).
      rewrite IH. destruct (batchOutcomes orc cfg rest s1) as [rs s'].
      cbn [fst snd tallySuccess successCount failureCount enhancedArticles].
      change (returned (Ok u :: rs)) with (u :: returned rs).
      change (thrown (Ok u :: rs)) with (thrown rs).
      do 2 f_equal. apply tally_ext; [cbn [length]; lia|done|by rewrite <- app_assoc].
    + rewrite (enhanceEach_cons _ _ _ _ _ _ _ _ (enhanceStep_throw _ _ _ _ _ _ _ Hone)).
      rewrite IH. destruct (batchOutcomes orc cfg rest s1) as [rs s'].
      cbn [fst snd tallyFailure successCount failureCount enhancedArticles].
      change (returned (Throw error :: rs)) with (returned rs).
      change (thrown (Throw error :: rs)) with (S (thrown rs)).
      do 2 f_equal. apply tally_ext; [done|lia|done].
Qed.

End BatchOutcomes.

(** C1.  Batch enhancement isolates failures.
    - An exception thrown while one article is processed is caught: it adds one
      to the failure count, leaves the table as it was, and the loop goes on
      with the remaining articles.
    - An article whose processing returns is counted as one success: the row
      it returns has [isUpdated = true] and is the row stored under the
      identifier of the article, it is added to the reported articles, and
      the loop goes on with the remaining articles.
    - A rewrite that throws makes the processing of its article throw before
      any store update: the update runs only after the rewrite returned.
    - On a non-empty selection the batch answers with the outcomes of its
      articles, each processed in the state its predecessors left: the
      number of successes is the number of articles whose processing
      returned, the number of failures is the number of articles whose
      processing threw, the reported articles are the returned rows in the
      order of the batch, and the state is the one after the last article.
      Every selected article has one outcome, so the two numbers add up to
      the size of the selection.
    - On a table with distinct identifiers every returned row is stored with
      [isUpdated = true] when the batch ends and belongs to a selected
      article, and every selected article that is not among the successes
      is stored exactly as it was. *)
Theorem batch_isolates_failures :
  forall (W Doc Sel : Type) (C : Cheerio Doc Sel) (orc : Oracles W Doc)
         (cfg : Config),
    (forall article rest t (s s1 : Sys W) error,
        enhanceOne orc cfg article s = (Throw error, s1) ->
        db s1 = db s /\
        enhanceEach orc cfg (article :: rest) t s
        = enhanceEach orc cfg rest
            {| successCount := successCount t;
               failureCount := failureCount t + 1;
               enhancedArticles := enhancedArticles t |} s1)
    /\ (forall article rest t (s s1 : Sys W) updated,
        enhanceOne orc cfg article s = (Ok updated, s1) ->
        Article.isUpdated updated = true /\
        prisma.findUnique_id (Article.id article) (db s1) = Some updated /\
        enhanceEach orc cfg (article :: rest) t s
        = enhanceEach orc cfg rest
            {| successCount := successCount t + 1;
               failureCount := failureCount t;
               enhancedArticles := enhancedArticles t ++ [updated] |} s1)
    /\ (forall article (s s0 s1 : Sys W) refs error,
        findReferences orc (Article.title article) s = (Ok refs, s0) ->
        liftEnv (rewriteArticle orc cfg (Article.title article)
                   (Article.content article) refs) s0 = (Throw error, s1) ->
        enhanceOne orc cfg article s = (Throw error, s1) /\ db s1 = db s)
    /\ (forall s : Sys W,
        let batch := prisma.findMany false (Some 5%nat) (db s) in
        let outcomes := fst (batchOutcomes orc cfg batch s) in
        batch ≠ [] ->
        enhanceArticles orc cfg s
        = (Ok (ReplyArticles 200
                 (MsgEnhancementCompleted (length (returned outcomes))
                    (thrown outcomes))
                 (length (returned outcomes)) (returned outcomes)),
           snd (batchOutcomes orc cfg batch s))
        /\ length outcomes = length batch
        /\ (length (returned outcomes) + thrown outcomes = length batch)%nat)
    /\ (forall s : Sys W,
        unique_ids (db s) ->
        let batch := prisma.findMany false (Some 5%nat) (db s) in
        let updated := returned (fst (batchOutcomes orc cfg batch s)) in
        let s' := snd (batchOutcomes orc cfg batch s) in
        (forall u, u ∈ updated ->
           Article.isUpdated u = true /\
           prisma.findUnique_id (Article.id u) (db s') = Some u /\
           exists a, a ∈ batch /\ Article.id a = Article.id u)
        /\ (forall a, a ∈ batch -> Article.id a ∉ Article.id <$> updated ->
              prisma.findUnique_id (Article.id a) (db s') = Some a)).
Proof.
  intros W Doc Sel C orc cfg. split; [|split; [|split; [|split]]].
  - intros article rest t s s1 error Hone. split.
    + destruct (enhanceOne_outcome orc cfg article s)
        as [(? & ? & ? & ? & ? & _ & _ & _ & _ & _ & Hok)|(e' & s1' & Hthrow & Hdb)];
        congruence.
    + apply enhanceEach_cons. by eapply enhanceStep_throw.
  - intros article rest t s s1 updated Hone.
    destruct (enhanceOne_stored orc cfg article s s1 updated Hone) as [Hflag Hstored].
    split; [done|]. split; [done|].
    apply enhanceEach_cons. by apply enhanceStep_ok.
  - intros article s s0 s1 refs error Hrefs Hrewrite. split.
    + unfold enhanceOne. rewrite (bind_ok _ _ _ _ _ Hrefs).
      by rewrite (bind_throw _ _ _ _ _ Hrewrite).
    + apply liftEnv_db in Hrewrite. apply findReferences_db in Hrefs. congruence.
  - intros s batch outcomes Hbatch.
    assert (Hsome : (length batch =? 0)%nat = false).
    { apply Nat.eqb_neq. intros Hzero. by apply Hbatch, nil_length_inv. }
    assert (Hlen : length outcomes = length batch) by apply batchOutcomes_length.
    split; [|split; [done|by rewrite thrown_returned]].
    unfold enhanceArticles, try_catch, bind, readDb. fold batch.
    rewrite Hsome, (enhanceEach_outcomes orc cfg batch emptyTally s). done.
  - intros s Huniq batch updated s'.
    pose proof (findMany_sublist false (Some 5%nat) (db s)) as Hsub. fold batch in Hsub.
    destruct (enhanceEach_spec orc cfg batch emptyTally s Huniq)
      as (new & s2 & Hrun & Hlen & Hids & Hnew & Hold & _).
    { apply (sublist_NoDup _ (Article.id <$> db s));
        first [exact Huniq | by apply (fmap_sublist Article.id)]. }
    { intros a Ha. by eapply elem_of_sublist. }
    rewrite (enhanceEach_outcomes orc cfg batch emptyTally s) in Hrun.
    injection Hrun as _ _ Hupdated Hstate. simpl in Hupdated.
    fold updated in Hupdated. fold s' in Hstate. subst new s2.
    assert (Huniq' : unique_ids (db s')) by (unfold unique_ids; by rewrite Hids).
    split.
    + intros u Hu. destruct (Hnew u Hu) as (Hin & [Hflag _] & a & Ha & Hid).
      split; [done|]. split; [by apply find_unique_row|]. by exists a.
    + intros a Ha Hnot. apply find_unique_row; [done|]. by apply Hold.
Qed.

Example five_drafts_third_fails :
  let run := enhanceArticles Scripted.oracles Scripted.geminiOnly
               (server fiveDrafts thirdFails) in
  replyMessage (fst run) = Some (MsgEnhancementCompleted 4 1)
  /\ Article.id <$> replyArticles (fst run) = js <$> ["a1"; "a2"; "a4"; "a5"]%string
  /\ Forall (fun u => Article.isUpdated u = true) (replyArticles (fst run))
  /\ prisma.findUnique_id (js "a3") (db (snd run)) = Some (draft "a3")
  /\ Article.isUpdated <$> db (snd run) = [true; true; false; true; true].
Proof.
  vm_compute. repeat split; repeat constructor.
Qed.

(** Five drafts, the rewrite of the third refused by the backend: four
    successes and one failure. *)
Lemma batch_isolates_failures_witness :
  let orc := Scripted.oracles in
  let cfg := Scripted.geminiOnly in
  let a3 := draft "a3" in
  let s := server fiveDrafts [Throw Scripted.badRequest; Ok betterText] in
  let s0 := snd (findReferences orc (Article.title a3) s) in
  let s1 := snd (enhanceOne orc cfg a3 s) in
  let a4 := draft "a4" in
  let s4 := snd (enhanceOne orc cfg a4 s1) in
  let start := server fiveDrafts thirdFails in
  let outcomes := fst (batchOutcomes orc cfg fiveDrafts start) in
  let s' := snd (batchOutcomes orc cfg fiveDrafts start) in
  (db s1 = db s /\
   enhanceEach orc cfg [a3; a4] emptyTally s
   = enhanceEach orc cfg [a4]
       {| successCount := 0; failureCount := 1; enhancedArticles := [] |} s1)
  /\ (Article.isUpdated (published "a4") = true /\
      prisma.findUnique_id (Article.id a4) (db s4) = Some (published "a4") /\
      enhanceEach orc cfg [a4] emptyTally s1
      = enhanceEach orc cfg []
          {| successCount := 1; failureCount := 0;
             enhancedArticles := [published "a4"] |} s4)
  /\ (enhanceOne orc cfg a3 s = (Throw Scripted.badRequest, s1) /\ db s1 = db s)
  /\ (enhanceArticles orc cfg start
      = (Ok (ReplyArticles 200
               (MsgEnhancementCompleted (length (returned outcomes)) (thrown outcomes))
               (length (returned outcomes)) (returned outcomes)), s')
      /\ length outcomes = 5%nat
      /\ (length (returned outcomes) + thrown outcomes = 5)%nat)
  /\ ((forall u, u ∈ returned outcomes ->
         Article.isUpdated u = true /\
         prisma.findUnique_id (Article.id u) (db s') = Some u /\
         exists a, a ∈ fiveDrafts /\ Article.id a = Article.id u)
      /\ (forall a, a ∈ fiveDrafts -> Article.id a ∉ Article.id <$> returned outcomes ->
            prisma.findUnique_id (Article.id a) (db s') = Some a))
  /\ (length (returned outcomes) = 4%nat
      /\ thrown outcomes = 1%nat
      /\ returned outcomes = published <$> ["a1"; "a2"; "a4"; "a5"]%string
      /\ db s' = [published "a1"; published "a2"; draft "a3";
                  published "a4"; published "a5"]).
Proof.
  intros orc cfg a3 s s0 s1 a4 s4 start outcomes s'.
  destruct (batch_isolates_failures _ _ _ Dom.cheerio orc cfg)
    as (Hcaught & Hcounted & Hrewrite & Hbatch & Hstored).
  split; [|split; [|split; [|split; [|split]]]].
  - apply (Hcaught a3 [a4] emptyTally s s1 Scripted.badRequest).
    vm_compute. reflexivity.
  - apply (Hcounted a4 [] emptyTally s1 s4 (published "a4")).
    vm_compute. reflexivity.
  - apply (Hrewrite a3 s s0 s1 [] Scripted.badRequest).
    + vm_compute. reflexivity.
    + vm_compute. reflexivity.
  - apply (Hbatch start). vm_compute. discriminate.
  - apply (Hstored start). apply (bool_decide_unpack _). vm_compute. reflexivity.
  - vm_compute. repeat split.
Defined.

(** ** What a run does to the rows *)

Lemma same_or_enhanced_trans a b c :
  same_or_enhanced a b -> same_or_enhanced b c -> same_or_enhanced a c.
Proof.
  intros [->|[Hid Hb]] [->|[Hid' Hc]]; [by left|right|right|right]; try done.
  split; [congruence|done].
Qed.

Lemma rows_refl (tbl : Table) : Forall2 same_or_enhanced tbl tbl.
Proof. apply Forall2_same_length_lookup_2; [done|]. intros i a b Ha Hb. left. congruence. Qed.

Lemma rows_trans (t1 t2 t3 : Table) :
  Forall2 same_or_enhanced t1 t2 -> Forall2 same_or_enhanced t2 t3 ->
  Forall2 same_or_enhanced t1 t3.
Proof.
  intros H12. revert t3. induction H12 as [|a b t1 t2 Hab _ IH]; intros t3 H23.
  - by inversion H23.
  - inversion H23 as [|? c ? t3' Hbc Hrest]; subst. constructor.
    + by eapply same_or_enhanced_trans.
    + by apply IH.
Qed.

Lemma rows_enhancement id r (tbl : Table) :
  updatedContent r ≠ [] ->
  Forall2 same_or_enhanced tbl (prisma.updateRow id (enhancement r) <$> tbl).
Proof.
  intros Hr. induction tbl as [|a tbl IH]; [constructor|].
  rewrite fmap_cons. constructor; [|done].
  unfold prisma.updateRow. destruct (prisma.has_id id a); [right|by left].
  split; [done|by apply enhancement_enhanced].
Qed.

Section Rows.
Context {W Doc Sel : Type} `{Cheerio Doc Sel} (orc : Oracles W Doc) (cfg : Config).

(** Whatever [enhanceOne] answers, every row is untouched or enhanced, and
    an article it returns is enhanced. *)
Lemma enhanceOne_rows article (s s' : Sys W) r :
  enhanceOne orc cfg article s = (r, s') ->
  Forall2 same_or_enhanced (db s) (db s') /\
  match r with Ok updated => enhanced updated | Throw _ => db s' = db s end.
Proof.
  intros Hrun.
  destruct (enhanceOne_outcome orc cfg article s)
    as [(refs & s0 & rw & s1 & row & _ & _ & _ & Hr & _ & Hone)
       |(error & s1 & Hone & Hdb)];
    rewrite Hone in Hrun; injection Hrun as <- <-.
  - split; [by apply rows_enhancement|by apply enhancement_enhanced].
  - split; [rewrite Hdb; apply rows_refl|done].
Qed.

Lemma enhanceEach_rows articles :
  forall t (s : Sys W),
    Forall enhanced (enhancedArticles t) ->
    exists t' s',
      enhanceEach orc cfg articles t s = (Ok t', s') /\
      Forall2 same_or_enhanced (db s) (db s') /\
      Forall enhanced (enhancedArticles t').
Proof.
  induction articles as [|a rest IH]; intros t s Ht.
  - exists t, s. split; [done|]. split; [apply rows_refl|done].
  - destruct (enhanceOne orc cfg a s) as [[u|error] s1] eqn:Hone;
      destruct (enhanceOne_rows _ _ _ _ Hone) as [Hrows Hres].
    + rewrite (enhanceEach_cons _ _ _ _ _ _ _ _ (enhanceStep_ok _ _ _ _ _ _ _ Hone)).
      destruct (IH (tallySuccess t u) s1) as (t' & s' & Hrun & Hrows' & Ht').
      { simpl. apply Forall_app. split; [done|by constructor]. }
      exists t', s'. split; [done|]. split; [by eapply rows_trans|done].
    + rewrite (enhanceEach_cons _ _ _ _ _ _ _ _ (enhanceStep_throw _ _ _ _ _ _ _ Hone)).
      destruct (IH (tallyFailure t) s1) as (t' & s' & Hrun & Hrows' & Ht'); [done|].
      exists t', s'. split; [done|]. split; [by eapply rows_trans|done].
Qed.

(** A run of the batch endpoint: it answers (never throws), every row is
    untouched or enhanced, and every article it reports is enhanced. *)
Lemma enhanceArticles_rows (s : Sys W) :
  exists reply s',
    enhanceArticles orc cfg s = (Ok reply, s') /\
    Forall2 same_or_enhanced (db s) (db s') /\
    Forall enhanced (replyArticles (Ok reply)).
Proof.
  unfold enhanceArticles, try_catch, bind, readDb.
  destruct (length (prisma.findMany false (Some 5%nat) (db s)) =? 0)%nat.
  - eexists _, _. split; [done|]. split; [apply rows_refl|constructor].
  - destruct (enhanceEach_rows (prisma.findMany false (Some 5%nat) (db s))
                emptyTally s) as (t' & s' & -> & Hrows & Ht'); [constructor|].
    eexists _, _. split; [done|]. split; [done|]. done.
Qed.

(** A run of the single-article endpoint. *)
Lemma enhanceArticleById_rows id (s : Sys W) :
  exists reply s',
    enhanceArticleById orc cfg id s = (Ok reply, s') /\
    Forall2 same_or_enhanced (db s) (db s') /\
    Forall enhanced (replyArticles (Ok reply)).
Proof.
  unfold enhanceArticleById, try_catch, bind, readDb.
  destruct (prisma.findUnique_id id (db s)) as [article|].
  - destruct (enhanceOne orc cfg article s) as [[u|error] s1] eqn:Hone;
      destruct (enhanceOne_rows _ _ _ _ Hone) as [Hrows Hres].
    + eexists _, _. split; [done|]. split; [done|]. by constructor.
    + eexists _, _. split; [done|]. split; [done|]. constructor.
  - eexists _, _. split; [done|]. split; [apply rows_refl|constructor].
Qed.

End Rows.

Section ScriptRows.
Context {W Doc Sel : Type} `{Cheerio Doc Sel} (orc : Oracles W Doc) (cfg : Config).

Lemma updateStep_rows article counts (s : Sys W) :
  exists counts' s',
    updateStep orc cfg article counts s = (Ok counts', s') /\
    Forall2 same_or_enhanced (db s) (db s').
Proof.
  destruct counts as [successes failures]. unfold updateStep, try_catch.
  unfold bind at 1.
  destruct (liftEnv (searchGoogle orc (Article.title article) 2) s)
    as [[results|e] s0] eqn:Hsearch; apply liftEnv_db in Hsearch;
    [|eexists _, _; split; [done|rewrite Hsearch; apply rows_refl]].
  destruct (length results =? 0)%nat;
    [eexists _, _; split; [done|rewrite Hsearch; apply rows_refl]|].
  unfold bind at 1.
  destruct (liftEnv (extractMultipleArticles orc (sr_url <$> results)) s0)
    as [[refs|e] s1] eqn:Hextract; apply liftEnv_db in Hextract;
    [|eexists _, _; split; [done|rewrite Hextract, Hsearch; apply rows_refl]].
  destruct (length refs =? 0)%nat;
    [eexists _, _; split; [done|rewrite Hextract, Hsearch; apply rows_refl]|].
  unfold bind at 1.
  destruct (liftEnv (rewriteArticle orc cfg (Article.title article)
              (Article.content article) refs) s1) as [[r|e] s2] eqn:Hrewrite.
  2:{ apply liftEnv_db in Hrewrite. eexists _, _. split; [done|].
      rewrite Hrewrite, Hextract, Hsearch. apply rows_refl. }
  assert (Hr : updatedContent r ≠ []).
  { unfold liftEnv in Hrewrite.
    destruct (rewriteArticle orc cfg _ _ refs (env s1)) as [r0 e'] eqn:Hrw.
    injection Hrewrite as -> _. by eapply rewriteArticle_returns. }
  apply liftEnv_db in Hrewrite.
  unfold bind at 1. unfold onDb.
  destruct (update_cases (Article.id article) (enhancement r) (db s2))
    as [(row & Hfind & ->)|(Hfind & ->)].
  - unfold bind.
    match goal with
    | |- context [liftEnv (sleep orc 2000) ?st] =>
        destruct (liftEnv (sleep orc 2000) st) as [[[]|e] s3] eqn:Hsleep;
        apply liftEnv_db in Hsleep; simpl in Hsleep
    end;
      (eexists _, _; split; [done|]; rewrite Hsleep, Hrewrite, Hextract, Hsearch;
       by apply rows_enhancement).
  - eexists _, _. split; [done|]. simpl.
    rewrite Hrewrite, Hextract, Hsearch. apply rows_refl.
Qed.

Lemma updateEach_rows articles :
  forall counts (s : Sys W),
    exists counts' s',
      updateEach orc cfg articles counts s = (Ok counts', s') /\
      Forall2 same_or_enhanced (db s) (db s').
Proof.
  induction articles as [|a rest IH]; intros counts s.
  - exists counts, s. split; [done|apply rows_refl].
  - destruct (updateStep_rows a counts s) as (c1 & s1 & Hstep & Hrows).
    destruct (IH c1 s1) as (c' & s' & Hrun & Hrows').
    exists c', s'. split; [|by eapply rows_trans].
    simpl. by rewrite (bind_ok _ _ _ _ _ Hstep).
Qed.

(** A run of the update script. *)
Lemma updateMain_rows (s : Sys W) :
  exists counts s',
    updateMain orc cfg s = (Ok counts, s') /\
    Forall2 same_or_enhanced (db s) (db s').
Proof.
  unfold updateMain, bind, readDb.
  destruct (length (prisma.findMany false None (db s)) =? 0)%nat.
  - eexists _, _. split; [done|apply rows_refl].
  - apply updateEach_rows.
Qed.

End ScriptRows.

(** C10.  A rewrite that returns carries non-empty text.
    - Whenever [rewriteArticle] returns, its [updatedContent] is not the empty
      string.
    - An empty generation makes it throw instead: on the primary backend when
      the answer has no content or an empty one; on the secondary backend when
      an attempt (after [n < 5] rate-limited ones) returns the empty string;
      and when neither backend is usable, so that no text is produced.
    - Consequently a run of the batch endpoint, of the single-article endpoint
      or of the update script leaves every row untouched or enhanced, that is,
      marked [isUpdated = true] with a non-empty [updatedContent]; the
      articles the endpoints report are enhanced. *)
Theorem rewrite_returns_text :
  forall (W Doc Sel : Type) (C : Cheerio Doc Sel) (orc : Oracles W Doc)
         (cfg : Config),
    (forall title content refs (e e' : Env W) r,
        rewriteArticle orc cfg title content refs e = (Ok r, e') ->
        updatedContent r ≠ [])
    /\ (forall title content refs (e : Env W) answer w',
        env_set (env_OPENAI_API_KEY cfg) && openai cfg = true ->
        openai_create orc systemMessage (buildPrompt title content refs) (world e)
        = (Ok answer, w') ->
        default [] answer = [] ->
        fst (rewriteArticle orc cfg title content refs e) = Throw emptyContent)
    /\ (forall title content refs (e : Env W) n w1 w2,
        routedToGemini cfg ->
        (n < 5)%nat ->
        rateLimited orc (buildPrompt title content refs) n (world e) w1 ->
        gemini_generateContent orc (buildPrompt title content refs) w1 = (Ok [], w2) ->
        fst (rewriteArticle orc cfg title content refs e) = Throw rateLimitsExhausted)
    /\ (forall title content refs (e : Env W),
        env_set (env_OPENAI_API_KEY cfg) && openai cfg = false ->
        env_set (env_GEMINI_API_KEY cfg) && genAI cfg = false ->
        exists error, rewriteArticle orc cfg title content refs e = (Throw error, e))
    /\ (forall s : Sys W,
        exists reply s',
          enhanceArticles orc cfg s = (Ok reply, s') /\
          Forall2 same_or_enhanced (db s) (db s') /\
          Forall enhanced (replyArticles (Ok reply)))
    /\ (forall id (s : Sys W),
        exists reply s',
          enhanceArticleById orc cfg id s = (Ok reply, s') /\
          Forall2 same_or_enhanced (db s) (db s') /\
          Forall enhanced (replyArticles (Ok reply)))
    /\ (forall s : Sys W,
        exists counts s',
          updateMain orc cfg s = (Ok counts, s') /\
          Forall2 same_or_enhanced (db s) (db s')).
Proof.
  intros W Doc Sel C orc cfg.
  split; [|split; [|split; [|split; [|split; [|split]]]]].
  - intros title content refs e e' r Hrun.
    by destruct (rewriteArticle_returns orc cfg _ _ _ _ _ _ Hrun).
  - intros title content refs e answer w' Hroute Hcall Hempty.
    unfold rewriteArticle. rewrite try_catch_rethrow.
    assert (env_set (env_OPENAI_API_KEY cfg) = true) as Hkey
      by (by apply andb_true_iff in Hroute as [? _]).
    rewrite Hroute, Hkey. simpl negb. cbv iota.
    unfold bind, emit, modify, ask. simpl. rewrite Hcall, Hempty. done.
  - intros title content refs e n w1 w2 Hroute Hn Hrl Hcall.
    rewrite rewriteArticle_gemini by done.
    replace maxAttempts with (n + S (4 - n))%nat by (unfold maxAttempts; lia).
    rewrite (generateLoop_cooldowns orc _ n _ _ e w1 Hrl).
    by rewrite (generateLoop_answer orc _ _ _ _ [] w2).
  - intros title content refs e Hopenai Hgemini.
    unfold rewriteArticle. rewrite try_catch_rethrow.
    rewrite Hopenai, Hgemini.
    destruct (negb _ && negb _); [by eexists|].
    unfold bind, ret, throw. simpl. by eexists.
  - apply enhanceArticles_rows.
  - apply enhanceArticleById_rows.
  - apply updateMain_rows.
Qed.

(** An answering backend, and the three ways of producing no text. *)
Lemma rewrite_returns_text_witness :
  updatedContent
    {| updatedContent := betterText; references := [] |} ≠ []
  /\ fst (rewriteArticle Scripted.oracles openaiOnly sampleTitle sampleContent []
            (chatEnv [Ok None])) = Throw emptyContent
  /\ fst (rewriteArticle Scripted.oracles Scripted.geminiOnly sampleTitle sampleContent []
            (freshEnv (rateLimits 1 [Ok []]))) = Throw rateLimitsExhausted
  /\ (exists error,
        rewriteArticle Scripted.oracles noBackend sampleTitle sampleContent []
          (freshEnv [])
        = (Throw error, freshEnv [])).
Proof.
  split; [|split; [|split]].
  - destruct (rewrite_returns_text _ _ _ Dom.cheerio Scripted.oracles Scripted.geminiOnly)
      as (Hreturns & _).
    apply (Hreturns sampleTitle sampleContent [] (freshEnv [Ok betterText])
             (mkEnv (Scripted.mkWorld [] None [] [] 0)
                [EvGenerate (buildPrompt sampleTitle sampleContent [])])).
    vm_compute. reflexivity.
  - destruct (rewrite_returns_text _ _ _ Dom.cheerio Scripted.oracles openaiOnly)
      as (_ & Hprimary & _).
    apply (Hprimary sampleTitle sampleContent [] (chatEnv [Ok None]) None
             (Scripted.mkWorld [] None [] [] 0)).
    + reflexivity.
    + reflexivity.
    + reflexivity.
  - destruct (rewrite_returns_text _ _ _ Dom.cheerio Scripted.oracles Scripted.geminiOnly)
      as (_ & _ & Hsecondary & _).
    apply (Hsecondary sampleTitle sampleContent [] (freshEnv (rateLimits 1 [Ok []]))
             1%nat (Scripted.mkWorld [] None [Ok []] [] 65000)
             (Scripted.mkWorld [] None [] [] 65000)).
    + split; reflexivity.
    + lia.
    + apply (rateLimited_script _ 1 [Ok []] [] None [] 0).
    + reflexivity.
  - destruct (rewrite_returns_text _ _ _ Dom.cheerio Scripted.oracles noBackend)
      as (_ & _ & _ & Hnone & _).
    apply (Hnone sampleTitle sampleContent [] (freshEnv [])); reflexivity.
Defined.

(** ** Creation paths and the uniqueness of [originalUrl] *)

Lemma find_none_url url (tbl : Table) :
  prisma.findUnique_originalUrl url tbl = None ->
  url ∉ Article.originalUrl <$> tbl.
Proof.
  unfold prisma.findUnique_originalUrl. intros Hfind Hin.
  apply list_elem_of_fmap in Hin as (a & -> & Hin).
  apply list_elem_of_In in Hin.
  pose proof (List.find_none _ _ Hfind a Hin) as Hno.
  unfold prisma.has_url in Hno. by rewrite bool_decide_eq_true_2 in Hno.
Qed.

(** Inserting a row whose URL the table does not hold keeps the URLs
    distinct. *)
Lemma create_unique_urls data (tbl : Table) :
  unique_urls tbl ->
  prisma.findUnique_originalUrl (c_originalUrl data) tbl = None ->
  unique_urls (snd (prisma.create data tbl)).
Proof.
  unfold unique_urls, prisma.create. simpl. intros Hnd Hfind.
  rewrite fmap_app. apply NoDup_app. split; [done|]. split.
  - intros url Hin Hnew. apply list_elem_of_singleton in Hnew. subst url.
    by apply (find_none_url _ _ Hfind).
  - apply NoDup_singleton.
Qed.

Lemma rowsWithUrl_app url (t1 t2 : Table) :
  rowsWithUrl url (t1 ++ t2) = (rowsWithUrl url t1 + rowsWithUrl url t2)%nat.
Proof. unfold rowsWithUrl. by rewrite List.filter_app, length_app. Qed.

Lemma filter_all_false {A} (p : A -> bool) (l : list A) :
  (forall x, x ∈ l -> p x = false) -> List.filter p l = [].
Proof.
  induction l as [|x l IH]; intros Hall; [done|]. simpl.
  rewrite (Hall x) by left. apply IH. intros y Hy. apply Hall. by right.
Qed.

Lemma rowsWithUrl_unique url (tbl : Table) :
  unique_urls tbl -> (rowsWithUrl url tbl <= 1)%nat.
Proof.
  unfold unique_urls, rowsWithUrl.
  induction tbl as [|a tbl IH]; intros Hnd; [simpl; lia|].
  rewrite fmap_cons in Hnd. apply NoDup_cons in Hnd as [Ha Hnd].
  simpl. unfold prisma.has_url at 1. case_bool_decide as Hurl; [|by apply IH; auto].
  simpl. assert (List.filter (prisma.has_url url) tbl = []) as ->; [|simpl; lia].
  apply filter_all_false. intros b Hb. apply bool_decide_eq_false_2.
  intros Hb'. apply Ha. rewrite Hurl, <- Hb'.
  by apply list_elem_of_fmap_2.
Qed.

Lemma rowsWithUrl_found url (tbl : Table) a :
  prisma.findUnique_originalUrl url tbl = Some a -> (1 <= rowsWithUrl url tbl)%nat.
Proof.
  unfold prisma.findUnique_originalUrl, rowsWithUrl.
  induction tbl as [|b tbl IH]; [done|]. simpl.
  destruct (prisma.has_url url b); simpl; [lia|]. apply IH.
Qed.

Section Creation.
Context {W Doc Sel : Type} `{Cheerio Doc Sel} (orc : Oracles W Doc) (cfg : Config).

Lemma createArticle_spec req (s : Sys W) :
  unique_urls (db s) ->
  exists reply s',
    createArticle orc req s = (Ok reply, s') /\
    unique_urls (db s') /\
    db s `prefix_of` db s' /\
    (validationOk req = true ->
     forall row,
       prisma.findUnique_originalUrl (b_originalUrl req) (db s) = Some row ->
       reply = ReplyNext duplicateUrl /\ db s' = db s).
Proof.
  intros Huniq. unfold createArticle, try_catch.
  destruct (validationOk req); cbn [negb]; cbv iota.
  2:{ eexists _, _. unfold throw. split; [done|]. split; [done|]. split; [done|].
      discriminate. }
  unfold bind at 1. unfold readDb at 1. cbv beta iota.
  destruct (prisma.findUnique_originalUrl (b_originalUrl req) (db s)) as [row|] eqn:Hfind.
  { eexists _, _. unfold throw. split; [done|]. split; [done|]. split; [done|].
    intros _ row' [= <-]. done. }
  unfold bind at 1.
  destruct (falsy_or (b_publishedDate req) None) as [d|].
  - unfold toDate, bind. destruct (parseDate orc d) as [z|]; unfold ret, throw, onDb; simpl.
    + eexists _, _. split; [done|]. simpl.
      split; [by apply (create_unique_urls (mkCreateData _ _ _ _ _))|].
      split; [by apply prefix_app_r|]. intros _ row. discriminate.
    + eexists _, _. split; [done|]. split; [done|]. split; [done|].
      intros _ row. discriminate.
  - unfold ret, bind, onDb. simpl.
    eexists _, _. split; [done|]. simpl.
    split; [by apply (create_unique_urls (mkCreateData _ _ _ _ _))|].
    split; [by apply prefix_app_r|]. intros _ row. discriminate.
Qed.

Lemma saveEach_skip article rest saved (s : Sys W) row :
  prisma.findUnique_originalUrl (sa_originalUrl article) (db s) = Some row ->
  saveEach (article :: rest) saved s = saveEach rest saved s.
Proof. intros Hfind. simpl. unfold bind, readDb. by rewrite Hfind. Qed.

Lemma saveEach_spec articles :
  forall saved (s : Sys W),
    unique_urls (db s) ->
    exists saved' s',
      saveEach articles saved s = (Ok saved', s') /\
      unique_urls (db s') /\
      db s `prefix_of` db s' /\
      env s' = env s /\
      (forall a, a ∈ articles -> rowsWithUrl (sa_originalUrl a) (db s') = 1%nat).
Proof.
  induction articles as [|a rest IH]; intros saved s Huniq.
  - exists saved, s. split; [done|]. split; [done|]. split; [done|]. split; [done|].
    intros a Ha. by apply elem_of_nil in Ha.
  - destruct (prisma.findUnique_originalUrl (sa_originalUrl a) (db s)) as [row|] eqn:Hfind.
    + rewrite (saveEach_skip _ _ _ _ _ Hfind).
      destruct (IH saved s Huniq) as (saved' & s' & Hrun & Huniq' & Hpre & Henv & Hone).
      exists saved', s'. split; [done|]. split; [done|]. split; [done|]. split; [done|].
      intros b Hb. apply elem_of_cons in Hb as [->|Hb]; [|by apply Hone].
      apply Nat.le_antisymm; [by apply rowsWithUrl_unique|].
      destruct Hpre as [more ->]. rewrite rowsWithUrl_app.
      pose proof (rowsWithUrl_found _ _ _ Hfind). lia.
    + simpl. unfold bind at 1. unfold readDb at 1. rewrite Hfind.
      unfold bind at 1. unfold onDb at 1. simpl.
      set (s1 := mkSys (env s) _).
      destruct (IH (saved ++ [prisma.newArticle (scrapedData a) (db s)]) s1)
        as (saved' & s' & Hrun & Huniq' & Hpre & Henv & Hone).
      { by apply (create_unique_urls (scrapedData a)). }
      exists saved', s'. split; [done|]. split; [done|].
      split; [etrans; [|exact Hpre]; by apply prefix_app_r|]. split; [done|].
      intros b Hb. apply elem_of_cons in Hb as [->|Hb]; [|by apply Hone].
      apply Nat.le_antisymm; [by apply rowsWithUrl_unique|].
      destruct Hpre as [more ->]. unfold s1. simpl. rewrite !rowsWithUrl_app.
      assert (rowsWithUrl (sa_originalUrl a) [prisma.newArticle (scrapedData a) (db s)] = 1%nat)
        as ->; [|lia].
      unfold rowsWithUrl. simpl. unfold prisma.has_url. simpl.
      by rewrite bool_decide_eq_true_2.
Qed.

Lemma scrapeArticles_spec (s : Sys W) :
  unique_urls (db s) ->
  exists reply s',
    scrapeArticles orc cfg s = (Ok reply, s') /\ unique_urls (db s') /\
    db s `prefix_of` db s'.
Proof.
  intros Huniq. unfold scrapeArticles, try_catch. unfold bind at 1.
  destruct (liftEnv (scrapeBeyondChatsArticles orc cfg) s) as [[articles|e] s0] eqn:Hscrape;
    apply liftEnv_db in Hscrape.
  2:{ eexists _, _. split; [done|]. by rewrite Hscrape. }
  destruct (length articles =? 0)%nat.
  { eexists _, _. split; [done|]. by rewrite Hscrape. }
  destruct (saveEach_spec articles [] s0) as (saved & s' & Hrun & Huniq' & Hpre & _);
    [by rewrite Hscrape|].
  unfold bind. rewrite Hrun. eexists _, _. split; [done|]. split; [done|].
  by rewrite <- Hscrape.
Qed.

End Creation.

Section ScriptCreation.
Context {W Doc Sel : Type} `{Cheerio Doc Sel} (orc : Oracles W Doc) (cfg : Config).

Lemma persistEach_spec articles :
  forall counts (s : Sys W),
    unique_urls (db s) ->
    exists counts' s',
      persistEach articles counts s = (Ok counts', s') /\
      unique_urls (db s') /\
      db s `prefix_of` db s'.
Proof.
  induction articles as [|a rest IH]; intros [saved skipped] s Huniq.
  - eexists _, s. split; [done|]. split; done.
  - simpl. unfold bind at 1, try_catch at 1, bind at 1, readDb at 1. cbv beta iota.
    destruct (prisma.findUnique_originalUrl (sa_originalUrl a) (db s)) as [row|] eqn:Hfind.
    + unfold ret at 1. cbv beta iota. by apply IH.
    + unfold bind at 1, onDb at 1. simpl.
      set (s1 := mkSys (env s) _).
      destruct (IH (saved + 1, skipped)%nat s1) as (c' & s' & Hrun & Huniq' & Hpre).
      { by apply (create_unique_urls (scrapedData a)). }
      exists c', s'. split; [done|]. split; [done|].
      etrans; [|exact Hpre]. by apply prefix_app_r.
Qed.

Lemma scrapeMain_spec (s : Sys W) :
  unique_urls (db s) ->
  forall r s', scrapeMain orc cfg s = (r, s') -> unique_urls (db s').
Proof.
  intros Huniq r s'. unfold scrapeMain. unfold bind at 1.
  destruct (liftEnv (scrapeBeyondChatsArticles orc cfg) s) as [[articles|e] s0] eqn:Hscrape;
    apply liftEnv_db in Hscrape.
  2:{ intros [= _ <-]. by rewrite Hscrape. }
  destruct (length articles =? 0)%nat.
  { intros [= _ <-]. by rewrite Hscrape. }
  destruct (persistEach_spec articles (0, 0)%nat s0) as (c' & s1 & Hrun & Huniq' & _);
    [by rewrite Hscrape|].
  rewrite Hrun. by intros [= _ <-].
Qed.

End ScriptCreation.

(** C9.  Every creation path keeps [originalUrl] unique.  On a table whose
    source URLs are pairwise distinct:
    - the create endpoint answers, leaves the URLs distinct and the existing
      rows in place, and for a valid request whose [originalUrl] is already
      stored it hands the duplicate error (status 409) to the error middleware
      and creates nothing;
    - scrape-persist skips, without an error, a scraped article whose
      [originalUrl] is stored, and after it the URLs are distinct and every
      scraped URL is stored exactly once;
    - the scrape endpoint and the scrape script leave the URLs distinct. *)
Theorem originalUrl_stays_unique :
  forall (W Doc Sel : Type) (C : Cheerio Doc Sel) (orc : Oracles W Doc)
         (cfg : Config),
    (forall req (s : Sys W),
        unique_urls (db s) ->
        exists reply s',
          createArticle orc req s = (Ok reply, s') /\
          unique_urls (db s') /\
          db s `prefix_of` db s' /\
          (validationOk req = true ->
           forall row,
             prisma.findUnique_originalUrl (b_originalUrl req) (db s) = Some row ->
             reply = ReplyNext (AppError (js "Article with this URL already exists") 409)
             /\ db s' = db s))
    /\ (forall article rest saved (s : Sys W) row,
        prisma.findUnique_originalUrl (sa_originalUrl article) (db s) = Some row ->
        saveEach (article :: rest) saved s = saveEach rest saved s)
    /\ (forall articles saved (s : Sys W),
        unique_urls (db s) ->
        exists saved' s',
          saveEach articles saved s = (Ok saved', s') /\
          unique_urls (db s') /\
          db s `prefix_of` db s' /\
          (forall a, a ∈ articles -> rowsWithUrl (sa_originalUrl a) (db s') = 1%nat))
    /\ (forall s : Sys W,
        unique_urls (db s) ->
        exists reply s',
          scrapeArticles orc cfg s = (Ok reply, s') /\ unique_urls (db s'))
    /\ (forall (s s' : Sys W) r,
        unique_urls (db s) ->
        scrapeMain orc cfg s = (r, s') -> unique_urls (db s')).
Proof.
  intros W Doc Sel C orc cfg. split; [|split; [|split; [|split]]].
  - intros req s Huniq. apply (createArticle_spec orc req s Huniq).
  - intros article rest saved s row. apply saveEach_skip.
  - intros articles saved s Huniq.
    destruct (saveEach_spec articles saved s Huniq)
      as (saved' & s' & Hrun & Huniq' & Hpre & _ & Hone).
    by exists saved', s'.
  - intros s Huniq.
    destruct (scrapeArticles_spec orc cfg s Huniq) as (reply & s' & Hrun & Huniq' & _).
    by exists reply, s'.
  - intros s s' r Huniq. by apply scrapeMain_spec.
Qed.

(** Scraping the blog twice stores its post once. *)
Example scrape_twice_stores_once :
  let orc := Scripted.oracles in
  let cfg := Scripted.geminiOnly in
  let first := scrapeArticles orc cfg (blogServer []) in
  let second := scrapeArticles orc cfg (blogServer (db (snd first))) in
  replyMessage (fst first) = Some (MsgScrapingCompleted 1)
  /\ replyMessage (fst second) = Some (MsgScrapingCompleted 0)
  /\ Article.originalUrl <$> db (snd second) = [postUrl].
Proof. vm_compute. repeat split. Qed.

(** A stored article, created and scraped again. *)
Lemma originalUrl_stays_unique_witness :
  let orc := Scripted.oracles in
  let cfg := Scripted.geminiOnly in
  let s := server [draft "a1"] [] in
  (exists reply s',
     createArticle orc (createRequest "a1") s = (Ok reply, s') /\
     unique_urls (db s') /\ db s `prefix_of` db s' /\
     (true = true ->
      forall row,
        prisma.findUnique_originalUrl (b_originalUrl (createRequest "a1")) (db s) = Some row ->
        reply = ReplyNext (AppError (js "Article with this URL already exists") 409)
        /\ db s' = db s))
  /\ saveEach [scraped "a1"; scraped "a2"] [] s = saveEach [scraped "a2"] [] s
  /\ (exists saved' s',
        saveEach [scraped "a1"; scraped "a2"; scraped "a2"] [] s = (Ok saved', s') /\
        unique_urls (db s') /\ db s `prefix_of` db s' /\
        (forall a, a ∈ [scraped "a1"; scraped "a2"; scraped "a2"] ->
           rowsWithUrl (sa_originalUrl a) (db s') = 1%nat))
  /\ (exists reply s',
        scrapeArticles orc cfg (blogServer [draft "a1"]) = (Ok reply, s') /\
        unique_urls (db s'))
  /\ unique_urls (db (snd (scrapeMain orc cfg (blogServer [draft "a1"])))).
Proof.
  intros orc cfg s.
  destruct (originalUrl_stays_unique _ _ _ Dom.cheerio orc cfg)
    as (Hcreate & Hskip & Hsave & Hscrape & Hscript).
  assert (Huniq : forall w : Env Scripted.World, unique_urls (db (mkSys w [draft "a1"]))).
  { intros w. apply (bool_decide_unpack _). vm_compute. reflexivity. }
  split; [|split; [|split; [|split]]].
  - apply (Hcreate (createRequest "a1") s). apply Huniq.
  - apply (Hskip (scraped "a1") [scraped "a2"] [] s (draft "a1")).
    vm_compute. reflexivity.
  - apply (Hsave [scraped "a1"; scraped "a2"; scraped "a2"] [] s). apply Huniq.
  - apply (Hscrape (blogServer [draft "a1"])). apply Huniq.
  - apply (Hscript (blogServer [draft "a1"]) _
             (fst (scrapeMain orc cfg (blogServer [draft "a1"])))).
    + apply Huniq.
    + apply surjective_pairing.
Defined.

(** ** Degraded mode *)

(** C3, as amended.  When the title search of an article returns zero
    results:
    - in the enhancement endpoints the sequence goes on in degraded mode: no
      extraction is run, the rewrite step is invoked with zero reference
      documents and, when it returns and the row of the article exists, the row
      is stored with [isUpdated = true] and [references] equal to the empty
      list;
    - in the update script the article is counted as a failure, and neither
      the rewriter nor the store is called. *)
Theorem degraded_mode_without_results :
  forall (W Doc Sel : Type) (C : Cheerio Doc Sel) (orc : Oracles W Doc)
         (cfg : Config) (article : Article.t) (s s0 : Sys W),
    liftEnv (searchGoogle orc (Article.title article) 2) s = (Ok [], s0) ->
    findReferences orc (Article.title article) s = (Ok [], s0)
    /\ enhanceOne orc cfg article s
       = (r <- liftEnv (rewriteArticle orc cfg (Article.title article)
                          (Article.content article) []) ;;
          onDb (prisma.update (Article.id article) (enhancement r))) s0
    /\ (forall r s1 row,
          liftEnv (rewriteArticle orc cfg (Article.title article)
                     (Article.content article) []) s0 = (Ok r, s1) ->
          prisma.findUnique_id (Article.id article) (db s) = Some row ->
          references r = [] /\
          exists stored,
            enhanceOne orc cfg article s
            = (Ok stored,
               mkSys (env s1)
                 (prisma.updateRow (Article.id article) (enhancement r) <$> db s))
            /\ Article.isUpdated stored = true
            /\ Article.references stored = []
            /\ Article.updatedContent stored = Some (updatedContent r))
    /\ (forall successes failures,
          updateStep orc cfg article (successes, failures) s
          = (Ok (successes, failures + 1)%nat, s0)).
Proof.
  intros W Doc Sel C orc cfg article s s0 Hsearch.
  assert (Hrefs : findReferences orc (Article.title article) s = (Ok [], s0)).
  { unfold findReferences. by rewrite (bind_ok _ _ _ _ _ Hsearch). }
  split; [done|]. split; [|split].
  - unfold enhanceOne. by rewrite (bind_ok _ _ _ _ _ Hrefs).
  - intros r s1 row Hrewrite Hfind.
    assert (Hr : references r = []).
    { unfold liftEnv in Hrewrite.
      destruct (rewriteArticle orc cfg _ _ [] (env s0)) as [r0 e'] eqn:Hrw.
      injection Hrewrite as -> _.
      by destruct (rewriteArticle_returns orc cfg _ _ _ _ _ _ Hrw) as [_ ->]. }
    split; [done|]. exists (prisma.applyUpdate (enhancement r) row).
    split; [|by rewrite <- Hr].
    unfold enhanceOne. rewrite (bind_ok _ _ _ _ _ Hrefs), (bind_ok _ _ _ _ _ Hrewrite).
    unfold onDb, prisma.update.
    apply liftEnv_db in Hrewrite. apply liftEnv_db in Hsearch.
    rewrite Hrewrite, Hsearch, Hfind. done.
  - intros successes failures. unfold updateStep, try_catch.
    by rewrite (bind_ok _ _ _ _ _ Hsearch).
Qed.

(** A draft whose search finds nothing, with a backend that answers. *)
Lemma degraded_mode_without_results_witness :
  let orc := Scripted.oracles in
  let cfg := Scripted.geminiOnly in
  let a1 := draft "a1" in
  let s := server [a1] [Ok betterText] in
  let s0 := snd (liftEnv (searchGoogle orc (Article.title a1) 2) s) in
  let r := {| updatedContent := betterText; references := [] |} in
  let s1 := snd (liftEnv (rewriteArticle orc cfg (Article.title a1)
                            (Article.content a1) []) s0) in
  findReferences orc (Article.title a1) s = (Ok [], s0)
  /\ (references r = [] /\
      exists stored,
        enhanceOne orc cfg a1 s
        = (Ok stored,
           mkSys (env s1) (prisma.updateRow (Article.id a1) (enhancement r) <$> db s))
        /\ Article.isUpdated stored = true
        /\ Article.references stored = []
        /\ Article.updatedContent stored = Some (updatedContent r))
  /\ updateStep orc cfg a1 (0, 0)%nat s = (Ok (0, 1)%nat, s0).
Proof.
  intros orc cfg a1 s s0 r s1.
  destruct (degraded_mode_without_results _ _ _ Dom.cheerio orc cfg a1 s s0)
    as (Hrefs & _ & Hstored & Hscript).
  { vm_compute. reflexivity. }
  split; [exact Hrefs|]. split; [|apply (Hscript 0%nat 0%nat)].
  apply (Hstored r s1 a1).
  - vm_compute. reflexivity.
  - vm_compute. reflexivity.
Defined.

(** C3, as stated, fails.  With a search that finds nothing and a backend
    that would answer, the update script counts the article as a failure:
    the backend is never called and the row stays as it was.  And in the
    batch endpoint the rewrite need not succeed: when the backend refuses,
    nothing is stored for the article. *)
Lemma degraded_mode_counterexample :
  let orc := Scripted.oracles in
  let cfg := Scripted.geminiOnly in
  let a1 := draft "a1" in
  let script := updateMain orc cfg (server [a1] [Ok betterText]) in
  let batch := enhanceArticles orc cfg (server [a1] [Throw Scripted.badRequest]) in
  fst (searchGoogle orc (Article.title a1) 2 (freshEnv [Ok betterText])) = Ok []
  /\ fst script = Ok (0, 1)%nat
  /\ count_events is_generate (trace (env (snd script))) = 0%nat
  /\ db (snd script) = [a1]
  /\ replyMessage (fst batch) = Some (MsgEnhancementCompleted 0 1)
  /\ db (snd batch) = [a1].
Proof. vm_compute. repeat split. Qed.

(** ** The flag [isUpdated] *)

Lemma same_or_enhanced_step before after :
  same_or_enhanced before after -> pipeline_step before after.
Proof.
  intros [->|[Hid [Hflag (text & Htext & _)]]].
  - split; [done|]. split; [done|]. by intros [].
  - split; [done|]. split; [done|]. intros _. split; [done|]. by exists text.
Qed.

Lemma rows_pipeline (t1 t2 : Table) :
  Forall2 same_or_enhanced t1 t2 -> Forall2 pipeline_step t1 t2.
Proof. intros Hrows. eapply Forall2_impl; [exact Hrows|]. apply same_or_enhanced_step. Qed.

Section Crud.
Context {W Doc Sel : Type} `{Cheerio Doc Sel} (orc : Oracles W Doc) (cfg : Config).

Lemma createArticle_prefix req (s s' : Sys W) r :
  createArticle orc req s = (r, s') -> db s `prefix_of` db s'.
Proof.
  unfold createArticle, try_catch.
  destruct (validationOk req); cbn [negb]; cbv iota.
  2:{ unfold throw, ret. by intros [= _ <-]. }
  unfold bind at 1. unfold readDb at 1. cbv beta iota.
  destruct (prisma.findUnique_originalUrl (b_originalUrl req) (db s)) as [row|].
  { unfold throw, ret. by intros [= _ <-]. }
  unfold bind at 1.
  destruct (falsy_or (b_publishedDate req) None) as [d|].
  - unfold toDate, bind. destruct (parseDate orc d) as [z|]; unfold ret, throw, onDb; simpl.
    + intros [= _ <-]. by apply prefix_app_r.
    + by intros [= _ <-].
  - unfold ret, bind, onDb. simpl. intros [= _ <-]. by apply prefix_app_r.
Qed.

Lemma saveEach_prefix articles :
  forall saved (s s' : Sys W) r,
    saveEach articles saved s = (r, s') -> db s `prefix_of` db s'.
Proof.
  induction articles as [|a rest IH]; intros saved s s' r.
  - simpl. unfold ret. by intros [= _ <-].
  - simpl. unfold bind at 1. unfold readDb at 1. cbv beta iota.
    destruct (prisma.findUnique_originalUrl (sa_originalUrl a) (db s)) as [row|].
    + apply IH.
    + unfold bind at 1. unfold onDb at 1. simpl. intros Hrun.
      apply IH in Hrun. simpl in Hrun. etrans; [|exact Hrun]. by apply prefix_app_r.
Qed.

Lemma scrapeArticles_prefix (s s' : Sys W) r :
  scrapeArticles orc cfg s = (r, s') -> db s `prefix_of` db s'.
Proof.
  unfold scrapeArticles, try_catch. unfold bind at 1.
  destruct (liftEnv (scrapeBeyondChatsArticles orc cfg) s) as [[articles|e] s0] eqn:Hscrape;
    apply liftEnv_db in Hscrape.
  2:{ unfold ret. intros [= _ <-]. by rewrite Hscrape. }
  destruct (length articles =? 0)%nat.
  { unfold ret. intros [= _ <-]. by rewrite Hscrape. }
  unfold bind.
  destruct (saveEach articles [] s0) as [[saved|e] s1] eqn:Hsave;
    apply saveEach_prefix in Hsave; unfold ret; intros [= _ <-]; by rewrite <- Hscrape.
Qed.

Lemma deleteArticle_sublist id (s s' : Sys W) r :
  deleteArticle id s = (r, s') -> db s' `sublist_of` db s.
Proof.
  unfold deleteArticle, try_catch, bind, readDb.
  destruct (prisma.findUnique_id id (db s)); unfold onDb, throw, ret; simpl.
  - intros [= _ <-]. simpl. apply filter_sublist.
  - by intros [= _ <-].
Qed.

Lemma rows_update_refl id req (tbl : Table) :
  Forall2 (update_step id req) tbl tbl.
Proof. induction tbl; constructor; [by left|done]. Qed.

Lemma updateArticle_rows id req (s : Sys W) :
  exists reply s',
    updateArticle orc id req s = (Ok reply, s') /\
    Forall2 (update_step id req) (db s) (db s').
Proof.
  unfold updateArticle, try_catch. unfold bind at 1. unfold readDb at 1. cbv beta iota.
  destruct (prisma.findUnique_id id (db s)) as [row|] eqn:Hfind.
  2:{ eexists _, _. split; [done|]. apply rows_update_refl. }
  unfold bind at 1.
  assert (Hupdate : forall date,
    exists reply s',
      (let (r, s') :=
         (updated <- onDb (prisma.update id
            {| u_title := falsy_or (p_title req) None;
               u_content := falsy_or (p_content req) None;
               u_author := falsy_or (p_author req) None;
               u_publishedDate := date;
               u_isUpdated := p_isUpdated req;
               u_updatedContent := falsy_or (p_updatedContent req) None;
               u_references := p_references req |}) ;;
          ret (ReplyArticle 200 MsgNone updated)) s in
       match r with
       | Ok a => (Ok a, s')
       | Throw e => ret (ReplyNext e) s'
       end) = (Ok reply, s') /\
      Forall2 (update_step id req) (db s) (db s')).
  { intros date. unfold bind, onDb, prisma.update. rewrite Hfind. unfold ret.
    eexists _, _. split; [done|]. simpl.
    clear Hfind. induction (db s) as [|a tbl IH]; [constructor|].
    rewrite fmap_cons. constructor; [|done].
    unfold prisma.updateRow, prisma.has_id. case_bool_decide; [right|by left].
    split; done. }
  destruct (falsy_or (p_publishedDate req) None) as [d|].
  - unfold toDate. destruct (parseDate orc d) as [z|].
    + unfold bind at 1, ret at 1. cbv beta iota. apply Hupdate.
    + unfold bind at 1, throw at 1. cbv beta iota.
      eexists _, _. split; [done|]. apply rows_update_refl.
  - unfold ret at 1. cbv beta iota. apply Hupdate.
Qed.

End Crud.

Section ScriptCrud.
Context {W Doc Sel : Type} `{Cheerio Doc Sel} (orc : Oracles W Doc) (cfg : Config).

Lemma persistEach_prefix articles :
  forall counts (s s' : Sys W) r,
    persistEach articles counts s = (r, s') -> db s `prefix_of` db s'.
Proof.
  induction articles as [|a rest IH]; intros [saved skipped] s s' r.
  - simpl. unfold ret. by intros [= _ <-].
  - simpl. unfold bind at 1, try_catch at 1, bind at 1, readDb at 1. cbv beta iota.
    destruct (prisma.findUnique_originalUrl (sa_originalUrl a) (db s)) as [row|].
    + unfold ret at 1. cbv beta iota. apply IH.
    + unfold bind at 1, onDb at 1. simpl. intros Hrun.
      apply IH in Hrun. simpl in Hrun. etrans; [|exact Hrun]. by apply prefix_app_r.
Qed.

Lemma scrapeMain_prefix (s s' : Sys W) r :
  scrapeMain orc cfg s = (r, s') -> db s `prefix_of` db s'.
Proof.
  unfold scrapeMain. unfold bind at 1.
  destruct (liftEnv (scrapeBeyondChatsArticles orc cfg) s) as [[articles|e] s0] eqn:Hscrape;
    apply liftEnv_db in Hscrape.
  2:{ intros [= _ <-]. by rewrite Hscrape. }
  destruct (length articles =? 0)%nat.
  { unfold ret. intros [= _ <-]. by rewrite Hscrape. }
  intros Hrun. apply persistEach_prefix in Hrun. by rewrite <- Hscrape.
Qed.

End ScriptCrud.

(** C8, as amended.  The enhancement pipeline never resets [isUpdated], and
    writes the flag together with the content: after a run of the batch
    endpoint, of the single-article endpoint or of the update script, every
    row keeps its identifier, a row that had [isUpdated = true] still has it,
    and a row the run changed has [isUpdated = true] with [updatedContent]
    set.  Creating and scraping only add rows, deleting only removes rows.
    The update endpoint is the one operation that can reset the flag: it
    stores, for the row of the requested [id], the [isUpdated] value the
    request supplies, and leaves the other rows as they are. *)
Theorem isUpdated_reset_only_by_update :
  forall (W Doc Sel : Type) (C : Cheerio Doc Sel) (orc : Oracles W Doc)
         (cfg : Config),
    (forall s : Sys W,
        exists reply s',
          enhanceArticles orc cfg s = (Ok reply, s') /\
          Forall2 pipeline_step (db s) (db s'))
    /\ (forall id (s : Sys W),
        exists reply s',
          enhanceArticleById orc cfg id s = (Ok reply, s') /\
          Forall2 pipeline_step (db s) (db s'))
    /\ (forall s : Sys W,
        exists counts s',
          updateMain orc cfg s = (Ok counts, s') /\
          Forall2 pipeline_step (db s) (db s'))
    /\ (forall req (s : Sys W),
          db s `prefix_of` db (snd (createArticle orc req s)))
    /\ (forall s : Sys W,
          db s `prefix_of` db (snd (scrapeArticles orc cfg s)) /\
          db s `prefix_of` db (snd (scrapeMain orc cfg s)))
    /\ (forall id (s : Sys W),
          db (snd (deleteArticle id s)) `sublist_of` db s)
    /\ (forall id req (s : Sys W),
        exists reply s',
          updateArticle orc id req s = (Ok reply, s') /\
          Forall2 (update_step id req) (db s) (db s')).
Proof.
  intros W Doc Sel C orc cfg.
  split; [|split; [|split; [|split; [|split; [|split]]]]].
  - intros s. destruct (enhanceArticles_rows orc cfg s) as (reply & s' & Hrun & Hrows & _).
    exists reply, s'. split; [done|by apply rows_pipeline].
  - intros id s.
    destruct (enhanceArticleById_rows orc cfg id s) as (reply & s' & Hrun & Hrows & _).
    exists reply, s'. split; [done|by apply rows_pipeline].
  - intros s. destruct (updateMain_rows orc cfg s) as (counts & s' & Hrun & Hrows).
    exists counts, s'. split; [done|by apply rows_pipeline].
  - intros req s. eapply createArticle_prefix. apply surjective_pairing.
  - intros s. split.
    + eapply scrapeArticles_prefix. apply surjective_pairing.
    + eapply scrapeMain_prefix. apply surjective_pairing.
  - intros id s. eapply deleteArticle_sublist. apply surjective_pairing.
  - intros id req s. apply updateArticle_rows.
Qed.

(** C8, as stated, fails: the update endpoint, asked to set
    [isUpdated = false] on an enhanced article, answers 200 and stores the
    flag [false]. *)
Lemma isUpdated_reset_counterexample :
  let run := updateArticle Scripted.oracles (js "a1") (setFlag false)
               (server [published "a1"] []) in
  Article.isUpdated (published "a1") = true
  /\ (exists article, fst run = Ok (ReplyArticle 200 MsgNone article)
                      /\ Article.isUpdated article = false)
  /\ Article.isUpdated <$> db (snd run) = [false].
Proof. vm_compute. split; [done|]. split; [|done]. eexists. split; reflexivity. Qed.

(** ** The search provider *)

Lemma or_else_nil (s : jsstring) : or_else s [] = s.
Proof. by destruct s. Qed.

Lemma scanElement_kept results element :
  scanElement results element = results ++ option_list (keptResult element).
Proof.
  unfold scanElement, keptResult.
  destruct (linkElement element) as [url|]; [|by rewrite app_nil_r].
  destruct (titleElement element) as [heading|]; [|by rewrite app_nil_r].
  destruct (startsWith (js "http") url); [|by rewrite app_nil_r].
  destruct (isExcluded url); simpl; [by rewrite app_nil_r|].
  by rewrite !or_else_nil.
Qed.

Lemma scanResults_from results elements :
  fold_left scanElement elements results = results ++ omap keptResult elements.
Proof.
  revert results. induction elements as [|el elements IH]; intros results; simpl.
  - by rewrite app_nil_r.
  - rewrite IH, scanElement_kept, <- app_assoc. f_equal.
    by destruct (keptResult el).
Qed.

(** The scan keeps, in document order, the results of the kept elements. *)
Lemma scanResults_kept elements :
  scanResults elements = omap keptResult elements.
Proof. unfold scanResults. by rewrite scanResults_from. Qed.

Lemma slice_to_take {A} (n : Z) (l : list A) :
  0 <= n -> slice_to n l = take (Z.to_nat n) l.
Proof. intros Hn. unfold slice_to. by rewrite (proj2 (Z.ltb_ge n 0) Hn). Qed.

Section Search.
Context {W Doc : Type} (orc : Oracles W Doc).

(** [searchGoogle] once the browser, the page and the search URL are
    there. *)
Lemma searchGoogle_opened query numResults (e : Env W) w1 w2 encoded :
  puppeteer_launch orc (world e) = (Ok tt, w1) ->
  browser_newPage orc w1 = (Ok tt, w2) ->
  encodeURIComponent orc query = Ok encoded ->
  fst (searchGoogle orc query numResults e)
  = match page_goto orc (searchUrlOf encoded) resultsContainer w2 with
    | (Throw _, _) => Ok []
    | (Ok _, w3) =>
        match page_resultElements orc w3 with
        | (Ok elements, _) => Ok (slice_to numResults (scanResults elements))
        | (Throw error, _) => Throw error
        end
    end.
Proof.
  intros Hlaunch Hpage Hencode.
  unfold searchGoogle, with_browser, searchUrlOf.
  cbv beta iota zeta delta
    [ask try_finally try_catch bind emit modify ret throw closeBrowser].
  rewrite Hlaunch. cbn [world trace]. rewrite Hpage. cbn [world trace].
  rewrite Hencode. cbn [world trace].
  destruct (page_goto orc _ resultsContainer w2) as [[[]|error] w3];
    cbn [world trace negb fst]; [|done].
  by destruct (page_resultElements orc w3) as [[elements|error] w4].
Qed.

End Search.

(** C6.  For every query, once the browser session is open:
    - when the results container does not appear within its timeout (the
      navigation or the wait throws), the search returns the empty list and
      does not fail;
    - when the results are present, it returns, for a non-negative
      [numResults], the first [numResults] results of the kept elements, in
      document order, so at most [numResults] of them;
    - an element is kept only if it has an anchor link and a heading and its
      URL starts with [http] and contains none of the excluded domains; every
      returned result comes from such an element. *)
Theorem search_returns_filtered_prefix :
  forall (W Doc : Type) (orc : Oracles W Doc) (query : jsstring)
         (numResults : Z) (e : Env W) w1 w2 encoded,
    puppeteer_launch orc (world e) = (Ok tt, w1) ->
    browser_newPage orc w1 = (Ok tt, w2) ->
    encodeURIComponent orc query = Ok encoded ->
    (forall error w3,
        page_goto orc (searchUrlOf encoded) resultsContainer w2 = (Throw error, w3) ->
        fst (searchGoogle orc query numResults e) = Ok [])
    /\ (forall w3 elements w4,
        page_goto orc (searchUrlOf encoded) resultsContainer w2 = (Ok tt, w3) ->
        page_resultElements orc w3 = (Ok elements, w4) ->
        0 <= numResults ->
        exists results,
          fst (searchGoogle orc query numResults e) = Ok results
          /\ results = take (Z.to_nat numResults) (omap keptResult elements)
          /\ results `prefix_of` omap keptResult elements
          /\ Z.of_nat (length results) <= numResults
          /\ (forall r, r ∈ results ->
                exists element heading,
                  element ∈ elements /\
                  linkElement element = Some (sr_url r) /\
                  titleElement element = Some heading /\
                  startsWith (js "http") (sr_url r) = true /\
                  isExcluded (sr_url r) = false)).
Proof.
  intros W Doc orc query numResults e w1 w2 encoded Hlaunch Hpage Hencode.
  pose proof (searchGoogle_opened orc query numResults e w1 w2 encoded
                Hlaunch Hpage Hencode) as Hrun.
  split.
  - intros error w3 Hgoto. by rewrite Hrun, Hgoto.
  - intros w3 elements w4 Hgoto Hscan Hn.
    exists (take (Z.to_nat numResults) (omap keptResult elements)).
    split; [|split; [done|split; [apply prefix_take|split]]].
    + rewrite Hrun, Hgoto, Hscan. by rewrite slice_to_take, scanResults_kept.
    + rewrite length_take. lia.
    + intros r Hr. apply elem_of_take in Hr as (i & Hi & _).
      apply list_elem_of_lookup_2 in Hi.
      apply list_elem_of_omap in Hi as (element & Hin & Hkept).
      unfold keptResult in Hkept.
      destruct (linkElement element) as [url|] eqn:Hlink; [|done].
      destruct (titleElement element) as [heading|] eqn:Htitle; [|done].
      destruct (startsWith (js "http") url) eqn:Hhttp; [|done].
      destruct (isExcluded url) eqn:Hex; [done|].
      injection Hkept as <-. simpl. by exists element, heading.
Qed.

Example search_chatbots :
  fst (searchGoogle Scripted.oracles (js "chatbots") 2 (searchEnv searchSite))
  = Ok [ {| sr_title := js "One"; sr_url := js "https://example.org/one"; sr_snippet := [] |};
         {| sr_title := js "Two"; sr_url := js "http://example.org/two"; sr_snippet := [] |} ].
Proof. vm_compute. reflexivity. Qed.

(** The query [chatbots], once with no result page and once with seven
    result elements. *)
Lemma search_returns_filtered_prefix_witness :
  fst (searchGoogle Scripted.oracles (js "chatbots") 2 (searchEnv [])) = Ok []
  /\ exists results,
       fst (searchGoogle Scripted.oracles (js "chatbots") 2 (searchEnv searchSite))
       = Ok results
       /\ results = take (Z.to_nat 2) (omap keptResult chatbotResults)
       /\ results `prefix_of` omap keptResult chatbotResults
       /\ Z.of_nat (length results) <= 2
       /\ (forall r, r ∈ results ->
             exists element heading,
               element ∈ chatbotResults /\
               linkElement element = Some (sr_url r) /\
               titleElement element = Some heading /\
               startsWith (js "http") (sr_url r) = true /\
               isExcluded (sr_url r) = false).
Proof.
  split.
  - destruct (search_returns_filtered_prefix _ _ Scripted.oracles (js "chatbots") 2
                (searchEnv []) (Scripted.start [] []) (Scripted.start [] [])
                (js "chatbots")) as [Htimeout _]; [reflexivity..|].
    apply (Htimeout Scripted.timeout (Scripted.start [] [])). reflexivity.
  - destruct (search_returns_filtered_prefix _ _ Scripted.oracles (js "chatbots") 2
                (searchEnv searchSite) (Scripted.start searchSite [])
                (Scripted.start searchSite []) (js "chatbots"))
      as [_ Hresults]; [reflexivity..|].
    apply (Hresults
             (Scripted.mkWorld searchSite (Some (Scripted.Results chatbotResults)) [] [] 0)
             chatbotResults
             (Scripted.mkWorld searchSite (Some (Scripted.Results chatbotResults)) [] [] 0)).
    + vm_compute. reflexivity.
    + reflexivity.
    + lia.
Defined.

(** ** The content extractor *)

Section BodySelection.
Context {Doc Sel : Type} `{Cheerio Doc Sel}.

Lemma last_default_irrelevant {A} (x : A) (l : list A) (d d' : A) :
  List.last (x :: l) d = List.last (x :: l) d'.
Proof.
  revert x. induction l as [|y l IH]; intros x; [done|].
  change (List.last (y :: l) d = List.last (y :: l) d'). apply IH.
Qed.

Lemma selectorLoop_step (doc : Doc) selector rest content :
  selectorLoop doc (selector :: rest) content
  = match containerOutput doc selector with
    | Some output =>
        if exceeds200 output then output else selectorLoop doc rest output
    | None => selectorLoop doc rest content
    end.
Proof.
  simpl. unfold containerOutput, exceeds200.
  by destruct (0 <? sel_length (query doc selector))%nat.
Qed.

Lemma selectorLoop_outputs (doc : Doc) selectors :
  forall content,
    selectorLoop doc selectors content
    = match List.find exceeds200 (containerOutputs doc selectors) with
      | Some output => output
      | None => List.last (containerOutputs doc selectors) content
      end.
Proof.
  induction selectors as [|selector rest IH]; intros content; [done|].
  rewrite selectorLoop_step. unfold containerOutputs in *.
  change (omap (containerOutput doc) (selector :: rest))
    with (match containerOutput doc selector with
          | Some output => output :: omap (containerOutput doc) rest
          | None => omap (containerOutput doc) rest
          end).
  destruct (containerOutput doc selector) as [output|]; [|apply IH].
  simpl. destruct (exceeds200 output); [done|].
  rewrite IH.
  destruct (List.find exceeds200 (omap (containerOutput doc) rest)); [done|].
  destruct (omap (containerOutput doc) rest) as [|o outputs]; [done|].
  apply last_default_irrelevant.
Qed.

Lemma find_none_short (outputs : list jsstring) :
  List.find exceeds200 outputs = None ->
  (length (List.last outputs []) <= 200)%nat.
Proof.
  induction outputs as [|o outputs IH]; simpl; [lia|].
  destruct (exceeds200 o) eqn:Ho; [done|]. intros Hfind.
  destruct outputs as [|o' outputs]; [|by apply IH].
  unfold exceeds200 in Ho. apply Nat.ltb_ge in Ho. done.
Qed.

Lemma extractBody_amended (doc : Doc) : extractBody doc = amendedBody doc.
Proof.
  unfold extractBody, amendedBody. rewrite selectorLoop_outputs.
  destruct (List.find exceeds200 (containerOutputs doc contentSelectors))
    as [output|] eqn:Hfind.
  - apply List.find_some in Hfind as [_ Hlong]. unfold exceeds200 in Hlong.
    apply Nat.ltb_lt in Hlong.
    assert (truthy output = true) as -> by (destruct output; [simpl in Hlong; lia|done]).
    by rewrite (proj2 (Nat.ltb_ge _ _)) by lia.
  - destruct (List.last (containerOutputs doc contentSelectors) []) as [|c rest]; [done|].
    done.
Qed.

End BodySelection.

(** C4, as amended.  The body-text selection visits the container selectors
    in their fixed priority order; for a matching container it strips the
    unwanted descendants, collects the trimmed texts longer than 20 characters
    of the paragraph, heading and list-item descendants and joins them with a
    blank line; it stops at the first container whose output exceeds 200
    characters.  When no output exceeds 200 characters, it falls back to the
    texts longer than 50 characters of all the paragraphs of the document if
    the output of the last matching container is shorter than 200 characters
    or no container matches, and keeps that output if it has exactly 200
    characters.  Away from this boundary the selection is the one of the
    original wording. *)
Theorem body_selection_layers :
  forall (Doc Sel : Type) (C : Cheerio Doc Sel) (doc : Doc),
    extractBody doc = amendedBody doc
    /\ (length (List.last (containerOutputs doc contentSelectors) []) ≠ 200%nat ->
        extractBody doc = specBody doc)
    /\ (forall element : Sel,
          containerContent element
          = join [10%N; 10%N]
              (List.filter (fun text => (20 <? length text)%nat)
                 ((fun el => trim (sel_text el))
                    <$> sel_each (sel_find (clone_without element unwantedElements)
                                    textElements))))
    /\ allParagraphs doc
       = join [10%N; 10%N]
           (List.filter (fun text => (50 <? length text)%nat)
              ((fun el => trim (sel_text el))
                 <$> sel_each (query doc [[[Tag "p"]]]))).
Proof.
  intros Doc Sel C doc. split; [apply extractBody_amended|]. split; [|done].
  intros Hnot. rewrite extractBody_amended. unfold amendedBody, specBody.
  destruct (List.find exceeds200 (containerOutputs doc contentSelectors)) eqn:Hfind;
    [done|].
  apply find_none_short in Hfind.
  by rewrite (proj2 (Nat.ltb_lt _ _)) by lia.
Qed.

(** A page whose article yields 242 characters. *)
Lemma body_selection_layers_witness :
  extractBody articlePage = specBody articlePage
  /\ extractBody articlePage = letters 120 ++ [10%N; 10%N] ++ letters 120.
Proof.
  split.
  - destruct (body_selection_layers _ _ Dom.cheerio articlePage) as (_ & Hspec & _).
    apply Hspec. vm_compute. lia.
  - vm_compute. reflexivity.
Defined.

(** C4, as stated, fails.  On [boundaryPage] no selector yields more than 200
    characters, yet the code does not fall back to the paragraphs: it keeps
    the 200 characters of the heading, where the paragraphs of the document
    would give the empty text. *)
Lemma body_selection_counterexample :
  containerOutputs boundaryPage contentSelectors = [letters 200]
  /\ List.find exceeds200 (containerOutputs boundaryPage contentSelectors) = None
  /\ allParagraphs boundaryPage = []
  /\ specBody boundaryPage = []
  /\ extractBody boundaryPage = letters 200
  /\ extractBody boundaryPage ≠ specBody boundaryPage.
Proof. vm_compute. repeat split; discriminate. Qed.

Section Extraction.
Context {W Doc Sel : Type} `{Cheerio Doc Sel} (orc : Oracles W Doc).

(** [extractArticleContent] once the page is loaded. *)
Lemma extractArticleContent_loaded url (e : Env W) w1 w2 w3 w4 doc :
  puppeteer_launch orc (world e) = (Ok tt, w1) ->
  browser_newPage orc w1 = (Ok tt, w2) ->
  page_goto orc url [[[Tag "body"]]] w2 = (Ok tt, w3) ->
  page_content orc w3 = (Ok doc, w4) ->
  fst (extractArticleContent orc url e)
  = Ok (if (length (finalContent doc) <? 100)%nat then None
        else Some {| ec_title := extractTitle doc;
                     ec_content := finalContent doc;
                     ec_url := url |}).
Proof.
  intros Hlaunch Hpage Hgoto Hcontent.
  unfold extractArticleContent, with_browser, finalContent, one.
  cbv beta iota zeta delta
    [ask try_finally try_catch bind emit modify ret throw closeBrowser].
  rewrite Hlaunch. cbn [world trace]. rewrite Hpage. cbn [world trace].
  rewrite Hgoto. cbn [world trace]. rewrite Hcontent. cbn [world trace].
  destruct (cleanContent (extractBody doc)) as [|c rest] eqn:Hclean; [done|].
  cbn [truthy negb orb].
  by destruct (length (c :: rest) <? 100)%nat.
Qed.

(** Whatever the page, [extractArticleContent] does not throw. *)
Lemma extractArticleContent_total url (e : Env W) :
  exists r, fst (extractArticleContent orc url e) = Ok r.
Proof.
  unfold extractArticleContent, with_browser.
  cbv beta iota zeta delta [ask try_finally try_catch ret].
  destruct (puppeteer_launch orc (world e)) as [[[]|error] w1]; [|by eexists].
  match goal with
  | |- context [let (r, s') := ?c ?s in _] =>
      destruct (c s) as [[r|error] e1]; by eexists
  end.
Qed.

End Extraction.

(** C5.  For every page that loads, [extractArticleContent] returns [null]
    exactly when the final content, that is the selected body text after
    white-space normalisation, control-character stripping and trimming, is
    shorter than 100 characters, and the extracted content otherwise: 99
    characters give [null], 100 characters give a result.  It never
    throws. *)
Theorem extract_null_below_100 :
  forall (W Doc Sel : Type) (C : Cheerio Doc Sel) (orc : Oracles W Doc)
         (url : jsstring) (e : Env W) w1 w2 w3 w4 (doc : Doc),
    puppeteer_launch orc (world e) = (Ok tt, w1) ->
    browser_newPage orc w1 = (Ok tt, w2) ->
    page_goto orc url [[[Tag "body"]]] w2 = (Ok tt, w3) ->
    page_content orc w3 = (Ok doc, w4) ->
    let final := cleanContent (extractBody doc) in
    (fst (extractArticleContent orc url e) = Ok None <-> (length final < 100)%nat)
    /\ ((100 <= length final)%nat ->
        fst (extractArticleContent orc url e)
        = Ok (Some {| ec_title := extractTitle doc; ec_content := final; ec_url := url |}))
    /\ (length final = 99%nat -> fst (extractArticleContent orc url e) = Ok None)
    /\ (length final = 100%nat ->
        exists content, fst (extractArticleContent orc url e) = Ok (Some content))
    /\ (forall e' : Env W, exists r, fst (extractArticleContent orc url e') = Ok r).
Proof.
  intros W Doc Sel C orc url e w1 w2 w3 w4 doc Hlaunch Hpage Hgoto Hcontent final.
  pose proof (extractArticleContent_loaded orc url e w1 w2 w3 w4 doc
                Hlaunch Hpage Hgoto Hcontent) as Hrun.
  unfold finalContent in Hrun. fold final in Hrun. rewrite Hrun.
  split; [|split; [|split; [|split]]].
  - destruct (length final <? 100)%nat eqn:Hshort.
    + apply Nat.ltb_lt in Hshort. by split.
    + apply Nat.ltb_ge in Hshort. split; [discriminate|lia].
  - intros Hlong. by rewrite (proj2 (Nat.ltb_ge _ _) Hlong).
  - intros ->. done.
  - intros ->. by eexists.
  - intros e'. apply extractArticleContent_total.
Qed.

(** The threshold applies to the normalised content: 101 characters are
    extracted, 99 remain, and the result is [null]. *)
Example extract_spaced :
  length (extractBody (paragraphPage spacedText)) = 101%nat
  /\ length (cleanContent (extractBody (paragraphPage spacedText))) = 99%nat
  /\ fst (extractArticleContent Scripted.oracles (js "https://example.org/spaced")
            (searchEnv extractionSite)) = Ok None.
Proof. vm_compute. repeat split. Qed.

(** Pages whose final content has 99 and 100 characters. *)
Lemma extract_null_below_100_witness :
  fst (extractArticleContent Scripted.oracles (js "https://example.org/99")
         (searchEnv extractionSite)) = Ok None
  /\ exists content,
       fst (extractArticleContent Scripted.oracles (js "https://example.org/100")
              (searchEnv extractionSite)) = Ok (Some content).
Proof.
  split.
  - destruct (extract_null_below_100 _ _ _ Dom.cheerio Scripted.oracles
                (js "https://example.org/99") (searchEnv extractionSite)
                (Scripted.start extractionSite []) (Scripted.start extractionSite [])
                (loaded (paragraphPage (letters 99)))
                (loaded (paragraphPage (letters 99)))
                (paragraphPage (letters 99)))
      as (_ & _ & H99 & _); [reflexivity | reflexivity | vm_compute; reflexivity
                            | reflexivity |].
    apply H99. vm_compute. reflexivity.
  - destruct (extract_null_below_100 _ _ _ Dom.cheerio Scripted.oracles
                (js "https://example.org/100") (searchEnv extractionSite)
                (Scripted.start extractionSite []) (Scripted.start extractionSite [])
                (loaded (paragraphPage (letters 100)))
                (loaded (paragraphPage (letters 100)))
                (paragraphPage (letters 100)))
      as (_ & _ & _ & H100 & _); [reflexivity | reflexivity | vm_compute; reflexivity
                                 | reflexivity |].
    apply H100. vm_compute. reflexivity.
Defined.

(** ** The scrape orchestrator *)

(** The selection is the last five links, whatever the configuration. *)
Lemma articlesToScrape_last5 (articleLinks : list jsstring) :
  articlesToScrape articleLinks = drop (length articleLinks - 5) articleLinks.
Proof.
  unfold articlesToScrape, slice_from. simpl. f_equal. lia.
Qed.

Lemma array_includes_elem (l : list jsstring) (x : jsstring) :
  array_includes l x = true <-> x ∈ l.
Proof.
  unfold array_includes. rewrite existsb_exists. split.
  - intros (y & Hin & Heq). apply bool_decide_eq_true in Heq. subst y.
    by apply list_elem_of_In.
  - intros Hin. exists x. split; [by apply list_elem_of_In|].
    by apply bool_decide_eq_true.
Qed.

(** Among absolute references the de-duplication works: the collected links
    are pairwise distinct. *)
Lemma collectLinks_absolute_distinct {W Doc : Type} (orc : Oracles W Doc)
    (cfg : Config) (hrefs : list (option jsstring)) :
  forall articleLinks links,
    Forall (fun href => exists h, href = Some h /\ startsWith (js "http") h = true) hrefs ->
    NoDup articleLinks ->
    collectLinks orc cfg articleLinks hrefs = Ok links ->
    NoDup links.
Proof.
  induction hrefs as [|href hrefs IH]; intros articleLinks links Habs Hnd Hrun.
  - simpl in Hrun. by injection Hrun as <-.
  - apply Forall_cons in Habs as [(h & -> & Hhttp) Habs].
    cbn [collectLinks] in Hrun. unfold collectLink in Hrun. rewrite Hhttp in Hrun.
    destruct (truthy h && negb (array_includes articleLinks h)) eqn:Hnew.
    + apply andb_true_iff in Hnew as [_ Hnew]. apply negb_true_iff in Hnew.
      apply (IH (articleLinks ++ [h]) links Habs); [|done].
      apply NoDup_app. split; [done|]. split; [|apply NoDup_singleton].
      intros x Hx Hxh. apply list_elem_of_singleton in Hxh. subst x.
      apply array_includes_elem in Hx. congruence.
    + by apply (IH articleLinks links Habs).
Qed.

(** A relative reference is not recognised as seen: the raw [href] is looked
    up in the list of resolved URLs. *)
Lemma collectLink_relative_twice {W Doc : Type} (orc : Oracles W Doc) (cfg : Config)
    (href absoluteUrl : jsstring) :
  truthy href = true ->
  startsWith (js "http") href = false ->
  resolveUrl orc href (blogUrl cfg) = Ok absoluteUrl ->
  absoluteUrl ≠ href ->
  collectLinks orc cfg [] [Some href; Some href] = Ok [absoluteUrl; absoluteUrl].
Proof.
  intros Htruthy Hrel Hresolve Hne.
  assert (Hfirst : collectLink orc cfg [] (Some href) = Ok [absoluteUrl]).
  { unfold collectLink. by rewrite Htruthy, Hrel, Hresolve. }
  assert (Hsecond : collectLink orc cfg [absoluteUrl] (Some href)
                    = Ok [absoluteUrl; absoluteUrl]).
  { unfold collectLink, array_includes. cbn [existsb].
    rewrite bool_decide_eq_false_2 by done. by rewrite Htruthy, Hrel, Hresolve. }
  cbn [collectLinks]. by rewrite Hfirst, Hsecond.
Qed.

(** C7.  Evaluation at the failing input: a blog index whose post is linked
    twice by the same relative reference, with [ARTICLES_TO_SCRAPE=1].  The
    two anchors resolve to the same URL, the list of links holds it twice, both
    entries are selected, and the post is scraped twice.  Of seven links the
    last five are selected. *)
Theorem scrape_keeps_duplicate_relative_links :
  let orc := Scripted.oracles in
  let run := scrapeBeyondChatsArticles orc scrapeOne (searchEnv blogSite) in
  anchorHrefs blogIndex = [Some (js "/blogs/post-1/"); Some (js "/blogs/post-1/")]
  /\ collectLinks orc scrapeOne [] (anchorHrefs blogIndex) = Ok [postUrl; postUrl]
  /\ articlesToScrape [postUrl; postUrl] = [postUrl; postUrl]
  /\ (exists articles,
        fst run = Ok articles /\ sa_originalUrl <$> articles = [postUrl; postUrl])
  /\ count_events (is_fetch postUrl) (trace (snd run)) = 2%nat
  /\ articlesToScrape sevenLinks = drop 2 sevenLinks.
Proof.
  vm_compute. split; [done|]. split; [done|]. split; [done|].
  split; [|split; done]. eexists. split; reflexivity.
Qed.

(** * Further properties *)

(** ** Text normalisation *)

Lemma trimStart_snoc (l : jsstring) (c : N) :
  is_space c = false -> trimStart (l ++ [c]) = trimStart l ++ [c].
Proof.
  intros Hc. induction l as [|d l IH]; simpl; [by rewrite Hc|].
  by destruct (is_space d).
Qed.

Lemma trimEnd_cons (c : N) (s : jsstring) :
  is_space c = false -> trimEnd (c :: s) = c :: trimEnd s.
Proof.
  intros Hc. unfold trimEnd. simpl.
  by rewrite trimStart_snoc, rev_app_distr.
Qed.

Lemma trimStart_starts_clean (s : jsstring) : starts_clean (trimStart s).
Proof.
  induction s as [|c s IH]; simpl; [done|].
  destruct (is_space c) eqn:Hc; [done|]. simpl. done.
Qed.

Lemma trimStart_suffix (s : jsstring) : trimStart s `suffix_of` s.
Proof.
  induction s as [|c s IH]; simpl; [done|].
  destruct (is_space c); [by apply suffix_cons_r|done].
Qed.

Lemma trimEnd_prefix (s : jsstring) : trimEnd s `prefix_of` s.
Proof.
  unfold trimEnd. destruct (trimStart_suffix (rev s)) as [pre Hpre].
  exists (rev pre). rewrite <- rev_app_distr, <- Hpre. by rewrite rev_involutive.
Qed.

Lemma trim_clean (s : jsstring) : starts_clean (trim s) /\ ends_clean (trim s).
Proof.
  unfold trim. split.
  - pose proof (trimStart_starts_clean s) as Hstart.
    destruct (trimStart s) as [|c r]; [done|].
    simpl in Hstart. by rewrite trimEnd_cons.
  - unfold ends_clean, trimEnd. rewrite rev_involutive. apply trimStart_starts_clean.
Qed.

(** [trim] keeps a contiguous part of the text. *)
Lemma trim_infix (s : jsstring) : exists pre post, s = pre ++ trim s ++ post.
Proof.
  unfold trim. destruct (trimStart_suffix s) as [pre Hpre].
  destruct (trimEnd_prefix (trimStart s)) as [post Hpost].
  exists pre, post. by rewrite <- Hpost.
Qed.

Lemma trim_Forall (P : N -> Prop) (s : jsstring) : Forall P s -> Forall P (trim s).
Proof.
  intros Hall. destruct (trim_infix s) as (pre & post & Heq). rewrite Heq in Hall.
  apply Forall_app in Hall as [_ Hall]. by apply Forall_app in Hall as [Hall _].
Qed.

Lemma trim_length (s : jsstring) : (length (trim s) <= length s)%nat.
Proof.
  destruct (trim_infix s) as (pre & post & Heq).
  rewrite Heq at 2. rewrite !length_app. lia.
Qed.

Lemma single_spaced_app_r (l k : jsstring) : single_spaced (l ++ k) -> single_spaced k.
Proof. induction l as [|c l IH]; [done|]. simpl. intros [_ Hrest]. by apply IH. Qed.

Lemma single_spaced_app_l (l k : jsstring) : single_spaced (l ++ k) -> single_spaced l.
Proof.
  induction l as [|c l IH]; [done|]. simpl. intros [Hhead Hrest].
  split; [|by apply IH]. destruct l as [|d l]; [done|]. exact Hhead.
Qed.

Lemma trim_single_spaced (s : jsstring) : single_spaced s -> single_spaced (trim s).
Proof.
  intros Hs. destruct (trim_infix s) as (pre & post & Heq). rewrite Heq in Hs.
  apply single_spaced_app_r in Hs. by apply single_spaced_app_l in Hs.
Qed.

Lemma space_32 : is_space 32 = true.
Proof. reflexivity. Qed.

(** After [replace(/\s+/g, ' ')] the only white space is the plain space, and
    no two of them are adjacent; inside a run nothing is written. *)
Lemma collapseSpaces_shape (text : jsstring) :
  forall inrun,
    plain_spaces (collapseSpaces inrun text)
    /\ single_spaced (collapseSpaces inrun text)
    /\ (inrun = true -> starts_clean (collapseSpaces inrun text))
    /\ (length (collapseSpaces inrun text) <= length text)%nat.
Proof.
  induction text as [|c text IH]; intros inrun; [by repeat split; try constructor|].
  simpl. destruct (is_space c) eqn:Hc.
  - destruct (IH true) as (Hplain & Hsingle & Hstart & Hlen).
    destruct inrun.
    + repeat split; try done. lia.
    + split; [by constructor|]. split; [|split; [done|simpl; lia]].
      simpl. split; [|done]. specialize (Hstart eq_refl).
      destruct (collapseSpaces true text) as [|d r]; [done|].
      simpl in Hstart. intros [_ Hd]. congruence.
  - destruct (IH false) as (Hplain & Hsingle & _ & Hlen).
    split; [constructor; [congruence|done]|].
    split; [|split; [done|simpl; lia]].
    simpl. split; [|done].
    destruct (collapseSpaces false text) as [|d r]; [done|]. intros [Hc' _]. congruence.
Qed.

Lemma plain_spaces_no_line_feed (s : jsstring) :
  plain_spaces s -> Forall (fun c => c ≠ 10%N) s.
Proof.
  unfold plain_spaces. intros Hs. eapply Forall_impl; [exact Hs|].
  intros c Hc ->. by specialize (Hc eq_refl).
Qed.

(** On a text without line feeds the two line-feed replacements change
    nothing. *)
Lemma collapseNewlines_none (s : jsstring) :
  Forall (fun c => c ≠ 10%N) s -> collapseNewlines 0 s = s.
Proof.
  induction 1 as [|c s Hc _ IH]; [done|]. simpl.
  rewrite (proj2 (N.eqb_neq c 10) Hc). simpl. by rewrite IH.
Qed.

Lemma collapseLineFeeds_none (s : jsstring) :
  Forall (fun c => c ≠ 10%N) s -> collapseLineFeeds false s = s.
Proof.
  induction 1 as [|c s Hc _ IH]; [done|]. simpl.
  rewrite (proj2 (N.eqb_neq c 10) Hc). by rewrite IH.
Qed.

Lemma filter_length_le {A} (p : A -> bool) (l : list A) :
  (length (List.filter p l) <= length l)%nat.
Proof. induction l as [|x l IH]; simpl; [lia|]. destruct (p x); simpl; lia. Qed.

Lemma filter_Forall {A} (P : A -> Prop) (p : A -> bool) (l : list A) :
  Forall P l -> Forall P (List.filter p l).
Proof.
  induction 1 as [|x l Hx _ IH]; simpl; [constructor|].
  destruct (p x); [by constructor|done].
Qed.

Lemma filter_Forall_true {A} (p : A -> bool) (l : list A) :
  Forall (fun x => p x = true) (List.filter p l).
Proof.
  induction l as [|x l IH]; simpl; [constructor|].
  destruct (p x) eqn:Hx; [by constructor|done].
Qed.

(** The shape of a cleaned content. *)
Lemma cleanContent_parts :
  forall text : jsstring,
    Forall (fun c => is_control c = false) (cleanContent text)
    /\ plain_spaces (cleanContent text)
    /\ starts_clean (cleanContent text)
    /\ ends_clean (cleanContent text)
    /\ (length (cleanContent text) <= length text)%nat
    /\ cleanContent text
       = trim (List.filter (fun c => negb (is_control c)) (collapseSpaces false text)).
Proof.
  intros text. destruct (collapseSpaces_shape text false) as (Hplain & _ & _ & Hlen).
  assert (Hdead : collapseNewlines 0 (collapseSpaces false text) = collapseSpaces false text)
    by (by apply collapseNewlines_none, plain_spaces_no_line_feed).
  unfold cleanContent. rewrite Hdead.
  split; [|split; [|split; [|split; [|split; [|done]]]]].
  - apply trim_Forall. eapply Forall_impl; [apply filter_Forall_true|].
    intros c Hc. by apply negb_true_iff.
  - by apply trim_Forall, filter_Forall.
  - apply trim_clean.
  - apply trim_clean.
  - etrans; [apply trim_length|]. etrans; [apply filter_length_le|done].
Qed.

(** X1.  The cleaned content holds no control character, its only white
    space is the plain space, it neither begins nor ends with white space, and
    it is no longer than the text it comes from.  The replacement of runs of
    line feeds never applies: the first replacement has already turned every
    line feed into a space. *)
Theorem cleanContent_shape :
  forall text : jsstring,
    Forall (fun c => is_control c = false) (cleanContent text)
    /\ plain_spaces (cleanContent text)
    /\ starts_clean (cleanContent text)
    /\ ends_clean (cleanContent text)
    /\ (length (cleanContent text) <= length text)%nat
    /\ cleanContent text
       = trim (List.filter (fun c => negb (is_control c)) (collapseSpaces false text)).
Proof. apply cleanContent_parts. Qed.

(** X2.  The text content of a page has single plain spaces as its only
    white space, neither begins nor ends with one, and is no longer than the
    text of the body; the replacement of runs of line feeds never applies. *)
Theorem extractTextContent_shape :
  forall (Doc Sel : Type) (C : Cheerio Doc Sel) (L : CheerioHtml Doc Sel)
         (html : jsstring),
    plain_spaces (extractTextContent html)
    /\ single_spaced (extractTextContent html)
    /\ starts_clean (extractTextContent html)
    /\ ends_clean (extractTextContent html)
    /\ (length (extractTextContent html) <= length (bodyText html))%nat
    /\ extractTextContent html = trim (collapseSpaces false (bodyText html)).
Proof.
  intros Doc Sel C L html.
  destruct (collapseSpaces_shape (bodyText html) false) as (Hplain & Hsingle & _ & Hlen).
  assert (Hdead : collapseLineFeeds false (collapseSpaces false (bodyText html))
                  = collapseSpaces false (bodyText html))
    by (by apply collapseLineFeeds_none, plain_spaces_no_line_feed).
  unfold extractTextContent. rewrite Hdead.
  split; [by apply trim_Forall|]. split; [by apply trim_single_spaced|].
  split; [apply trim_clean|]. split; [apply trim_clean|].
  split; [|done]. etrans; [apply trim_length|done].
Qed.

(** ** The endpoints on one article *)

Section OneArticle.
Context {W Doc : Type} (orc : Oracles W Doc).

Lemma find_id_none id (tbl : Table) :
  prisma.findUnique_id id tbl = None <-> forall a, a ∈ tbl -> Article.id a ≠ id.
Proof.
  unfold prisma.findUnique_id. induction tbl as [|b tbl IH]; simpl.
  - split; [|done]. intros _ a Ha. by apply elem_of_nil in Ha.
  - unfold prisma.has_id at 1. case_bool_decide as Hb.
    + split; [done|]. intros Hall. exfalso. by apply (Hall b); [left|].
    + rewrite IH. split.
      * intros Hall a Ha. apply elem_of_cons in Ha as [->|Ha]; [done|by apply Hall].
      * intros Hall a Ha. apply Hall. by right.
Qed.

Lemma find_id_some id (tbl : Table) a :
  prisma.findUnique_id id tbl = Some a -> a ∈ tbl /\ Article.id a = id.
Proof.
  unfold prisma.findUnique_id. intros Hfind. apply List.find_some in Hfind as [Hin Hid].
  split; [by apply list_elem_of_In|]. unfold prisma.has_id in Hid.
  by apply bool_decide_eq_true in Hid.
Qed.

Lemma delete_elem id (tbl : Table) a :
  a ∈ prisma.delete id tbl <-> a ∈ tbl /\ Article.id a ≠ id.
Proof.
  unfold prisma.delete. rewrite !list_elem_of_In, List.filter_In.
  unfold prisma.has_id. rewrite negb_true_iff, bool_decide_eq_false. done.
Qed.

Lemma delete_find id (tbl : Table) :
  prisma.findUnique_id id (prisma.delete id tbl) = None.
Proof. apply find_id_none. intros a Ha. by apply delete_elem in Ha as [_ Ha]. Qed.

Lemma delete_absent id (tbl : Table) :
  prisma.findUnique_id id tbl = None -> prisma.delete id tbl = tbl.
Proof.
  rewrite find_id_none. unfold prisma.delete. induction tbl as [|b tbl IH]; [done|].
  intros Hall. simpl. unfold prisma.has_id at 1.
  rewrite bool_decide_eq_false_2; [|apply Hall; by left]. simpl. f_equal.
  apply IH. intros a Ha. apply Hall. by right.
Qed.

Lemma updateRow_url id data a :
  Article.originalUrl (prisma.updateRow id data a) = Article.originalUrl a.
Proof. unfold prisma.updateRow. by destruct (prisma.has_id id a). Qed.

Lemma updateRow_urls id data (tbl : Table) :
  Article.originalUrl <$> (prisma.updateRow id data <$> tbl)
  = Article.originalUrl <$> tbl.
Proof.
  rewrite <- list_fmap_compose. apply list_fmap_ext.
  intros i a _. apply updateRow_url.
Qed.

Lemma falsy_or_nonempty (a : option jsstring) (s : jsstring) :
  falsy_or a None = Some s -> s ≠ [].
Proof.
  unfold falsy_or. destruct a as [t|]; [|done].
  destruct t as [|c t]; simpl; [done|]. by intros [= <-].
Qed.

(** What the update endpoint does once the row is found and the date, if
    any, is read. *)
Lemma updateArticle_found id req (s : Sys W) row date :
  prisma.findUnique_id id (db s) = Some row ->
  match falsy_or (p_publishedDate req) None with
  | Some d => parseDate orc d = Some date
  | None => True
  end ->
  exists data,
    updateArticle orc id req s
    = (Ok (ReplyArticle 200 MsgNone (prisma.applyUpdate data row)),
       mkSys (env s) (prisma.updateRow id data <$> db s))
    /\ u_title data = falsy_or (p_title req) None
    /\ u_content data = falsy_or (p_content req) None
    /\ u_isUpdated data = p_isUpdated req.
Proof.
  intros Hfind Hdate.
  unfold updateArticle, try_catch. unfold bind at 1. unfold readDb at 1. cbv beta iota.
  rewrite Hfind. unfold bind at 1.
  destruct (falsy_or (p_publishedDate req) None) as [d|].
  - unfold toDate. rewrite Hdate.
    unfold bind, ret, onDb, prisma.update. cbv beta iota. rewrite Hfind.
    eexists. split; [reflexivity|]. done.
  - unfold bind, ret, onDb, prisma.update. cbv beta iota. rewrite Hfind.
    eexists. split; [reflexivity|]. done.
Qed.

Lemma updateArticle_outcome id req (s : Sys W) :
  (exists e, updateArticle orc id req s = (Ok (ReplyNext e), s))
  \/ (exists row data,
        prisma.findUnique_id id (db s) = Some row
        /\ updateArticle orc id req s
           = (Ok (ReplyArticle 200 MsgNone (prisma.applyUpdate data row)),
              mkSys (env s) (prisma.updateRow id data <$> db s))
        /\ u_title data = falsy_or (p_title req) None
        /\ u_content data = falsy_or (p_content req) None
        /\ u_isUpdated data = p_isUpdated req).
Proof.
  destruct (prisma.findUnique_id id (db s)) as [row|] eqn:Hfind.
  2:{ left. eexists. unfold updateArticle, try_catch, bind, readDb. by rewrite Hfind. }
  destruct (falsy_or (p_publishedDate req) None) as [d|] eqn:Hd.
  - destruct (parseDate orc d) as [z|] eqn:Hz.
    + right. destruct (updateArticle_found id req s row z Hfind) as (data & Hrun & Hdata);
        [by rewrite Hd|]. by exists row, data.
    + left. eexists. unfold updateArticle, try_catch. unfold bind at 1, readDb at 1.
      cbv beta iota. rewrite Hfind, Hd. unfold toDate. rewrite Hz. done.
  - right. destruct (updateArticle_found id req s row 0%Z Hfind) as (data & Hrun & Hdata);
      [by rewrite Hd|]. by exists row, data.
Qed.

End OneArticle.

(** X3.  The update endpoint always answers.  It changes neither the
    environment nor the identifier or the source URL of any row, and leaves
    every row with another identifier as it is.  It either hands an error to
    the error middleware with the table unchanged, which it does with status
    404 when no row has the identifier, or answers 200 with the changed row,
    which is then stored.  An empty string in the request changes nothing: a
    title or a content that was not empty is not empty afterwards. *)
Theorem updateArticle_keeps_keys :
  forall (W Doc : Type) (orc : Oracles W Doc) (id : jsstring)
         (req : UpdateRequest) (s : Sys W),
    exists reply s',
      updateArticle orc id req s = (Ok reply, s')
      /\ env s' = env s
      /\ Article.id <$> db s' = Article.id <$> db s
      /\ Article.originalUrl <$> db s' = Article.originalUrl <$> db s
      /\ Forall2 (fun before after => Article.id before ≠ id -> after = before)
           (db s) (db s')
      /\ (prisma.findUnique_id id (db s) = None ->
          reply = ReplyNext articleNotFound /\ s' = s)
      /\ ((exists e, reply = ReplyNext e /\ s' = s)
          \/ (exists row after,
                prisma.findUnique_id id (db s) = Some row
                /\ reply = ReplyArticle 200 MsgNone after
                /\ after ∈ db s'
                /\ (Article.title row ≠ [] -> Article.title after ≠ [])
                /\ (Article.content row ≠ [] -> Article.content after ≠ [])
                /\ Article.isUpdated after
                   = default (Article.isUpdated row) (p_isUpdated req))).
Proof.
  intros W Doc orc id req s.
  assert (Hsame : Forall2 (fun before after : Article.t =>
                             Article.id before ≠ id -> after = before) (db s) (db s)).
  { induction (db s); constructor; done. }
  destruct (updateArticle_outcome orc id req s)
    as [[e Hrun]|(row & data & Hfind & Hrun & Htitle & Hcontent & Hflag)].
  - exists (ReplyNext e), s. split; [done|]. split; [done|]. split; [done|].
    split; [done|]. split; [done|]. split; [|left; by exists e].
    intros Hnone. split; [|done].
    unfold updateArticle, try_catch, bind, readDb in Hrun. rewrite Hnone in Hrun.
    unfold throw, ret in Hrun. by injection Hrun as <-.
  - eexists _, _. split; [exact Hrun|]. cbn [env db].
    split; [done|]. split; [apply updateRow_ids|]. split; [apply updateRow_urls|].
    split.
    { clear. induction (db s) as [|a tbl IH]; [constructor|].
      rewrite fmap_cons. constructor; [|done]. intros Hne.
      unfold prisma.updateRow, prisma.has_id. by rewrite bool_decide_eq_false_2. }
    split; [by rewrite Hfind|]. right. exists row, (prisma.applyUpdate data row).
    split; [done|]. split; [done|].
    apply find_id_some in Hfind as [Hin Hid].
    split; [by apply updateRow_same|].
    unfold prisma.applyUpdate. cbn [Article.title Article.content Article.isUpdated].
    rewrite Htitle, Hcontent, Hflag.
    split; [|split; [|done]].
    + intros Hrow. destruct (falsy_or (p_title req) None) as [t|] eqn:Ht; [|done].
      simpl. by apply falsy_or_nonempty in Ht.
    + intros Hrow. destruct (falsy_or (p_content req) None) as [t|] eqn:Ht; [|done].
      simpl. by apply falsy_or_nonempty in Ht.
Qed.

(** X4.  The delete endpoint always answers and leaves the environment as it
    is.  Afterwards no row has the identifier, every other row is still
    stored, in the same order, and the read endpoint answers 404 for the
    identifier.  It answers 204 exactly when a row had the identifier, and
    otherwise hands the 404 error to the error middleware with the state
    unchanged. *)
Theorem deleteArticle_removes :
  forall (W : Type) (id : jsstring) (s : Sys W),
    exists reply s',
      deleteArticle id s = (Ok reply, s')
      /\ env s' = env s
      /\ (forall a, a ∈ db s' <-> a ∈ db s /\ Article.id a ≠ id)
      /\ db s' `sublist_of` db s
      /\ getArticleById id s' = (Ok (ReplyNext articleNotFound), s')
      /\ (reply = ReplyNoContent <-> exists a, a ∈ db s /\ Article.id a = id)
      /\ (reply ≠ ReplyNoContent -> reply = ReplyNext articleNotFound /\ s' = s).
Proof.
  intros W id s.
  assert (Hget : forall s0 : Sys W,
            prisma.findUnique_id id (db s0) = None ->
            getArticleById id s0 = (Ok (ReplyNext articleNotFound), s0)).
  { intros s0 Hnone. unfold getArticleById, try_catch, bind, readDb. by rewrite Hnone. }
  unfold deleteArticle, try_catch. unfold bind at 1, readDb at 1. cbv beta iota.
  destruct (prisma.findUnique_id id (db s)) as [row|] eqn:Hfind.
  - unfold bind, onDb, ret. cbv beta iota.
    eexists _, _. split; [reflexivity|]. cbn [env db].
    split; [done|]. split; [apply delete_elem|]. split; [apply filter_sublist|].
    split; [apply Hget, delete_find|]. split; [|done].
    split; [|done]. intros _. exists row. by apply find_id_some.
  - unfold throw, ret. eexists _, _. split; [reflexivity|].
    pose proof (proj1 (find_id_none id (db s)) Hfind) as Hall.
    split; [done|]. split; [|split; [done|split; [by apply Hget|]]].
    + intros a. split; [|by intros [? _]]. intros Ha. split; [done|by apply Hall].
    + split; [|done]. split; [done|]. intros (a & Ha & Hid). by apply Hall in Ha.
Qed.

(** ** Creating articles *)

Section CreateMore.
Context {W Doc : Type} (orc : Oracles W Doc).

Lemma find_url_app url (t1 t2 : Table) :
  prisma.findUnique_originalUrl url (t1 ++ t2)
  = match prisma.findUnique_originalUrl url t1 with
    | Some a => Some a
    | None => prisma.findUnique_originalUrl url t2
    end.
Proof.
  unfold prisma.findUnique_originalUrl. induction t1 as [|b t1 IH]; [done|].
  simpl. by destruct (prisma.has_url url b).
Qed.

Lemma find_id_app id (t1 t2 : Table) :
  prisma.findUnique_id id (t1 ++ t2)
  = match prisma.findUnique_id id t1 with
    | Some a => Some a
    | None => prisma.findUnique_id id t2
    end.
Proof.
  unfold prisma.findUnique_id. induction t1 as [|b t1 IH]; [done|].
  simpl. by destruct (prisma.has_id id b).
Qed.

(** The identifier of a created row is the one of no stored row. *)
Lemma find_new_id data (tbl : Table) :
  prisma.findUnique_id (Article.id (prisma.newArticle data tbl)) tbl = None.
Proof.
  apply find_id_none. intros a Ha Heq.
  apply (infinite_is_fresh (Article.id <$> tbl)).
  change (fresh (Article.id <$> tbl)) with (Article.id (prisma.newArticle data tbl)).
  rewrite <- Heq. by apply list_elem_of_fmap_2.
Qed.

Lemma createArticle_created req (s : Sys W) date :
  validationOk req = true ->
  prisma.findUnique_originalUrl (b_originalUrl req) (db s) = None ->
  match falsy_or (b_publishedDate req) None with
  | Some d => parseDate orc d = Some date
  | None => True
  end ->
  exists data,
    createArticle orc req s
    = (Ok (ReplyArticle 201 MsgNone (prisma.newArticle data (db s))),
       mkSys (env s) (db s ++ [prisma.newArticle data (db s)]))
    /\ c_title data = b_title req /\ c_content data = b_content req
    /\ c_author data = b_author req /\ c_originalUrl data = b_originalUrl req.
Proof.
  intros Hvalid Hfind Hdate. unfold createArticle, try_catch. rewrite Hvalid.
  cbn [negb]. cbv iota. unfold bind at 1, readDb at 1. cbv beta iota. rewrite Hfind.
  destruct (falsy_or (b_publishedDate req) None) as [d|].
  - unfold toDate. rewrite Hdate. unfold bind, ret, onDb, prisma.create. cbv beta iota zeta.
    eexists. split; [reflexivity|]. done.
  - unfold bind, ret, onDb, prisma.create. cbv beta iota zeta.
    eexists. split; [reflexivity|]. done.
Qed.

Lemma createArticle_stored req (s : Sys W) row :
  validationOk req = true ->
  prisma.findUnique_originalUrl (b_originalUrl req) (db s) = Some row ->
  createArticle orc req s = (Ok (ReplyNext duplicateUrl), s).
Proof.
  intros Hvalid Hfind. unfold createArticle, try_catch. rewrite Hvalid.
  cbn [negb]. cbv iota. unfold bind at 1, readDb at 1. cbv beta iota. by rewrite Hfind.
Qed.

End CreateMore.

Section PersistMore.
Context {W : Type}.

Lemma saveEach_stored (articles : list ScrapedArticle) :
  forall saved counts (s : Sys W),
    (forall a, a ∈ articles ->
       is_Some (prisma.findUnique_originalUrl (sa_originalUrl a) (db s))) ->
    saveEach articles saved s = (Ok saved, s)
    /\ persistEach articles counts s
       = (Ok (counts.1, counts.2 + length articles)%nat, s).
Proof.
  induction articles as [|a rest IH]; intros saved [c1 c2] s Hall.
  - simpl. unfold ret. by rewrite Nat.add_0_r.
  - destruct (Hall a) as [row Hrow]; [by left|].
    destruct (IH saved (c1, c2 + 1)%nat s) as [Hsave Hpersist].
    { intros b Hb. apply Hall. by right. }
    split.
    + by rewrite (saveEach_skip _ _ _ _ _ Hrow).
    + simpl. unfold bind at 1, try_catch at 1, bind at 1, readDb at 1. cbv beta iota.
      rewrite Hrow. unfold ret at 1. cbv beta iota. rewrite Hpersist. simpl.
      do 3 f_equal. lia.
Qed.

(** The loop of the endpoint and the loop of the script store the same rows;
    what they store is appended to the table. *)
Lemma saveEach_appends (articles : list ScrapedArticle) :
  forall saved counts (s : Sys W),
    exists new s1,
      saveEach articles saved s = (Ok (saved ++ new), s1)
      /\ persistEach articles counts s
         = (Ok (counts.1 + length new, counts.2 + (length articles - length new))%nat, s1)
      /\ env s1 = env s
      /\ db s1 = db s ++ new
      /\ (length new <= length articles)%nat
      /\ Forall (savedFrom articles) new
      /\ Forall (fun row =>
                   prisma.findUnique_originalUrl (Article.originalUrl row) (db s) = None)
           new
      /\ (forall a, a ∈ articles ->
            is_Some (prisma.findUnique_originalUrl (sa_originalUrl a) (db s1))).
Proof.
  induction articles as [|a rest IH]; intros saved [c1 c2] s.
  - exists [], s. simpl. unfold ret. rewrite !app_nil_r, !Nat.add_0_r.
    repeat split; try done; try constructor.
    intros a Ha. by apply elem_of_nil in Ha.
  - destruct (prisma.findUnique_originalUrl (sa_originalUrl a) (db s)) as [row|] eqn:Hfind.
    + destruct (IH saved (c1, c2 + 1)%nat s)
        as (new & s1 & Hsave & Hpersist & Henv & Hdb & Hlen & Hfrom & Hnew & Hstored).
      exists new, s1. split; [by rewrite (saveEach_skip _ _ _ _ _ Hfind)|].
      split.
      { simpl. unfold bind at 1, try_catch at 1, bind at 1, readDb at 1. cbv beta iota.
        rewrite Hfind. unfold ret at 1. cbv beta iota. rewrite Hpersist. simpl.
        do 3 f_equal. lia. }
      split; [done|]. split; [done|]. split; [simpl; lia|].
      split.
      { eapply Forall_impl; [exact Hfrom|]. intros r (b & Hb & Hr). exists b.
        split; [by right|done]. }
      split; [done|].
      intros b Hb. apply elem_of_cons in Hb as [->|Hb]; [|by apply Hstored].
      rewrite Hdb, find_url_app, Hfind. by eexists.
    + set (row := prisma.newArticle (scrapedData a) (db s)).
      set (s0 := mkSys (env s) (db s ++ [row])).
      destruct (IH (saved ++ [row]) (c1 + 1, c2)%nat s0)
        as (new & s1 & Hsave & Hpersist & Henv & Hdb & Hlen & Hfrom & Hnew & Hstored).
      exists (row :: new), s1.
      split.
      { simpl. unfold bind at 1, readDb at 1. cbv beta iota. rewrite Hfind.
        unfold bind at 1, onDb at 1, prisma.create. cbv beta iota zeta.
        fold row. fold s0. rewrite Hsave. by rewrite <- app_assoc. }
      split.
      { simpl. unfold bind at 1, try_catch at 1, bind at 1, readDb at 1. cbv beta iota.
        rewrite Hfind. unfold bind at 1, onDb at 1, prisma.create. cbv beta iota zeta.
        fold row. fold s0. unfold ret at 1. cbv beta iota. rewrite Hpersist. simpl.
        do 3 f_equal; lia. }
      split; [done|]. split; [by rewrite Hdb; unfold s0; simpl; rewrite <- app_assoc|].
      split; [simpl; lia|].
      split.
      { constructor.
        - exists a. split; [by left|done].
        - eapply Forall_impl; [exact Hfrom|]. intros r (b & Hb & Hr). exists b.
          split; [by right|done]. }
      split.
      { constructor; [exact Hfind|].
        eapply Forall_impl; [exact Hnew|]. intros r Hr. unfold s0 in Hr. simpl in Hr.
        rewrite find_url_app in Hr.
        by destruct (prisma.findUnique_originalUrl (Article.originalUrl r) (db s)). }
      intros b Hb. apply elem_of_cons in Hb as [->|Hb]; [|by apply Hstored].
      rewrite Hdb. unfold s0. simpl. rewrite <- app_assoc, !find_url_app, Hfind.
      simpl. unfold prisma.has_url at 1. rewrite bool_decide_eq_true_2; [by eexists|done].
Qed.

(** The saved rows are those of a part of the batch, in the order of the
    batch. *)
Lemma saveEach_kept (articles : list ScrapedArticle) :
  forall saved (s : Sys W),
    exists kept new s1,
      saveEach articles saved s = (Ok (saved ++ new), s1)
      /\ kept `sublist_of` articles
      /\ Forall2 savedAs kept new.
Proof.
  induction articles as [|a rest IH]; intros saved s.
  - exists [], [], s. simpl. unfold ret. rewrite app_nil_r.
    split; [done|]. split; [done|constructor].
  - destruct (prisma.findUnique_originalUrl (sa_originalUrl a) (db s)) as [row|] eqn:Hfind.
    + destruct (IH saved s) as (kept & new & s1 & Hsave & Hsub & Hrows).
      exists kept, new, s1. split; [by rewrite (saveEach_skip _ _ _ _ _ Hfind)|].
      split; [by apply sublist_cons|done].
    + set (row := prisma.newArticle (scrapedData a) (db s)).
      set (s0 := mkSys (env s) (db s ++ [row])).
      destruct (IH (saved ++ [row]) s0) as (kept & new & s1 & Hsave & Hsub & Hrows).
      exists (a :: kept), (row :: new), s1.
      split.
      { simpl. unfold bind at 1, readDb at 1. cbv beta iota. rewrite Hfind.
        unfold bind at 1, onDb at 1, prisma.create. cbv beta iota zeta.
        fold row. fold s0. rewrite Hsave. by rewrite <- app_assoc. }
      split; [by apply sublist_skip|]. constructor; [|done]. by repeat split.
Qed.

End PersistMore.

(** X5.  A valid request whose source URL is not stored, with a date that
    can be read if it gives one, is answered 201 with the created row.  The
    row carries the title, the content, the author and the source URL of the
    request and is appended to the table; the environment is unchanged.
    Afterwards the read endpoint answers 200 with this row for its
    identifier, the row is found by its source URL, and the same request
    again is refused with status 409 and stores nothing. *)
Theorem createArticle_round_trip :
  forall (W Doc : Type) (orc : Oracles W Doc) (req : CreateRequest) (s : Sys W),
    validationOk req = true ->
    prisma.findUnique_originalUrl (b_originalUrl req) (db s) = None ->
    validDate orc (b_publishedDate req) = true ->
    exists a s',
      createArticle orc req s = (Ok (ReplyArticle 201 MsgNone a), s')
      /\ env s' = env s
      /\ db s' = db s ++ [a]
      /\ Article.title a = b_title req
      /\ Article.content a = b_content req
      /\ Article.author a = b_author req
      /\ Article.originalUrl a = b_originalUrl req
      /\ getArticleById (Article.id a) s' = (Ok (ReplyArticle 200 MsgNone a), s')
      /\ prisma.findUnique_originalUrl (b_originalUrl req) (db s') = Some a
      /\ createArticle orc req s' = (Ok (ReplyNext duplicateUrl), s').
Proof.
  intros W Doc orc req s Hvalid Hfind Hdate.
  assert (exists date,
            match falsy_or (b_publishedDate req) None with
            | Some d => parseDate orc d = Some date
            | None => True
            end) as [date Hread].
  { unfold validDate in Hdate. destruct (falsy_or (b_publishedDate req) None) as [d|].
    - apply bool_decide_eq_true in Hdate as [date Hd]. by exists date.
    - by exists 0%Z. }
  destruct (createArticle_created orc req s date Hvalid Hfind Hread)
    as (data & Hrun & Htitle & Hcontent & Hauthor & Hurl).
  set (a := prisma.newArticle data (db s)) in *.
  assert (Hstored : prisma.findUnique_originalUrl (b_originalUrl req) (db s ++ [a]) = Some a).
  { rewrite find_url_app, Hfind. simpl. unfold prisma.has_url. simpl.
    by rewrite bool_decide_eq_true_2. }
  exists a, (mkSys (env s) (db s ++ [a])). split; [exact Hrun|]. cbn [env db].
  split; [done|]. split; [done|]. split; [done|]. split; [done|]. split; [done|].
  split; [done|]. split; [|split; [done|]].
  - unfold getArticleById, try_catch, bind, readDb. cbn [db].
    rewrite find_id_app. unfold a at 1. rewrite find_new_id. simpl.
    unfold prisma.has_id. by rewrite bool_decide_eq_true_2.
  - by apply (createArticle_stored orc req _ a).
Qed.

(** A dated request on a table that does not hold its article. *)
Lemma createArticle_round_trip_witness :
  let s := server [draft "a1"] [] in
  let req := datedRequest "a2" in
  exists a s',
    createArticle calendar req s = (Ok (ReplyArticle 201 MsgNone a), s')
    /\ env s' = env s
    /\ db s' = db s ++ [a]
    /\ Article.title a = b_title req
    /\ Article.content a = b_content req
    /\ Article.author a = b_author req
    /\ Article.originalUrl a = b_originalUrl req
    /\ getArticleById (Article.id a) s' = (Ok (ReplyArticle 200 MsgNone a), s')
    /\ prisma.findUnique_originalUrl (b_originalUrl req) (db s') = Some a
    /\ createArticle calendar req s' = (Ok (ReplyNext duplicateUrl), s').
Proof.
  intros s req.
  apply (createArticle_round_trip _ _ calendar req s).
  - reflexivity.
  - vm_compute. reflexivity.
  - vm_compute. reflexivity.
Defined.

(** X6.  Persisting a scraped batch never fails.  The loop of the scrape
    endpoint and the loop of the scrape script leave the same state: the
    environment is unchanged and the saved rows are appended to the table.
    The saved rows are those of a part of the batch, in the order of the
    batch: row by row they carry the fields of the articles of a sublist of
    the batch, and the source URL of each was not stored before.  Afterwards
    the source URL of every article of the batch is stored.  The script
    counts the saved rows, and as skipped the rest of the batch. *)
Theorem scrape_persist_appends :
  forall (W : Type) (articles : list ScrapedArticle) (s : Sys W),
    exists saved s',
      saveEach articles [] s = (Ok saved, s')
      /\ persistEach articles (0, 0)%nat s
         = (Ok (length saved, length articles - length saved)%nat, s')
      /\ env s' = env s
      /\ db s' = db s ++ saved
      /\ (length saved <= length articles)%nat
      /\ Forall (savedFrom articles) saved
      /\ Forall (fun row =>
                   prisma.findUnique_originalUrl (Article.originalUrl row) (db s) = None)
           saved
      /\ (exists kept, kept `sublist_of` articles /\ Forall2 savedAs kept saved)
      /\ (forall a, a ∈ articles ->
            is_Some (prisma.findUnique_originalUrl (sa_originalUrl a) (db s'))).
Proof.
  intros W articles s.
  destruct (saveEach_appends articles [] (0, 0)%nat s)
    as (new & s1 & Hsave & Hpersist & Henv & Hdb & Hlen & Hfrom & Hnew & Hstored).
  destruct (saveEach_kept articles [] s) as (kept & new' & s1' & Hsave' & Hsub & Hrows).
  rewrite Hsave in Hsave'. injection Hsave' as <- _.
  exists new, s1. repeat (split; [done|]). split; [by exists kept|done].
Qed.

(** A batch whose second article is stored and whose third repeats the
    first: the first and the fourth are saved, in this order. *)
Example persist_keeps_batch_order :
  let batch := [scraped "a2"; scraped "a1"; scraped "a2"; scraped "a3"] in
  let run := saveEach batch [] (server [draft "a1"] []) in
  Article.originalUrl <$> default [] (match fst run with Ok l => Some l | Throw _ => None end)
  = sa_originalUrl <$> [scraped "a2"; scraped "a3"]
  /\ Article.originalUrl <$> db (snd run)
     = Article.originalUrl <$> [draft "a1"; draft "a2"; draft "a3"]
  /\ fst (persistEach batch (0, 0)%nat (server [draft "a1"] [])) = Ok (2, 2)%nat.
Proof. vm_compute. repeat split. Qed.

(** X7.  Persisting the same scraped batch a second time stores nothing:
    the endpoint loop saves no row, the script counts every article as
    skipped, and the state stays as the first run left it. *)
Theorem scrape_persist_idempotent :
  forall (W : Type) (articles : list ScrapedArticle) (s : Sys W),
    exists saved s',
      saveEach articles [] s = (Ok saved, s')
      /\ saveEach articles [] s' = (Ok [], s')
      /\ persistEach articles (0, 0)%nat s' = (Ok (0, length articles)%nat, s').
Proof.
  intros W articles s.
  destruct (saveEach_appends articles [] (0, 0)%nat s)
    as (new & s1 & Hsave & _ & _ & _ & _ & _ & _ & Hstored).
  exists new, s1. split; [done|].
  destruct (saveEach_stored articles [] (0, 0)%nat s1 Hstored) as [Hagain Hscript].
  done.
Qed.

(** ** Enhancement runs *)

Lemma updateRow_absent id data (tbl : Table) :
  (forall a, a ∈ tbl -> Article.id a ≠ id) -> prisma.updateRow id data <$> tbl = tbl.
Proof.
  induction tbl as [|b tbl IH]; intros Hall; [done|].
  rewrite fmap_cons. f_equal.
  - unfold prisma.updateRow, prisma.has_id. rewrite bool_decide_eq_false_2; [done|].
    apply Hall. by left.
  - apply IH. intros a Ha. apply Hall. by right.
Qed.

Lemma updateRow_others id data (tbl : Table) :
  Forall2 (fun before after => Article.id before ≠ id -> after = before)
    tbl (prisma.updateRow id data <$> tbl).
Proof.
  induction tbl as [|a tbl IH]; [constructor|].
  rewrite fmap_cons. constructor; [|done]. intros Hne.
  unfold prisma.updateRow, prisma.has_id. by rewrite bool_decide_eq_false_2.
Qed.

(** Enhancing a pending row of a table with distinct identifiers leaves one
    pending row less. *)
Lemma pending_enhancement id r (tbl : Table) row :
  unique_ids tbl -> row ∈ tbl -> Article.id row = id ->
  Article.isUpdated row = false ->
  (pending (prisma.updateRow id (enhancement r) <$> tbl) + 1 = pending tbl)%nat.
Proof.
  unfold unique_ids, pending, prisma.findMany.
  induction tbl as [|b tbl IH]; intros Hnd Hin Hid Hflag; [by apply elem_of_nil in Hin|].
  rewrite fmap_cons in Hnd. apply NoDup_cons in Hnd as [Hb Hnd].
  rewrite fmap_cons. cbn [List.filter].
  destruct (decide (Article.id b = id)) as [Hbid|Hbid].
  - assert (row = b) as ->.
    { apply elem_of_cons in Hin as [->|Hin]; [done|]. exfalso. apply Hb.
      rewrite Hbid, <- Hid. by apply list_elem_of_fmap_2. }
    rewrite updateRow_absent.
    2:{ intros a Ha Heq. apply Hb. rewrite Hbid, <- Heq. by apply list_elem_of_fmap_2. }
    unfold prisma.updateRow, prisma.has_id. rewrite bool_decide_eq_true_2 by done.
    rewrite Hflag. simpl. lia.
  - apply elem_of_cons in Hin as [->|Hin]; [done|].
    unfold prisma.updateRow at 1, prisma.has_id. rewrite bool_decide_eq_false_2 by done.
    specialize (IH Hnd Hin Hid Hflag).
    destruct (Bool.eqb (Article.isUpdated b) false); simpl; lia.
Qed.

Lemma findMany_pending take_ (tbl : Table) a :
  a ∈ prisma.findMany false take_ tbl -> a ∈ tbl /\ Article.isUpdated a = false.
Proof.
  intros Ha.
  assert (Hin : a ∈ List.filter (fun a => Bool.eqb (Article.isUpdated a) false) tbl).
  { unfold prisma.findMany in Ha. destruct take_ as [n|]; [|done].
    eapply elem_of_sublist; [exact Ha|apply sublist_take]. }
  apply list_elem_of_In, List.filter_In in Hin as [Hin Hflag].
  split; [by apply list_elem_of_In|]. by destruct (Article.isUpdated a).
Qed.

Section Progress.
Context {W Doc Sel : Type} `{Cheerio Doc Sel} (orc : Oracles W Doc) (cfg : Config).

Lemma enhanceOne_found article (s : Sys W) :
  unique_ids (db s) -> article ∈ db s ->
  (exists r s1,
      updatedContent r ≠ []
      /\ enhanceOne orc cfg article s
         = (Ok (prisma.applyUpdate (enhancement r) article),
            mkSys (env s1)
              (prisma.updateRow (Article.id article) (enhancement r) <$> db s)))
  \/ (exists error s1,
      enhanceOne orc cfg article s = (Throw error, s1) /\ db s1 = db s).
Proof.
  intros Huniq Hin.
  destruct (enhanceOne_outcome orc cfg article s)
    as [(refs & s0 & r & s1 & row & _ & _ & Hfind & Hr & _ & Hone)|Hthrow];
    [left|by right].
  rewrite (find_unique_row _ _ Huniq Hin) in Hfind. injection Hfind as <-.
  by exists r, s1.
Qed.

(** The batch loop on pending rows with distinct identifiers: every success
    leaves one pending row less. *)
Lemma enhanceEach_progress articles :
  forall t (s : Sys W),
    unique_ids (db s) ->
    NoDup (Article.id <$> articles) ->
    (forall a, a ∈ articles -> a ∈ db s /\ Article.isUpdated a = false) ->
    exists t' s' n,
      enhanceEach orc cfg articles t s = (Ok t', s')
      /\ successCount t' = (successCount t + n)%nat
      /\ failureCount t' = (failureCount t + (length articles - n))%nat
      /\ length (enhancedArticles t') = (length (enhancedArticles t) + n)%nat
      /\ (n <= length articles)%nat
      /\ (pending (db s') + n = pending (db s))%nat.
Proof.
  induction articles as [|a rest IH]; intros t s Huniq Hnd Hrows.
  - exists t, s, 0%nat. simpl. unfold ret. repeat split; lia.
  - rewrite fmap_cons in Hnd. apply NoDup_cons in Hnd as [Ha Hnd].
    destruct (Hrows a) as [Hin Hflag]; [by left|].
    destruct (enhanceOne_found a s Huniq Hin)
      as [(r & s1 & Hr & Hone)|(error & s1 & Hone & Hdb)].
    + rewrite (enhanceEach_cons _ _ _ _ _ _ _ _ (enhanceStep_ok _ _ _ _ _ _ _ Hone)).
      destruct (IH (tallySuccess t (prisma.applyUpdate (enhancement r) a))
                  (mkSys (env s1)
                     (prisma.updateRow (Article.id a) (enhancement r) <$> db s)))
        as (t' & s' & n & Hrun & Hs & Hf & He & Hn & Hpending).
      { unfold unique_ids. cbn [db]. by rewrite updateRow_ids. }
      { done. }
      { intros b Hb. destruct (Hrows b) as [Hbin Hbflag]; [by right|].
        split; [|done]. cbn [db]. apply updateRow_other; [done|].
        intros Heq. apply Ha. rewrite <- Heq. by apply list_elem_of_fmap_2. }
      cbn [db] in Hpending.
      pose proof (pending_enhancement (Article.id a) r (db s) a Huniq Hin eq_refl Hflag).
      exists t', s', (S n). split; [done|].
      cbn [tallySuccess successCount failureCount enhancedArticles] in Hs, Hf, He.
      rewrite length_app in He. simpl in He. simpl.
      repeat split; lia.
    + rewrite (enhanceEach_cons _ _ _ _ _ _ _ _ (enhanceStep_throw _ _ _ _ _ _ _ Hone)).
      destruct (IH (tallyFailure t) s1) as (t' & s' & n & Hrun & Hs & Hf & He & Hn & Hpending).
      { by rewrite Hdb. }
      { done. }
      { intros b Hb. rewrite Hdb. apply Hrows. by right. }
      exists t', s', n. split; [done|].
      cbn [tallyFailure successCount failureCount enhancedArticles] in Hs, Hf, He.
      rewrite Hdb in Hpending. simpl. repeat split; lia.
Qed.

(** One turn of the loop of the update script: a failure is counted and the
    table is as it was, or a success is counted and the row of the article
    is enhanced. *)
Lemma updateStep_outcome article successes failures (s : Sys W) :
  exists counts s',
    updateStep orc cfg article (successes, failures) s = (Ok counts, s')
    /\ ((counts = (successes, failures + 1)%nat /\ db s' = db s)
        \/ (exists r,
              updatedContent r ≠ []
              /\ counts = (successes + 1, failures)%nat
              /\ db s' = prisma.updateRow (Article.id article) (enhancement r) <$> db s)).
Proof.
  unfold updateStep, try_catch. unfold bind at 1.
  destruct (liftEnv (searchGoogle orc (Article.title article) 2) s)
    as [[results|e] s0] eqn:Hsearch; apply liftEnv_db in Hsearch;
    [|eexists _, _; split; [done|left; by rewrite Hsearch]].
  destruct (length results =? 0)%nat;
    [eexists _, _; split; [done|left; by rewrite Hsearch]|].
  unfold bind at 1.
  destruct (liftEnv (extractMultipleArticles orc (sr_url <$> results)) s0)
    as [[refs|e] s1] eqn:Hextract; apply liftEnv_db in Hextract;
    [|eexists _, _; split; [done|left; by rewrite Hextract, Hsearch]].
  destruct (length refs =? 0)%nat;
    [eexists _, _; split; [done|left; by rewrite Hextract, Hsearch]|].
  unfold bind at 1.
  destruct (liftEnv (rewriteArticle orc cfg (Article.title article)
              (Article.content article) refs) s1) as [[r|e] s2] eqn:Hrewrite.
  2:{ apply liftEnv_db in Hrewrite. eexists _, _. split; [done|]. left.
      by rewrite Hrewrite, Hextract, Hsearch. }
  assert (Hr : updatedContent r ≠ []).
  { unfold liftEnv in Hrewrite.
    destruct (rewriteArticle orc cfg _ _ refs (env s1)) as [r0 e'] eqn:Hrw.
    injection Hrewrite as -> _. by eapply rewriteArticle_returns. }
  apply liftEnv_db in Hrewrite.
  unfold bind at 1. unfold onDb.
  destruct (update_cases (Article.id article) (enhancement r) (db s2))
    as [(row & Hfind & ->)|(Hfind & ->)].
  - unfold bind, liftEnv, sleep, emit, modify, ask, ret. cbv beta iota.
    eexists _, _. split; [reflexivity|]. right. exists r. cbn [db].
    split; [done|]. split; [done|]. by rewrite Hrewrite, Hextract, Hsearch.
  - eexists _, _. split; [done|]. left. simpl. by rewrite Hrewrite, Hextract, Hsearch.
Qed.

Lemma updateEach_progress articles :
  forall successes failures (s : Sys W),
    unique_ids (db s) ->
    NoDup (Article.id <$> articles) ->
    (forall a, a ∈ articles -> a ∈ db s /\ Article.isUpdated a = false) ->
    exists n s',
      updateEach orc cfg articles (successes, failures) s
      = (Ok (successes + n, failures + (length articles - n))%nat, s')
      /\ (n <= length articles)%nat
      /\ (pending (db s') + n = pending (db s))%nat
      /\ Article.id <$> db s' = Article.id <$> db s.
Proof.
  induction articles as [|a rest IH]; intros successes failures s Huniq Hnd Hrows.
  - exists 0%nat, s. simpl. unfold ret. rewrite !Nat.add_0_r. repeat split; lia.
  - rewrite fmap_cons in Hnd. apply NoDup_cons in Hnd as [Ha Hnd].
    destruct (Hrows a) as [Hin Hflag]; [by left|].
    destruct (updateStep_outcome a successes failures s)
      as (counts & s1 & Hstep & [[-> Hdb]|(r & Hr & -> & Hdb)]).
    + destruct (IH successes (failures + 1)%nat s1) as (n & s' & Hrun & Hn & Hpending & Hids).
      { by rewrite Hdb. }
      { done. }
      { intros b Hb. rewrite Hdb. apply Hrows. by right. }
      exists n, s'. split.
      { cbn [updateEach]. rewrite (bind_ok _ _ _ _ _ Hstep), Hrun.
        do 3 f_equal. simpl. lia. }
      rewrite Hdb in Hpending, Hids. simpl. repeat split; [lia|lia|done].
    + destruct (IH (successes + 1)%nat failures s1) as (n & s' & Hrun & Hn & Hpending & Hids).
      { unfold unique_ids. by rewrite Hdb, updateRow_ids. }
      { done. }
      { intros b Hb. destruct (Hrows b) as [Hbin Hbflag]; [by right|].
        split; [|done]. rewrite Hdb. apply updateRow_other; [done|].
        intros Heq. apply Ha. rewrite <- Heq. by apply list_elem_of_fmap_2. }
      pose proof (pending_enhancement (Article.id a) r (db s) a Huniq Hin eq_refl Hflag).
      exists (S n), s'. split.
      { cbn [updateEach]. rewrite (bind_ok _ _ _ _ _ Hstep), Hrun.
        do 3 f_equal; simpl; lia. }
      rewrite Hdb in Hpending, Hids. rewrite updateRow_ids in Hids.
      simpl. repeat split; [lia|lia|done].
Qed.

Lemma batch_pending take_ (tbl : Table) :
  unique_ids tbl ->
  NoDup (Article.id <$> prisma.findMany false take_ tbl)
  /\ (forall a, a ∈ prisma.findMany false take_ tbl ->
        a ∈ tbl /\ Article.isUpdated a = false).
Proof.
  intros Huniq. split; [|intros a; apply findMany_pending].
  exact (sublist_NoDup _ _ Huniq (fmap_sublist Article.id _ _ (findMany_sublist false take_ tbl))).
Qed.

End Progress.

(** X8.  The single-article endpoint always answers.  For an identifier
    that is not stored it hands the 404 error to the error middleware and
    the state is as it was.  When it hands over any error, the table is
    unchanged.  Otherwise it answers 200 with the enhanced row, which is
    stored: the identifier, the title, the content, the author, the date and
    the source URL are those of the row before, [isUpdated] is set, the
    enhanced content is not empty, and every row with another identifier is
    as it was. *)
Theorem enhanceArticleById_outcome :
  forall (W Doc Sel : Type) (C : Cheerio Doc Sel) (orc : Oracles W Doc)
         (cfg : Config) (id : jsstring) (s : Sys W),
    exists reply s',
      enhanceArticleById orc cfg id s = (Ok reply, s')
      /\ Article.id <$> db s' = Article.id <$> db s
      /\ (prisma.findUnique_id id (db s) = None ->
          reply = ReplyNext articleNotFound /\ s' = s)
      /\ ((exists error, reply = ReplyNext error /\ db s' = db s)
          \/ (exists row after text,
                prisma.findUnique_id id (db s) = Some row
                /\ reply = ReplyArticle 200 MsgArticleEnhanced after
                /\ after ∈ db s'
                /\ sameOriginal row after
                /\ Article.isUpdated after = true
                /\ Article.updatedContent after = Some text
                /\ text ≠ []
                /\ Forall2 (fun before now => Article.id before ≠ id -> now = before)
                     (db s) (db s'))).
Proof.
  intros W Doc Sel C orc cfg id s.
  unfold enhanceArticleById, try_catch. unfold bind at 1, readDb at 1. cbv beta iota.
  destruct (prisma.findUnique_id id (db s)) as [article|] eqn:Hfind.
  2:{ eexists _, _. unfold throw, ret. split; [reflexivity|]. split; [done|].
      split; [done|]. left. by eexists. }
  destruct (find_id_some _ _ _ Hfind) as [Hin Hid].
  destruct (enhanceOne_outcome orc cfg article s)
    as [(refs & s0 & r & s1 & row & _ & _ & Hrow & Hr & _ & Hone)
       |(error & s1 & Hone & Hdb)].
  - rewrite Hid, Hfind in Hrow. injection Hrow as <-.
    rewrite (bind_ok _ _ _ _ _ Hone). unfold ret.
    eexists _, _. split; [reflexivity|]. cbn [db].
    rewrite Hid. split; [apply updateRow_ids|]. split; [done|]. right.
    exists article, (prisma.applyUpdate (enhancement r) article), (updatedContent r).
    split; [done|]. split; [done|]. split; [by apply updateRow_same|].
    split; [by repeat split|]. split; [done|]. split; [done|]. split; [done|].
    apply updateRow_others.
  - rewrite (bind_throw _ _ _ _ _ Hone). unfold ret.
    eexists _, _. split; [reflexivity|]. rewrite Hdb. split; [done|].
    split; [done|]. left. by eexists.
Qed.

(** X9.  When no row is pending, the batch endpoint answers that no
    article needs enhancement and the update script reports no success and
    no failure; neither calls a service or changes the state. *)
Theorem nothing_pending_nothing_done :
  forall (W Doc Sel : Type) (C : Cheerio Doc Sel) (orc : Oracles W Doc)
         (cfg : Config) (s : Sys W),
    pending (db s) = 0%nat ->
    enhanceArticles orc cfg s
    = (Ok (ReplyArticles 200 MsgNoArticlesNeedEnhancement 0 []), s)
    /\ updateMain orc cfg s = (Ok (0, 0)%nat, s).
Proof.
  intros W Doc Sel C orc cfg s Hnone.
  unfold pending in Hnone. apply nil_length_inv in Hnone.
  assert (Hbatch : prisma.findMany false (Some 5%nat) (db s) = []).
  { unfold prisma.findMany in *. by rewrite Hnone. }
  split.
  - unfold enhanceArticles, try_catch, bind, readDb. by rewrite Hbatch.
  - unfold updateMain, bind, readDb. by rewrite Hnone.
Qed.

(** A table whose only article is enhanced. *)
Lemma nothing_pending_nothing_done_witness :
  let s := server [published "a1"] [Ok betterText] in
  enhanceArticles Scripted.oracles Scripted.geminiOnly s
  = (Ok (ReplyArticles 200 MsgNoArticlesNeedEnhancement 0 []), s)
  /\ updateMain Scripted.oracles Scripted.geminiOnly s = (Ok (0, 0)%nat, s).
Proof.
  intros s.
  apply (nothing_pending_nothing_done _ _ _ Dom.cheerio Scripted.oracles
           Scripted.geminiOnly s).
  vm_compute. reflexivity.
Defined.

(** X10.  On a table with distinct identifiers the update script processes
    every pending row, with no bound on their number: the successes and the
    failures it reports add up to the number of pending rows, each success
    leaves one pending row less, so that the rows still pending afterwards are
    as many as the failures, and the identifiers are unchanged. *)
Theorem updateMain_progress :
  forall (W Doc Sel : Type) (C : Cheerio Doc Sel) (orc : Oracles W Doc)
         (cfg : Config) (s : Sys W),
    unique_ids (db s) ->
    exists successes failures s',
      updateMain orc cfg s = (Ok (successes, failures), s')
      /\ (successes + failures = pending (db s))%nat
      /\ pending (db s') = failures
      /\ Article.id <$> db s' = Article.id <$> db s.
Proof.
  intros W Doc Sel C orc cfg s Huniq.
  destruct (batch_pending None (db s) Huniq) as [Hnd Hrows].
  destruct (updateEach_progress orc cfg (prisma.findMany false None (db s)) 0 0 s
              Huniq Hnd Hrows) as (n & s' & Hrun & Hn & Hpending & Hids).
  fold (pending (db s)) in Hrun, Hn.
  unfold updateMain, bind, readDb.
  destruct (length (prisma.findMany false None (db s)) =? 0)%nat eqn:Hempty.
  - apply Nat.eqb_eq in Hempty. exists 0%nat, 0%nat, s. unfold ret.
    unfold pending. rewrite Hempty. done.
  - rewrite Hrun. eexists _, _, _. split; [reflexivity|]. simpl.
    split; [lia|]. split; [lia|done].
Qed.

(** One pending row, on a site whose search finds a page to extract. *)
Lemma updateMain_progress_witness :
  let s := citingServer in
  exists successes failures s',
    updateMain Scripted.oracles Scripted.geminiOnly s = (Ok (successes, failures), s')
    /\ (successes + failures = pending (db s))%nat
    /\ pending (db s') = failures
    /\ Article.id <$> db s' = Article.id <$> db s.
Proof.
  intros s.
  apply (updateMain_progress _ _ _ Dom.cheerio Scripted.oracles Scripted.geminiOnly s).
  apply (bool_decide_unpack _). vm_compute. reflexivity.
Defined.

(** X11.  On a table with distinct identifiers the batch endpoint takes at
    most five pending rows, and every article it reports as enhanced leaves one
    pending row less. *)
Theorem enhanceArticles_progress :
  forall (W Doc Sel : Type) (C : Cheerio Doc Sel) (orc : Oracles W Doc)
         (cfg : Config) (s : Sys W),
    unique_ids (db s) ->
    exists reply s',
      enhanceArticles orc cfg s = (Ok reply, s')
      /\ (length (replyArticles (Ok reply)) <= 5)%nat
      /\ (pending (db s') + length (replyArticles (Ok reply)) = pending (db s))%nat.
Proof.
  intros W Doc Sel C orc cfg s Huniq.
  destruct (batch_pending (Some 5%nat) (db s) Huniq) as [Hnd Hrows].
  assert (Hfive : (length (prisma.findMany false (Some 5%nat) (db s)) <= 5)%nat).
  { unfold prisma.findMany. rewrite length_take. lia. }
  destruct (enhanceEach_progress orc cfg (prisma.findMany false (Some 5%nat) (db s))
              emptyTally s Huniq Hnd Hrows)
    as (t' & s' & n & Hrun & Hs & Hf & He & Hn & Hpending).
  unfold enhanceArticles, try_catch, bind, readDb.
  destruct (length (prisma.findMany false (Some 5%nat) (db s)) =? 0)%nat eqn:Hempty.
  - apply Nat.eqb_eq, nil_length_inv in Hempty. rewrite Hempty in Hrun, Hn.
    simpl in Hrun, Hn. unfold ret in Hrun. injection Hrun as _ <-.
    exists (ReplyArticles 200 MsgNoArticlesNeedEnhancement 0 []), s.
    unfold ret. split; [done|]. simpl. split; lia.
  - rewrite Hrun. unfold ret. eexists _, _. split; [reflexivity|].
    cbn [replyArticles]. simpl in He. rewrite He. split; lia.
Qed.

(** Five pending rows; the rewrite of the third fails. *)
Lemma enhanceArticles_progress_witness :
  let s := server fiveDrafts thirdFails in
  exists reply s',
    enhanceArticles Scripted.oracles Scripted.geminiOnly s = (Ok reply, s')
    /\ (length (replyArticles (Ok reply)) <= 5)%nat
    /\ (pending (db s') + length (replyArticles (Ok reply)) = pending (db s))%nat.
Proof.
  intros s.
  apply (enhanceArticles_progress _ _ _ Dom.cheerio Scripted.oracles
           Scripted.geminiOnly s).
  apply (bool_decide_unpack _). vm_compute. reflexivity.
Defined.

(** ** The language-model service *)

Section Backends.
Context {W Doc : Type} (orc : Oracles W Doc) (cfg : Config).

Lemma imap_ext_Forall2 {A B} (R : A -> A -> Prop) (f : nat -> A -> B) (l k : list A) :
  (forall i a b, R a b -> f i a = f i b) -> Forall2 R l k -> imap f l = imap f k.
Proof.
  intros Hf Hlk. revert f Hf. induction Hlk as [|a b l k Hab _ IH]; intros f Hf; [done|].
  cbn [imap]. f_equal; [by apply Hf|]. apply IH. intros i x y Hxy. by apply Hf.
Qed.

Lemma buildPrompt_2000 title content refs refs' :
  Forall2 sameUpTo2000 refs refs' ->
  buildPrompt title content refs = buildPrompt title content refs'.
Proof.
  intros Hrefs. unfold buildPrompt, referencesText.
  rewrite (imap_ext_Forall2 sameUpTo2000 referenceText refs refs'); [done| |done].
  intros i a b (Htitle & Hurl & Hcontent). unfold referenceText.
  by rewrite Htitle, Hurl, Hcontent.
Qed.

Lemma urls_2000 refs refs' :
  Forall2 sameUpTo2000 refs refs' -> ec_url <$> refs = ec_url <$> refs'.
Proof.
  induction 1 as [|a b l k (_ & Hurl & _) _ IH]; [done|].
  rewrite !fmap_cons. by rewrite Hurl, IH.
Qed.

Lemma rewriteArticle_openai title content refs (e : Env W) :
  routedToOpenAI cfg ->
  rewriteArticle orc cfg title content refs e
  = let prompt := buildPrompt title content refs in
    let '(answer, w') := openai_create orc systemMessage prompt (world e) in
    (match answer with
     | Ok response =>
         if truthy (default [] response) then
           Ok {| updatedContent := default [] response;
                 references := ec_url <$> refs |}
         else Throw emptyContent
     | Throw error => Throw error
     end,
     mkEnv w' (trace e ++ [EvChat prompt])).
Proof.
  unfold routedToOpenAI. intros Hroute. unfold rewriteArticle.
  rewrite try_catch_rethrow, Hroute.
  assert (env_set (env_OPENAI_API_KEY cfg) = true) as ->
    by (by apply andb_true_iff in Hroute as [? _]).
  cbn [negb andb]. cbv zeta.
  cbv beta iota delta [bind emit modify ask ret throw]. cbn [world trace].
  destruct (openai_create orc systemMessage (buildPrompt title content refs) (world e))
    as [[response|error] w']; [|done].
  rewrite or_else_nil.
  by destruct (truthy (default [] response)).
Qed.

End Backends.

(** X12.  When the primary backend is usable, a rewrite calls it exactly
    once and calls nothing else, whether or not the secondary backend is
    configured: the trace grows by this one call.  An answer with content is
    returned with the URLs of the reference articles; an answer without
    content makes the rewrite throw the empty-content error; an error of the
    backend, a rate limit included, is thrown on as it is, with no cooldown
    and no second attempt. *)
Theorem primary_backend_single_call :
  forall (W Doc : Type) (orc : Oracles W Doc) (cfg : Config)
         (title content : jsstring) (refs : list ExtractedContent) (e : Env W),
    routedToOpenAI cfg ->
    let prompt := buildPrompt title content refs in
    let '(answer, w') := openai_create orc systemMessage prompt (world e) in
    rewriteArticle orc cfg title content refs e
    = (match answer with
       | Ok response =>
           if truthy (default [] response) then
             Ok {| updatedContent := default [] response;
                   references := ec_url <$> refs |}
           else Throw emptyContent
       | Throw error => Throw error
       end,
       mkEnv w' (trace e ++ [EvChat prompt])).
Proof.
  intros W Doc orc cfg title content refs e Hroute.
  cbv zeta. rewrite (rewriteArticle_openai orc cfg title content refs e Hroute).
  cbv zeta.
  by destruct (openai_create orc systemMessage (buildPrompt title content refs) (world e)).
Qed.

(** Both backends are configured; the primary one signals a rate limit. *)
Lemma primary_backend_single_call_witness :
  rewriteArticle Scripted.oracles bothBackends sampleTitle sampleContent []
    (chatEnv [Throw Scripted.tooManyRequests; Ok (Some betterText)])
  = (Throw Scripted.tooManyRequests,
     mkEnv (Scripted.mkWorld [] None [] [Ok (Some betterText)] 0)
       [EvChat (buildPrompt sampleTitle sampleContent [])]).
Proof.
  apply (primary_backend_single_call _ _ Scripted.oracles bothBackends
           sampleTitle sampleContent []
           (chatEnv [Throw Scripted.tooManyRequests; Ok (Some betterText)])).
  vm_compute. reflexivity.
Defined.

(** X13.  The prompt reads the title, the URL and the first 2000 code units
    of the content of each reference article, and nothing else of it: two
    lists of reference articles that agree on these give the same prompt, and
    a rewrite with one behaves exactly as a rewrite with the other. *)
Theorem prompt_reads_2000 :
  forall (W Doc : Type) (orc : Oracles W Doc) (cfg : Config)
         (title content : jsstring) (refs refs' : list ExtractedContent)
         (e : Env W),
    Forall2 sameUpTo2000 refs refs' ->
    buildPrompt title content refs = buildPrompt title content refs'
    /\ rewriteArticle orc cfg title content refs e
       = rewriteArticle orc cfg title content refs' e.
Proof.
  intros W Doc orc cfg title content refs refs' e Hrefs.
  pose proof (buildPrompt_2000 title content refs refs' Hrefs) as Hprompt.
  split; [done|]. unfold rewriteArticle.
  by rewrite Hprompt, (urls_2000 refs refs' Hrefs).
Qed.

(** Two reference articles that differ after their first 2000 code units. *)
Lemma prompt_reads_2000_witness :
  let e := freshEnv [Ok betterText] in
  buildPrompt sampleTitle sampleContent [longReference "first ending"]
  = buildPrompt sampleTitle sampleContent [longReference "another ending"]
  /\ rewriteArticle Scripted.oracles Scripted.geminiOnly sampleTitle sampleContent
       [longReference "first ending"] e
     = rewriteArticle Scripted.oracles Scripted.geminiOnly sampleTitle sampleContent
         [longReference "another ending"] e.
Proof.
  intros e.
  apply (prompt_reads_2000 _ _ Scripted.oracles Scripted.geminiOnly
           sampleTitle sampleContent
           [longReference "first ending"] [longReference "another ending"] e).
  constructor; [|constructor]. vm_compute. repeat split.
Defined.

(** X14.  Generating a summary never throws and calls a backend at most
    once.  With the primary backend usable it calls this one only; otherwise,
    with the secondary backend usable, that one; with neither it returns the
    empty string without any call and leaves the environment as it is.  An
    error of the backend called gives the empty string, and nothing is
    retried. *)
Theorem generateSummary_never_throws :
  forall (W Doc : Type) (orc : Oracles W Doc) (cfg : Config)
         (content : jsstring) (maxLength : Z) (e : Env W),
    let prompt := summaryPrompt content maxLength in
    exists text e',
      generateSummary orc cfg content maxLength e = (Ok text, e')
      /\ if env_set (env_OPENAI_API_KEY cfg) && openai cfg then
           trace e' = trace e ++ [EvChat prompt]
           /\ world e' = snd (openai_create orc summarySystemMessage prompt (world e))
           /\ text = match fst (openai_create orc summarySystemMessage prompt (world e)) with
                     | Ok (Some answer) => answer
                     | _ => []
                     end
         else if env_set (env_GEMINI_API_KEY cfg) && genAI cfg then
           trace e' = trace e ++ [EvGenerate prompt]
           /\ world e' = snd (gemini_generateContent orc prompt (world e))
           /\ text = match fst (gemini_generateContent orc prompt (world e)) with
                     | Ok answer => answer
                     | Throw _ => []
                     end
         else text = [] /\ e' = e.
Proof.
  intros W Doc orc cfg content maxLength e prompt.
  unfold generateSummary. fold prompt. cbv zeta.
  destruct (env_set (env_OPENAI_API_KEY cfg) && openai cfg).
  - cbv beta iota delta [try_catch bind emit modify ask ret]. cbn [world trace].
    destruct (openai_create orc summarySystemMessage prompt (world e))
      as [[response|error] w']; cbn [fst snd].
    + eexists _, _. split; [reflexivity|]. cbn [world trace].
      split; [done|]. split; [done|]. rewrite or_else_nil. by destruct response.
    + eexists _, _. split; [reflexivity|]. done.
  - destruct (env_set (env_GEMINI_API_KEY cfg) && genAI cfg).
    + cbv beta iota delta [try_catch bind emit modify ask ret]. cbn [world trace].
      destruct (gemini_generateContent orc prompt (world e))
        as [[answer|error] w']; cbn [fst snd];
        eexists _, _; (split; [reflexivity|]); done.
    + eexists _, _. split; [reflexivity|]. done.
Qed.

(** ** What the services return, whatever the pages *)

Lemma falsy_or_chain (a b : option jsstring) :
  (forall t, b = Some t -> t ≠ []) ->
  forall s, falsy_or a b = Some s -> s ≠ [].
Proof.
  intros Hb s. unfold falsy_or. destruct a as [t|]; [|apply Hb].
  destruct t as [|c t]; simpl; [apply Hb|]. by intros [= <-].
Qed.

Lemma default_chain (d : jsstring) (a : option jsstring) :
  d ≠ [] -> (forall s, a = Some s -> s ≠ []) -> default d a ≠ [].
Proof. intros Hd Ha. destruct a as [s|]; simpl; [by apply Ha|done]. Qed.

Lemma slice_to_sublist {A} (n : Z) (l : list A) : slice_to n l `sublist_of` l.
Proof. unfold slice_to. destruct (n <? 0); apply sublist_take. Qed.

Lemma keptResult_url element r : keptResult element = Some r -> keptUrl (sr_url r).
Proof.
  unfold keptResult, keptUrl.
  destruct (linkElement element) as [url|]; [|done].
  destruct (titleElement element) as [heading|]; [|done].
  destruct (startsWith (js "http") url) eqn:Hhttp; [|done].
  destruct (isExcluded url) eqn:Hex; [done|]. simpl. by intros [= <-].
Qed.

Section Services.
Context {W Doc Sel : Type} `{Cheerio Doc Sel} (orc : Oracles W Doc) (cfg : Config).

(** Whatever happens, a search that returns has results of kept elements
    only, at most [numResults] of them when this is not negative, and visits
    at most the one search page. *)
Lemma searchGoogle_outcome query numResults (e : Env W) :
  match searchGoogle orc query numResults e with
  | (Ok results, e') =>
      (results = []
       \/ exists elements, results = slice_to numResults (omap keptResult elements))
      /\ Forall (fun r => keptUrl (sr_url r)) results
      /\ (0 <= numResults -> Z.of_nat (length results) <= numResults)
  | (Throw _, _) => True
  end.
Proof.
  assert (Hslice : forall elements,
            Forall (fun r => keptUrl (sr_url r))
              (slice_to numResults (omap keptResult elements))
            /\ (0 <= numResults ->
                Z.of_nat (length (slice_to numResults (omap keptResult elements)))
                <= numResults)).
  { intros elements. split.
    - apply Forall_forall. intros r Hr.
      pose proof (elem_of_sublist _ _ _ Hr (slice_to_sublist _ _)) as Hin.
      apply list_elem_of_omap in Hin as (el & _ & Hkept).
      by eapply keptResult_url.
    - intros Hn. rewrite slice_to_take by done. rewrite length_take. lia. }
  unfold searchGoogle, with_browser.
  cbv beta iota zeta delta
    [ask try_finally try_catch bind emit modify ret throw closeBrowser].
  destruct (puppeteer_launch orc (world e)) as [[[]|error] w1]; cbn [world trace]; [|done].
  destruct (browser_newPage orc w1) as [[[]|error] w2]; cbn [world trace]; [|done].
  destruct (encodeURIComponent orc query) as [encoded|error]; cbn [world trace]; [|done].
  destruct (page_goto orc _ resultsContainer w2) as [[[]|error] w3];
    cbn [world trace negb fst].
  - destruct (page_resultElements orc w3) as [[elements|error] w4]; [|done].
    rewrite scanResults_kept. destruct (Hslice elements) as [Hkept Hlen].
    split; [right; by exists elements|]. done.
  - split; [by left|]. split; [constructor|]. simpl. lia.
Qed.

(** Whatever the page, an extraction returns [null] or a well-formed
    reference article of this URL, and visits at most this one page. *)
Lemma extractArticleContent_outcome url (e : Env W) :
  exists r e',
    extractArticleContent orc url e = (Ok r, e')
    /\ (trace e' = trace e \/ trace e' = trace e ++ [EvFetch url])
    /\ match r with
       | Some c => ec_url c = url /\ wellExtracted c
       | None => True
       end.
Proof.
  unfold extractArticleContent, with_browser.
  cbv beta iota zeta delta
    [ask try_finally try_catch bind emit modify ret throw closeBrowser].
  destruct (puppeteer_launch orc (world e)) as [[[]|error] w1]; cbn [world trace];
    [|eexists _, _; split; [reflexivity|]; split; [by left|done]].
  destruct (browser_newPage orc w1) as [[[]|error] w2]; cbn [world trace];
    [|eexists _, _; split; [reflexivity|]; split; [by left|done]].
  destruct (page_goto orc url _ w2) as [[[]|error] w3]; cbn [world trace];
    [|eexists _, _; split; [reflexivity|]; split; [by right|done]].
  destruct (page_content orc w3) as [[doc|error] w4]; cbn [world trace];
    [|eexists _, _; split; [reflexivity|]; split; [by right|done]].
  destruct (negb (truthy (cleanContent (extractBody doc)))
            || (length (cleanContent (extractBody doc)) <? 100)%nat) eqn:Hshort;
    [eexists _, _; split; [reflexivity|]; split; [by right|done]|].
  eexists _, _. split; [reflexivity|]. split; [by right|]. cbn [trace].
  split; [done|]. apply orb_false_iff in Hshort as [_ Hlen]. apply Nat.ltb_ge in Hlen.
  destruct (cleanContent_parts (extractBody doc)) as (Hctl & Hplain & Hstart & Hend & _).
  unfold wellExtracted. cbn [ec_title ec_content].
  split; [|done].
  unfold extractTitle. apply default_chain; [done|].
  repeat (apply falsy_or_chain; try (intros t [= <-]; done)).
Qed.

Lemma extractEach_outcome urls :
  forall results (e : Env W),
    exists new e' events,
      extractEach orc urls results e = (Ok (results ++ new), e')
      /\ ec_url <$> new `sublist_of` urls
      /\ Forall wellExtracted new
      /\ trace e' = trace e ++ events
      /\ events `sublist_of` EvFetch <$> urls.
Proof.
  induction urls as [|url rest IH]; intros results e.
  - exists [], e, []. simpl. unfold ret. rewrite !app_nil_r. by repeat split.
  - destruct (extractArticleContent_outcome url e) as (r & e1 & Hone & Htrace & Hr).
    assert (exists results1 new1,
              try_catch
                (content <- extractArticleContent orc url ;;
                 match content with
                 | Some c => ret (results ++ [c])
                 | None => ret results
                 end)
                (fun _ => ret results) e = (Ok results1, e1)
              /\ results1 = results ++ new1
              /\ ec_url <$> new1 `sublist_of` [url]
              /\ Forall wellExtracted new1) as (results1 & new1 & Hstep & -> & Hsub1 & Hwf1).
    { unfold try_catch. rewrite (bind_ok _ _ _ _ _ Hone). destruct r as [c|]; unfold ret.
      - exists (results ++ [c]), [c]. destruct Hr as [Hurl Hc].
        split; [done|]. split; [done|]. split; [simpl; by rewrite Hurl|]. by constructor.
      - exists results, []. rewrite app_nil_r. split; [done|]. split; [done|].
        split; [apply sublist_nil_l|constructor]. }
    destruct (IH (results ++ new1) e1) as (new & e' & events & Hrun & Hsub & Hwf & Hev & Hevs).
    assert (Hall : extractEach orc (url :: rest) results e
                   = (Ok (results ++ new1 ++ new), e')).
    { cbn [extractEach]. by rewrite (bind_ok _ _ _ _ _ Hstep), Hrun, app_assoc. }
    assert (Hsubs : ec_url <$> new1 ++ new `sublist_of` url :: rest).
    { rewrite fmap_app. change (url :: rest) with ([url] ++ rest). by apply sublist_app. }
    destruct Htrace as [Ht|Ht].
    + exists (new1 ++ new), e', events. split; [done|]. split; [done|].
      split; [by apply Forall_app|]. split; [by rewrite Hev, Ht|].
      rewrite fmap_cons. by apply sublist_cons.
    + exists (new1 ++ new), e', (EvFetch url :: events). split; [done|]. split; [done|].
      split; [by apply Forall_app|]. split; [by rewrite Hev, Ht, <- app_assoc|].
      rewrite fmap_cons. by apply sublist_skip.
Qed.

(** The reference articles of an enhancement come from at most two kept
    search results. *)
Lemma findReferences_outcome title (s s' : Sys W) refs :
  findReferences orc title s = (Ok refs, s') ->
  (length refs <= 2)%nat
  /\ Forall (fun c => keptUrl (ec_url c)) refs
  /\ Forall wellExtracted refs.
Proof.
  unfold findReferences. unfold bind at 1. unfold liftEnv at 1.
  pose proof (searchGoogle_outcome title 2 (env s)) as Hsearch.
  destruct (searchGoogle orc title 2 (env s)) as [[results|error] e1]; [|discriminate].
  destruct Hsearch as (_ & Hkept & Hlen). specialize (Hlen ltac:(lia)).
  destruct (0 <? length results)%nat.
  - unfold liftEnv, extractMultipleArticles. cbn [env db].
    destruct (extractEach_outcome (sr_url <$> results) [] e1)
      as (new & e' & events & Hrun & Hsub & Hwf & _).
    rewrite Hrun. intros [= <- _]. simpl.
    assert (Hurls : forall u, u ∈ ec_url <$> new -> keptUrl u).
    { intros u Hu. pose proof (elem_of_sublist _ _ _ Hu Hsub) as Hin.
      apply list_elem_of_fmap in Hin as (r & -> & Hr).
      by apply (proj1 (Forall_forall _ _) Hkept). }
    split; [|split; [|done]].
    + apply sublist_length in Hsub. rewrite !length_fmap in Hsub. lia.
    + apply Forall_forall. intros c Hc. apply Hurls. by apply list_elem_of_fmap_2.
  - unfold ret. intros [= <- _]. simpl. split; [lia|]. split; constructor.
Qed.

End Services.

(** X15.  Extracting a list of reference articles never throws.  The
    results follow the order of the URLs, at most one for each URL; each has a
    title and a content of at least 100 code units without control characters,
    whose only white space is the plain space, and which neither begins nor
    ends with white space.  The pages visited are, in order, at most one for
    each URL. *)
Theorem extractMultipleArticles_shape :
  forall (W Doc Sel : Type) (C : Cheerio Doc Sel) (orc : Oracles W Doc)
         (urls : list jsstring) (e : Env W),
    exists results e' events,
      extractMultipleArticles orc urls e = (Ok results, e')
      /\ ec_url <$> results `sublist_of` urls
      /\ Forall wellExtracted results
      /\ trace e' = trace e ++ events
      /\ events `sublist_of` EvFetch <$> urls.
Proof.
  intros W Doc Sel C orc urls e. unfold extractMultipleArticles.
  destruct (extractEach_outcome orc urls [] e) as (new & e' & events & Hrun & Hrest).
  by exists new, e', events.
Qed.

(** X16.  Whatever happens, a search that returns has only results whose
    URL starts with [http] and contains no excluded domain.  It returns the
    empty list or a part of the kept results of one page, cut at
    [numResults]: at most [numResults] of them when this is not negative,
    none when it is 0. *)
Theorem search_results_always_kept :
  forall (W Doc : Type) (orc : Oracles W Doc) (query : jsstring)
         (numResults : Z) (e : Env W),
    match searchGoogle orc query numResults e with
    | (Ok results, e') =>
        (results = []
         \/ exists elements,
              results = slice_to numResults (omap keptResult elements))
        /\ Forall (fun r => keptUrl (sr_url r)) results
        /\ (0 <= numResults -> Z.of_nat (length results) <= numResults)
        /\ (numResults = 0 -> results = [])
    | (Throw _, _) => True
    end.
Proof.
  intros W Doc orc query numResults e.
  pose proof (searchGoogle_outcome orc query numResults e) as Hsearch.
  destruct (searchGoogle orc query numResults e) as [[results|error] e']; [|done].
  destruct Hsearch as (Hshape & Hkept & Hlen).
  split; [done|]. split; [done|]. split; [done|].
  intros ->. specialize (Hlen ltac:(lia)). destruct results; [done|simpl in Hlen; lia].
Qed.

(** X17.  An article that an enhancement returns cites at most two
    references, each a URL that starts with [http] and contains no excluded
    domain, and it has the identifier of the article that was enhanced. *)
Theorem enhancement_cites_search_results :
  forall (W Doc Sel : Type) (C : Cheerio Doc Sel) (orc : Oracles W Doc)
         (cfg : Config) (article updated : Article.t) (s s' : Sys W),
    enhanceOne orc cfg article s = (Ok updated, s') ->
    (length (Article.references updated) <= 2)%nat
    /\ Forall keptUrl (Article.references updated)
    /\ Article.id updated = Article.id article.
Proof.
  intros W Doc Sel C orc cfg article updated s s' Hrun.
  destruct (enhanceOne_outcome orc cfg article s)
    as [(refs & s0 & r & s1 & row & Hrefs & _ & Hfind & _ & Hurls & Hone)
       |(error & s1 & Hone & _)]; rewrite Hone in Hrun; [|discriminate].
  injection Hrun as <- _. cbn [prisma.applyUpdate enhancement Article.references
    Article.id u_references default]. rewrite Hurls. unfold id.
  destruct (findReferences_outcome orc _ _ _ _ Hrefs) as (Hlen & Hkept & _).
  split; [by rewrite length_fmap|]. split.
  - apply Forall_fmap. eapply Forall_impl; [exact Hkept|]. done.
  - by destruct (find_id_some _ _ _ Hfind).
Qed.

(** The search for the sample title finds a video and three pages, of which
    the first two are taken and one is long enough to be extracted. *)
Lemma enhancement_cites_search_results_witness :
  let run := enhanceOne Scripted.oracles Scripted.geminiOnly sampleArticle citingServer in
  exists updated,
    fst run = Ok updated
    /\ Article.references updated = [js "https://example.org/100"]
    /\ (length (Article.references updated) <= 2)%nat
    /\ Forall keptUrl (Article.references updated)
    /\ Article.id updated = Article.id sampleArticle.
Proof.
  intros run.
  assert (Hrun : exists updated s',
            enhanceOne Scripted.oracles Scripted.geminiOnly sampleArticle citingServer
            = (Ok updated, s')
            /\ Article.references updated = [js "https://example.org/100"]).
  { vm_compute. eexists _, _. split; reflexivity. }
  destruct Hrun as (updated & s' & Hrun & Hrefs).
  exists updated. split; [unfold run; by rewrite Hrun|]. split; [done|].
  exact (enhancement_cites_search_results _ _ _ Dom.cheerio Scripted.oracles
           Scripted.geminiOnly sampleArticle updated citingServer s' Hrun).
Defined.

(** ** The scraper *)

Section ScraperMore.
Context {W Doc Sel : Type} `{Cheerio Doc Sel} (orc : Oracles W Doc) (cfg : Config).

Lemma scrapeLoop_trimmed selectors :
  forall (doc0 : Doc) content,
    starts_clean content /\ ends_clean content ->
    starts_clean (snd (scrapeLoop doc0 selectors content))
    /\ ends_clean (snd (scrapeLoop doc0 selectors content)).
Proof.
  induction selectors as [|selector rest IH]; intros doc0 content Hcontent; [done|].
  cbn [scrapeLoop]. cbv zeta.
  destruct (0 <? sel_length (query doc0 selector))%nat; [|by apply IH].
  destruct (100 <? length _)%nat; [apply trim_clean|]. apply IH, trim_clean.
Qed.

(** Whatever the page, scraping one article returns [null] or a well-formed
    article of this URL, and visits this one page. *)
Lemma scrapeArticleContent_outcome url (e : Env W) :
  exists r e',
    scrapeArticleContent orc url e = (Ok r, e')
    /\ trace e' = trace e ++ [EvFetch url]
    /\ match r with
       | Some a => sa_originalUrl a = url /\ wellScraped a
       | None => True
       end.
Proof.
  unfold scrapeArticleContent.
  cbv beta iota zeta delta [ask try_catch bind emit modify ret throw].
  cbn [world trace].
  destruct (page_goto orc url _ (world e)) as [[[]|error] w1]; cbn [world trace];
    [|eexists _, _; split; [reflexivity|]; split; done].
  destruct (page_content orc w1) as [[doc|error] w2]; cbn [world trace];
    [|eexists _, _; split; [reflexivity|]; split; done].
  pose proof (scrapeLoop_trimmed scrapeSelectors doc [] (conj I I)) as Htrim.
  destruct (scrapeLoop doc scrapeSelectors []) as [doc1 content].
  cbn [snd] in Htrim. destruct Htrim as [Hstart Hend].
  destruct (negb (truthy content) || (length content <? 50)%nat) eqn:Hshort;
    [eexists _, _; split; [reflexivity|]; split; done|].
  eexists _, _. split; [reflexivity|]. split; [done|]. split; [done|].
  apply orb_false_iff in Hshort as [_ Hlen]. apply Nat.ltb_ge in Hlen.
  unfold wellScraped. cbn [sa_title sa_content sa_author].
  split; [|split; [done|split; [done|split; [done|]]]].
  - apply default_chain; [done|].
    repeat (apply falsy_or_chain; try (intros t [= <-]; done)).
  - intros Hauthor. revert Hauthor.
    match goal with
    | |- ?a = Some [] -> False =>
        intros Hauthor; assert (Hne : forall s, a = Some s -> s ≠ [])
    end.
    { repeat (apply falsy_or_chain; try done). }
    by apply (Hne [] Hauthor).
Qed.

Lemma scrapeEach_outcome urls :
  forall articles (e : Env W),
    exists new e',
      scrapeEach orc urls articles e = (Ok (articles ++ new), e')
      /\ sa_originalUrl <$> new `sublist_of` urls
      /\ Forall wellScraped new
      /\ trace e' = trace e ++ (EvFetch <$> urls).
Proof.
  induction urls as [|url rest IH]; intros articles e.
  - exists [], e. simpl. unfold ret. rewrite !app_nil_r. by repeat split.
  - destruct (scrapeArticleContent_outcome url e) as (r & e1 & Hone & Htrace & Hr).
    assert (exists articles1 new1,
              try_catch
                (article <- scrapeArticleContent orc url ;;
                 match article with
                 | Some a => ret (articles ++ [a])
                 | None => ret articles
                 end)
                (fun _ => ret articles) e = (Ok articles1, e1)
              /\ articles1 = articles ++ new1
              /\ sa_originalUrl <$> new1 `sublist_of` [url]
              /\ Forall wellScraped new1) as (articles1 & new1 & Hstep & -> & Hsub1 & Hwf1).
    { unfold try_catch. rewrite (bind_ok _ _ _ _ _ Hone). destruct r as [a|]; unfold ret.
      - exists (articles ++ [a]), [a]. destruct Hr as [Hurl Ha].
        split; [done|]. split; [done|]. split; [simpl; by rewrite Hurl|]. by constructor.
      - exists articles, []. rewrite app_nil_r. split; [done|]. split; [done|].
        split; [apply sublist_nil_l|constructor]. }
    destruct (IH (articles ++ new1) e1) as (new & e' & Hrun & Hsub & Hwf & Hev).
    exists (new1 ++ new), e'.
    split; [cbn [scrapeEach]; by rewrite (bind_ok _ _ _ _ _ Hstep), Hrun, app_assoc|].
    split.
    { rewrite fmap_app. change (url :: rest) with ([url] ++ rest). by apply sublist_app. }
    split; [by apply Forall_app|].
    rewrite Hev, Htrace, fmap_cons, <- app_assoc. done.
Qed.

(** A run of the scraper: an error comes before any article page is
    visited; otherwise the last five links of the index are visited, in
    order, and the articles returned are well formed, at most one for each
    visited link. *)
Lemma scrapeBeyondChatsArticles_outcome (e : Env W) :
  match scrapeBeyondChatsArticles orc cfg e with
  | (Ok articles, e') =>
      exists doc links,
        collectLinks orc cfg [] (anchorHrefs doc) = Ok links
        /\ sa_originalUrl <$> articles `sublist_of` articlesToScrape links
        /\ trace e' = trace e ++ (EvFetch <$> articlesToScrape links)
        /\ Forall wellScraped articles
        /\ (length articles <= 5)%nat
  | (Throw _, e') => trace e' = trace e
  end.
Proof.
  unfold scrapeBeyondChatsArticles, with_browser.
  cbv beta iota zeta delta [ask try_finally try_catch bind throw closeBrowser].
  destruct (puppeteer_launch orc (world e)) as [[[]|error] w1]; cbn [world trace]; [|done].
  destruct (browser_newPage orc w1) as [[[]|error] w2]; cbn [world trace]; [|done].
  destruct (page_goto orc _ _ w2) as [[[]|error] w3]; cbn [world trace]; [|done].
  destruct (page_content orc w3) as [[doc|error] w4]; cbn [world trace]; [|done].
  destruct (collectLinks orc cfg [] (anchorHrefs doc)) as [links|error] eqn:Hlinks; [|done].
  destruct (scrapeEach_outcome (articlesToScrape links) [] (mkEnv w4 (trace e)))
    as (new & e' & Hrun & Hsub & Hwf & Hev).
  rewrite Hrun. cbn [world trace app].
  exists doc, links. split; [done|]. split; [done|]. split; [done|]. split; [done|].
  apply sublist_length in Hsub. rewrite length_fmap in Hsub.
  rewrite articlesToScrape_last5, length_drop in Hsub. lia.
Qed.

(** A run of the scraper once the index page is loaded. *)
Lemma scrapeBeyondChatsArticles_loaded (e : Env W) w1 w2 w3 doc w4 :
  puppeteer_launch orc (world e) = (Ok tt, w1) ->
  browser_newPage orc w1 = (Ok tt, w2) ->
  page_goto orc (blogUrl cfg) indexReady w2 = (Ok tt, w3) ->
  page_content orc w3 = (Ok doc, w4) ->
  scrapeBeyondChatsArticles orc cfg e
  = match collectLinks orc cfg [] (anchorHrefs doc) with
    | Throw error => (Throw error, mkEnv (browser_close orc w4) (trace e))
    | Ok links =>
        let '(r, e') := scrapeEach orc (articlesToScrape links) [] (mkEnv w4 (trace e)) in
        (r, closeBrowser orc e')
    end.
Proof.
  intros Hlaunch Hpage Hgoto Hcontent.
  unfold scrapeBeyondChatsArticles, with_browser.
  cbv beta iota zeta delta [ask try_finally try_catch bind throw].
  rewrite Hlaunch. cbn [world trace]. rewrite Hpage. cbn [world trace].
  rewrite Hgoto. cbn [world trace]. rewrite Hcontent. cbn [world trace].
  destruct (collectLinks orc cfg [] (anchorHrefs doc)) as [links|error]; [|done].
  by destruct (scrapeEach orc (articlesToScrape links) [] (mkEnv w4 (trace e)))
    as [[articles|error] e'].
Qed.

(** A run of the scraper whose index page does not load. *)
Lemma scrapeBeyondChatsArticles_unloaded (e : Env W) w1 w2 error w3 :
  puppeteer_launch orc (world e) = (Ok tt, w1) ->
  browser_newPage orc w1 = (Ok tt, w2) ->
  page_goto orc (blogUrl cfg) indexReady w2 = (Throw error, w3) ->
  scrapeBeyondChatsArticles orc cfg e
  = (Throw error, mkEnv (browser_close orc w3) (trace e)).
Proof.
  intros Hlaunch Hpage Hgoto.
  unfold scrapeBeyondChatsArticles, with_browser.
  cbv beta iota zeta delta [ask try_finally try_catch bind throw closeBrowser].
  rewrite Hlaunch. cbn [world trace]. rewrite Hpage. cbn [world trace].
  by rewrite Hgoto.
Qed.

Lemma collectLinks_absolute (hrefs : list (option jsstring)) :
  forall articleLinks,
    Forall absoluteHref hrefs ->
    NoDup articleLinks ->
    exists links,
      collectLinks orc cfg articleLinks hrefs = Ok links
      /\ NoDup links
      /\ articleLinks `prefix_of` links
      /\ (forall h, h ∈ links <-> h ∈ articleLinks \/ Some h ∈ hrefs).
Proof.
  induction hrefs as [|href hrefs IH]; intros articleLinks Habs Hnd.
  - exists articleLinks. split; [done|]. split; [done|]. split; [done|].
    intros h. split; [by left|]. intros [?|Hh]; [done|]. by apply elem_of_nil in Hh.
  - apply Forall_cons in Habs as [(h0 & -> & Hhttp) Habs].
    assert (Htruthy : truthy h0 = true) by (by destruct h0).
    cbn [collectLinks]. unfold collectLink. rewrite Htruthy, Hhttp. cbn [andb].
    destruct (array_includes articleLinks h0) eqn:Hseen; cbn [negb].
    + apply array_includes_elem in Hseen.
      destruct (IH articleLinks Habs Hnd) as (links & Hrun & Hnd' & Hpre & Hiff).
      exists links. split; [done|]. split; [done|]. split; [done|].
      intros h. rewrite Hiff. split.
      * intros [?|?]; [by left|right; by right].
      * intros [?|Hh]; [by left|]. apply elem_of_cons in Hh as [[= ->]|?]; [by left|by right].
    + assert (Hnew : h0 ∉ articleLinks).
      { intros Hin. apply array_includes_elem in Hin. congruence. }
      destruct (IH (articleLinks ++ [h0]) Habs) as (links & Hrun & Hnd' & Hpre & Hiff).
      { apply NoDup_app. split; [done|]. split; [|apply NoDup_singleton].
        intros x Hx Hxh. apply list_elem_of_singleton in Hxh. by subst x. }
      exists links. split; [done|]. split; [done|].
      split; [etrans; [|exact Hpre]; by apply prefix_app_r|].
      intros h. rewrite Hiff, elem_of_app, list_elem_of_singleton. split.
      * intros [[?| ->]|?]; [by left|right; by left|right; by right].
      * intros [?|Hh]; [left; by left|].
        apply elem_of_cons in Hh as [[= ->]|?]; [left; by right|by right].
Qed.

End ScraperMore.

(** X18.  Once the browser session is open, a run of the scraper depends on
    the index page as follows.
    - When the index page does not load, the run throws the error of the
      navigation and visits no article page.
    - When the index page loads and collecting the links of its anchors
      fails, the run throws this error and visits no article page.
    - When the index page loads and [links] are the links collected from its
      anchors, the run returns: it has visited, in order, the last five of
      [links], or all of them when they are fewer; it returns at most five
      articles, at most one for each visited link and in the same order, and
      each has a title, a trimmed content of at least 50 code units and no
      empty author.
    Whatever happens, a run that throws has visited no article page. *)
Theorem scrape_visits_last_five :
  forall (W Doc Sel : Type) (C : Cheerio Doc Sel) (orc : Oracles W Doc)
         (cfg : Config) (e : Env W) w1 w2,
    puppeteer_launch orc (world e) = (Ok tt, w1) ->
    browser_newPage orc w1 = (Ok tt, w2) ->
    (forall error w3,
        page_goto orc (blogUrl cfg) indexReady w2 = (Throw error, w3) ->
        scrapeBeyondChatsArticles orc cfg e
        = (Throw error, mkEnv (browser_close orc w3) (trace e)))
    /\ (forall w3 doc w4,
        page_goto orc (blogUrl cfg) indexReady w2 = (Ok tt, w3) ->
        page_content orc w3 = (Ok doc, w4) ->
        (forall error,
            collectLinks orc cfg [] (anchorHrefs doc) = Throw error ->
            scrapeBeyondChatsArticles orc cfg e
            = (Throw error, mkEnv (browser_close orc w4) (trace e)))
        /\ (forall links,
            collectLinks orc cfg [] (anchorHrefs doc) = Ok links ->
            let visited := drop (length links - 5) links in
            exists articles e',
              scrapeBeyondChatsArticles orc cfg e = (Ok articles, e')
              /\ trace e' = trace e ++ (EvFetch <$> visited)
              /\ sa_originalUrl <$> articles `sublist_of` visited
              /\ Forall wellScraped articles
              /\ (length articles <= 5)%nat))
    /\ match scrapeBeyondChatsArticles orc cfg e with
       | (Throw _, e') => trace e' = trace e
       | (Ok articles, _) => (length articles <= 5)%nat /\ Forall wellScraped articles
       end.
Proof.
  intros W Doc Sel C orc cfg e w1 w2 Hlaunch Hpage. split; [|split].
  - intros error w3 Hgoto. by eapply scrapeBeyondChatsArticles_unloaded.
  - intros w3 doc w4 Hgoto Hcontent.
    pose proof (scrapeBeyondChatsArticles_loaded orc cfg e w1 w2 w3 doc w4
                  Hlaunch Hpage Hgoto Hcontent) as Hrun.
    split.
    + intros error Hlinks. by rewrite Hrun, Hlinks.
    + intros links Hlinks visited. rewrite Hrun, Hlinks.
      destruct (scrapeEach_outcome orc (articlesToScrape links) [] (mkEnv w4 (trace e)))
        as (new & e' & Heach & Hsub & Hwf & Hev).
      rewrite Heach. cbn [app].
      rewrite articlesToScrape_last5 in Hsub, Hev. fold visited in Hsub, Hev.
      exists new, (closeBrowser orc e'). split; [done|]. split; [done|].
      split; [done|]. split; [done|].
      apply sublist_length in Hsub. rewrite length_fmap in Hsub.
      unfold visited in Hsub. rewrite length_drop in Hsub. lia.
  - pose proof (scrapeBeyondChatsArticles_outcome orc cfg e) as Hany.
    destruct (scrapeBeyondChatsArticles orc cfg e) as [[articles|error] e']; [|done].
    destruct Hany as (_ & _ & _ & _ & _ & Hwf & Hfive). done.
Qed.

(** The blog index whose post is linked twice: both links are visited. *)
Lemma scrape_visits_last_five_witness :
  let orc := Scripted.oracles in
  let cfg := Scripted.geminiOnly in
  let e := searchEnv blogSite in
  let w3 := snd (Scripted.goto (blogUrl cfg) indexReady (world e)) in
  exists articles e',
    scrapeBeyondChatsArticles orc cfg e = (Ok articles, e')
    /\ trace e' = trace e ++ (EvFetch <$> [postUrl; postUrl])
    /\ sa_originalUrl <$> articles `sublist_of` [postUrl; postUrl]
    /\ Forall wellScraped articles
    /\ (length articles <= 5)%nat.
Proof.
  intros orc cfg e w3.
  destruct (scrape_visits_last_five _ _ _ Dom.cheerio orc cfg e (world e) (world e))
    as (_ & Hloaded & _).
  - reflexivity.
  - reflexivity.
  - destruct (Hloaded w3 blogIndex w3) as [_ Hlinks].
    + vm_compute. reflexivity.
    + vm_compute. reflexivity.
    + apply (Hlinks [postUrl; postUrl]). vm_compute. reflexivity.
Defined.

Section ScrapeRuns.
Context {W Doc Sel : Type} `{Cheerio Doc Sel} (orc : Oracles W Doc) (cfg : Config).

(** The scrape endpoint and the scrape script, by the run of the scraper. *)
Lemma scrapeArticles_run (s : Sys W) :
  scrapeArticles orc cfg s
  = match scrapeBeyondChatsArticles orc cfg (env s) with
    | (Throw error, e1) => (Ok (ReplyNext error), mkSys e1 (db s))
    | (Ok articles, e1) =>
        if (length articles =? 0)%nat then
          (Ok (ReplyArticles 200 MsgNoArticlesToScrape 0 []), mkSys e1 (db s))
        else
          match saveEach articles [] (mkSys e1 (db s)) with
          | (Ok saved, s') =>
              (Ok (ReplyArticles 200 (MsgScrapingCompleted (length saved))
                     (length saved) saved), s')
          | (Throw error, s') => (Ok (ReplyNext error), s')
          end
    end.
Proof.
  unfold scrapeArticles, try_catch. unfold bind at 1. unfold liftEnv.
  destruct (scrapeBeyondChatsArticles orc cfg (env s)) as [[articles|error] e1]; [|done].
  destruct (length articles =? 0)%nat; [done|]. unfold bind.
  by destruct (saveEach articles [] (mkSys e1 (db s))) as [[saved|error] s'].
Qed.

Lemma scrapeMain_run (s : Sys W) :
  scrapeMain orc cfg s
  = match scrapeBeyondChatsArticles orc cfg (env s) with
    | (Throw error, e1) => (Throw error, mkSys e1 (db s))
    | (Ok articles, e1) =>
        if (length articles =? 0)%nat then (Ok (0, 0)%nat, mkSys e1 (db s))
        else persistEach articles (0, 0)%nat (mkSys e1 (db s))
    end.
Proof.
  unfold scrapeMain. unfold bind at 1. unfold liftEnv.
  destruct (scrapeBeyondChatsArticles orc cfg (env s)) as [[articles|error] e1]; [|done].
  by destruct (length articles =? 0)%nat.
Qed.

End ScrapeRuns.

(** X19.  The scrape endpoint always answers, and its answer follows the
    run of the scraper.  When the scraper throws, the endpoint hands this
    error to the error middleware and the table is unchanged.  When the
    scraper returns, at most five articles, the endpoint answers 200 with the
    rows that persisting these articles saved, which are exactly the rows the
    run appended to the table; the count and the number in the message are
    the number of these rows, and the message tells that nothing was found
    exactly when the scraper returned no article. *)
Theorem scrapeArticles_reply :
  forall (W Doc Sel : Type) (C : Cheerio Doc Sel) (orc : Oracles W Doc)
         (cfg : Config) (s : Sys W),
    match scrapeBeyondChatsArticles orc cfg (env s) with
    | (Throw error, e1) =>
        scrapeArticles orc cfg s = (Ok (ReplyNext error), mkSys e1 (db s))
    | (Ok articles, e1) =>
        (length articles <= 5)%nat
        /\ exists saved s',
             saveEach articles [] (mkSys e1 (db s)) = (Ok saved, s')
             /\ env s' = e1
             /\ db s' = db s ++ saved
             /\ (length saved <= length articles)%nat
             /\ scrapeArticles orc cfg s
                = (Ok (ReplyArticles 200
                         (if (length articles =? 0)%nat then MsgNoArticlesToScrape
                          else MsgScrapingCompleted (length saved))
                         (length saved) saved), s')
    end.
Proof.
  intros W Doc Sel C orc cfg s.
  pose proof (scrapeBeyondChatsArticles_outcome orc cfg (env s)) as Hscrape.
  rewrite (scrapeArticles_run orc cfg s).
  destruct (scrapeBeyondChatsArticles orc cfg (env s)) as [[articles|error] e1]; [|done].
  destruct Hscrape as (_ & _ & _ & _ & _ & _ & Hfive). split; [done|].
  destruct (saveEach_appends articles [] (0, 0)%nat (mkSys e1 (db s)))
    as (new & s1 & Hsave & _ & Henv & Hdb & Hlen & _).
  exists new, s1. split; [done|]. split; [done|]. split; [done|]. split; [done|].
  destruct (length articles =? 0)%nat eqn:Hempty.
  - apply Nat.eqb_eq, nil_length_inv in Hempty. subst articles.
    simpl in Hsave. unfold ret in Hsave. injection Hsave as <- <-. done.
  - by rewrite Hsave.
Qed.

(** X20.  On an index page whose anchors all carry absolute references, the
    collected links are these references without repetition: no link occurs
    twice, and a URL is collected exactly when an anchor refers to it. *)
Theorem collect_absolute_links :
  forall (W Doc : Type) (orc : Oracles W Doc) (cfg : Config)
         (hrefs : list (option jsstring)),
    Forall absoluteHref hrefs ->
    exists links,
      collectLinks orc cfg [] hrefs = Ok links
      /\ NoDup links
      /\ (forall h, h ∈ links <-> Some h ∈ hrefs).
Proof.
  intros W Doc orc cfg hrefs Habs.
  destruct (collectLinks_absolute orc cfg hrefs [] Habs (NoDup_nil_2))
    as (links & Hrun & Hnd & _ & Hiff).
  exists links. split; [done|]. split; [done|].
  intros h. rewrite Hiff. split; [|by right]. intros [Hh|?]; [|done].
  by apply elem_of_nil in Hh.
Qed.

(** Seven absolute references, the first of them given twice. *)
Lemma collect_absolute_links_witness :
  exists links,
    collectLinks Scripted.oracles Scripted.geminiOnly []
      (Some <$> (js "https://beyondchats.com/blogs/1" :: sevenLinks)) = Ok links
    /\ NoDup links
    /\ (forall h, h ∈ links
          <-> Some h ∈ Some <$> (js "https://beyondchats.com/blogs/1" :: sevenLinks)).
Proof.
  apply (collect_absolute_links _ _ Scripted.oracles Scripted.geminiOnly
           (Some <$> (js "https://beyondchats.com/blogs/1" :: sevenLinks))).
  repeat constructor; eexists; (split; [reflexivity|vm_compute; reflexivity]).
Defined.

(** ** Listing the articles, and the preview of the article card *)

Lemma filter_elem {A} (p : A -> bool) (l : list A) (x : A) :
  x ∈ List.filter p l <-> x ∈ l /\ p x = true.
Proof. by rewrite !list_elem_of_In, List.filter_In. Qed.

(** X21.  The list endpoint always answers 200 and leaves the state as it
    is; the count it gives is the number of articles it lists.  Whatever the
    order of the store, without the [updated] parameter it lists every row;
    with the parameter equal to [true] it lists exactly the enhanced rows,
    and with any other value, the empty string included, exactly the rows
    that are not enhanced. *)
Theorem getAllArticles_filter :
  forall (W : Type) (byCreatedAtDesc : Table -> Table)
         (updated : option jsstring) (s : Sys W),
    (forall tbl, byCreatedAtDesc tbl ≡ₚ tbl) ->
    exists articles,
      getAllArticles byCreatedAtDesc updated s
      = (Ok (ReplyArticles 200 MsgNone (length articles) articles), s)
      /\ (length articles <= length (db s))%nat
      /\ (forall a,
            a ∈ articles
            <-> a ∈ db s
                /\ match updated with
                   | Some v => Article.isUpdated a = bool_decide (v = js "true")
                   | None => True
                   end).
Proof.
  intros W byCreatedAtDesc updated s Horder.
  unfold getAllArticles, try_catch, bind, readDb, ret, findManyOrdered.
  eexists. split; [reflexivity|]. destruct updated as [v|].
  - split; [rewrite (Permutation_length (Horder _)); apply filter_length_le|].
    intros a. rewrite (Horder _), filter_elem.
    split; intros [Hin Hflag]; (split; [done|]).
    + by apply Bool.eqb_prop.
    + rewrite Hflag. apply Bool.eqb_reflx.
  - split; [by rewrite (Permutation_length (Horder _))|].
    intros a. rewrite (Horder _). split; [done|by intros [? _]].
Qed.

(** The store lists the rows latest first; the parameter is [TRUE]. *)
Lemma getAllArticles_filter_witness :
  let s := server [draft "a1"; published "a2"; draft "a3"] [] in
  exists articles,
    getAllArticles reverse (Some (js "TRUE")) s
    = (Ok (ReplyArticles 200 MsgNone (length articles) articles), s)
    /\ (length articles <= length (db s))%nat
    /\ (forall a,
          a ∈ articles
          <-> a ∈ db s /\ Article.isUpdated a = bool_decide (js "TRUE" = js "true")).
Proof.
  intros s.
  apply (getAllArticles_filter _ reverse (Some (js "TRUE")) s).
  intros tbl. apply reverse_Permutation.
Defined.

(** X22.  The preview of the article card is the content itself when the
    content is not longer than the limit.  Otherwise it is the trimmed first
    [maxLength] code units followed by three dots: it ends with the dots, the
    kept part neither begins nor ends with white space, and the preview has at
    most [maxLength + 3] code units, which can be more than the content
    has. *)
Theorem truncateContent_bound :
  forall (content : jsstring) (maxLength : Z),
    (Z.of_nat (length content) <= maxLength ->
     truncateContent content maxLength = content)
    /\ (maxLength < Z.of_nat (length content) ->
        exists kept,
          truncateContent content maxLength = kept ++ js "..."
          /\ kept = trim (take (Z.to_nat maxLength) content)
          /\ starts_clean kept /\ ends_clean kept
          /\ Z.of_nat (length (truncateContent content maxLength))
             <= Z.max maxLength 0 + 3).
Proof.
  intros content maxLength. unfold truncateContent. split.
  - intros Hfits. by rewrite (proj2 (Z.leb_le _ _) Hfits).
  - intros Hlong. rewrite (proj2 (Z.leb_gt _ _) Hlong).
    exists (trim (substring0 (Z.to_nat maxLength) content)).
    split; [done|]. split; [done|]. split; [apply trim_clean|]. split; [apply trim_clean|].
    rewrite length_app.
    pose proof (trim_length (substring0 (Z.to_nat maxLength) content)) as Htrim.
    unfold substring0 in *. rewrite length_take in Htrim.
    change (length (js "...")) with 3%nat. lia.
Qed.

(** A content of five letters and a limit of four give seven code units. *)
Lemma truncateContent_bound_witness :
  truncateContent (letters 3) 200 = letters 3
  /\ exists kept,
       truncateContent (letters 5) 4 = kept ++ js "..."
       /\ kept = trim (take (Z.to_nat 4) (letters 5))
       /\ starts_clean kept /\ ends_clean kept
       /\ Z.of_nat (length (truncateContent (letters 5) 4)) <= Z.max 4 0 + 3.
Proof.
  split.
  - apply (truncateContent_bound (letters 3) 200). vm_compute. discriminate.
  - apply (truncateContent_bound (letters 5) 4). reflexivity.
Defined.

(** ** Browser sessions *)

Section Sessions.
Context {W Doc : Type} (orc : Oracles W Doc).

(** A session whose browser does not start runs the handler at once; a
    session whose browser started ends by closing it, whatever the body and
    the handler did. *)
Lemma with_browser_launch_failed {A} (body : M (Env W) A) handler (e : Env W) error w1 :
  puppeteer_launch orc (world e) = (Throw error, w1) ->
  with_browser orc body handler e = handler error (mkEnv w1 (trace e)).
Proof. intros Hlaunch. unfold with_browser, ask. by rewrite Hlaunch. Qed.

Lemma with_browser_closed {A} (body : M (Env W) A) handler (e : Env W) w1 :
  puppeteer_launch orc (world e) = (Ok tt, w1) ->
  exists w, world (snd (with_browser orc body handler e)) = browser_close orc w.
Proof.
  intros Hlaunch. unfold with_browser, ask, try_finally. rewrite Hlaunch.
  destruct (try_catch body handler _) as [r e2]. by exists (world e2).
Qed.

End Sessions.

(** X23.  When the browser does not start, the search and the scraper throw
    the launch error, the extraction returns [null], and an enhancement throws
    the launch error and leaves the table as it is; none of them visits a
    page or closes a browser.  When the browser started, each of the three
    services ends by closing it, whether it returns or throws. *)
Theorem browser_sessions :
  forall (W Doc Sel : Type) (C : Cheerio Doc Sel) (orc : Oracles W Doc)
         (cfg : Config) (query url : jsstring) (numResults : Z) (e : Env W),
    (forall error w1,
        puppeteer_launch orc (world e) = (Throw error, w1) ->
        searchGoogle orc query numResults e = (Throw error, mkEnv w1 (trace e))
        /\ extractArticleContent orc url e = (Ok None, mkEnv w1 (trace e))
        /\ scrapeBeyondChatsArticles orc cfg e = (Throw error, mkEnv w1 (trace e))
        /\ forall article tbl,
             enhanceOne orc cfg article (mkSys e tbl)
             = (Throw error, mkSys (mkEnv w1 (trace e)) tbl))
    /\ (forall w1,
        puppeteer_launch orc (world e) = (Ok tt, w1) ->
        (exists w, world (snd (searchGoogle orc query numResults e)) = browser_close orc w)
        /\ (exists w, world (snd (extractArticleContent orc url e)) = browser_close orc w)
        /\ (exists w,
              world (snd (scrapeBeyondChatsArticles orc cfg e)) = browser_close orc w)).
Proof.
  intros W Doc Sel C orc cfg query url numResults e. split.
  - intros error w1 Hlaunch.
    assert (Hsearch : forall q n,
              searchGoogle orc q n e = (Throw error, mkEnv w1 (trace e))).
    { intros q n. unfold searchGoogle.
      by rewrite (with_browser_launch_failed orc _ _ e error w1 Hlaunch). }
    split; [apply Hsearch|]. split; [|split].
    + unfold extractArticleContent.
      by rewrite (with_browser_launch_failed orc _ _ e error w1 Hlaunch).
    + unfold scrapeBeyondChatsArticles.
      by rewrite (with_browser_launch_failed orc _ _ e error w1 Hlaunch).
    + intros article tbl. unfold enhanceOne, findReferences.
      unfold bind at 1 2. unfold liftEnv at 1. cbn [env db].
      by rewrite Hsearch.
  - intros w1 Hlaunch. split; [|split].
    + unfold searchGoogle. by eapply with_browser_closed.
    + unfold extractArticleContent. by eapply with_browser_closed.
    + unfold scrapeBeyondChatsArticles. by eapply with_browser_closed.
Qed.

(** A machine without a browser, and one with a browser. *)
Lemma browser_sessions_witness :
  let e := searchEnv blogSite in
  (searchGoogle noBrowser sampleTitle 2 e = (Throw launchFailed, e)
   /\ extractArticleContent noBrowser postUrl e = (Ok None, e)
   /\ scrapeBeyondChatsArticles noBrowser Scripted.geminiOnly e = (Throw launchFailed, e)
   /\ forall article tbl,
        enhanceOne noBrowser Scripted.geminiOnly article (mkSys e tbl)
        = (Throw launchFailed, mkSys e tbl))
  /\ ((exists w, world (snd (searchGoogle Scripted.oracles sampleTitle 2 e))
                 = browser_close Scripted.oracles w)
      /\ (exists w, world (snd (extractArticleContent Scripted.oracles postUrl e))
                    = browser_close Scripted.oracles w)
      /\ (exists w,
            world (snd (scrapeBeyondChatsArticles Scripted.oracles Scripted.geminiOnly e))
            = browser_close Scripted.oracles w)).
Proof.
  intros e. split.
  - apply (proj1 (browser_sessions _ _ _ Dom.cheerio noBrowser Scripted.geminiOnly
                    sampleTitle postUrl 2 e) launchFailed (world e)).
    reflexivity.
  - apply (proj2 (browser_sessions _ _ _ Dom.cheerio Scripted.oracles Scripted.geminiOnly
                    sampleTitle postUrl 2 e) (world e)).
    reflexivity.
Defined.

(** X24.  The create endpoint always answers and leaves the environment as
    it is.  Either it answers 201 and exactly the created row is appended to
    the table, which happens only for a request that passed validation and
    whose source URL was not stored; or it hands an error to the error
    middleware and the state is as it was.  A request that failed validation
    gets the 400 error, also when its source URL is stored. *)
Theorem createArticle_outcomes :
  forall (W Doc : Type) (orc : Oracles W Doc) (req : CreateRequest) (s : Sys W),
    exists reply s',
      createArticle orc req s = (Ok reply, s')
      /\ env s' = env s
      /\ ((exists a,
             reply = ReplyArticle 201 MsgNone a
             /\ db s' = db s ++ [a]
             /\ validationOk req = true
             /\ prisma.findUnique_originalUrl (b_originalUrl req) (db s) = None
             /\ Article.originalUrl a = b_originalUrl req)
          \/ (exists error, reply = ReplyNext error /\ s' = s))
      /\ (validationOk req = false -> reply = ReplyNext validationFailed).
Proof.
  intros W Doc orc req s.
  destruct (validationOk req) eqn:Hvalid.
  2:{ exists (ReplyNext validationFailed), s.
      split; [unfold createArticle, try_catch; by rewrite Hvalid|].
      split; [done|]. split; [right; by eexists|done]. }
  destruct (prisma.findUnique_originalUrl (b_originalUrl req) (db s)) as [row|] eqn:Hfind.
  { exists (ReplyNext duplicateUrl), s.
    split; [by apply (createArticle_stored orc req s row)|].
    split; [done|]. split; [right; by eexists|done]. }
  destruct (falsy_or (b_publishedDate req) None) as [d|] eqn:Hd.
  - destruct (parseDate orc d) as [z|] eqn:Hz.
    + destruct (createArticle_created orc req s z Hvalid Hfind)
        as (data & Hrun & _ & _ & _ & Hurl); [by rewrite Hd|].
      eexists _, _. split; [exact Hrun|]. split; [done|]. split; [|done].
      left. eexists. by repeat (split; [done|]).
    + exists (ReplyNext invalidDate), s. split.
      { unfold createArticle, try_catch. rewrite Hvalid. cbn [negb]. cbv iota.
        unfold bind at 1, readDb at 1. cbv beta iota. rewrite Hfind, Hd.
        unfold toDate. rewrite Hz. done. }
      split; [done|]. split; [right; by eexists|done].
  - destruct (createArticle_created orc req s 0%Z Hvalid Hfind)
      as (data & Hrun & _ & _ & _ & Hurl); [by rewrite Hd|].
    eexists _, _. split; [exact Hrun|]. split; [done|]. split; [|done].
    left. eexists. by repeat (split; [done|]).
Qed.

(** ** The scripts *)

(** X25.  The scrape script follows the run of the scraper.  When the
    scraper throws, the script fails with this error and the table is
    unchanged; when the scraper returns, the script does not fail.  It then
    reports as saved the number of rows it appended to the table, each with
    the fields of a scraped article, and as skipped the rest of the scraped
    articles, which are at most five. *)
Theorem scrapeMain_counts :
  forall (W Doc Sel : Type) (C : Cheerio Doc Sel) (orc : Oracles W Doc)
         (cfg : Config) (s : Sys W),
    match scrapeBeyondChatsArticles orc cfg (env s) with
    | (Throw error, e1) =>
        scrapeMain orc cfg s = (Throw error, mkSys e1 (db s))
    | (Ok articles, e1) =>
        (length articles <= 5)%nat
        /\ exists rows s',
             scrapeMain orc cfg s
             = (Ok (length rows, length articles - length rows)%nat, s')
             /\ env s' = e1
             /\ db s' = db s ++ rows
             /\ (length rows <= length articles)%nat
             /\ Forall (savedFrom articles) rows
    end.
Proof.
  intros W Doc Sel C orc cfg s.
  pose proof (scrapeBeyondChatsArticles_outcome orc cfg (env s)) as Hscrape.
  rewrite (scrapeMain_run orc cfg s).
  destruct (scrapeBeyondChatsArticles orc cfg (env s)) as [[articles|error] e1]; [|done].
  destruct Hscrape as (_ & _ & _ & _ & _ & _ & Hfive). split; [done|].
  destruct (saveEach_appends articles [] (0, 0)%nat (mkSys e1 (db s)))
    as (new & s1 & Hsave & Hpersist & Henv & Hdb & Hlen & Hfrom & _).
  destruct (length articles =? 0)%nat eqn:Hempty.
  - apply Nat.eqb_eq, nil_length_inv in Hempty. subst articles.
    exists [], (mkSys e1 (db s)). unfold ret. cbn [db env length].
    rewrite app_nil_r. by repeat split.
  - exists new, s1. by rewrite Hpersist.
Qed.

(** The scrape script on the blog whose post is linked twice: the post is
    saved once and skipped once. *)
Example scrape_script_saves_once :
  fst (scrapeMain Scripted.oracles Scripted.geminiOnly (blogServer [])) = Ok (1, 1)%nat
  /\ Article.originalUrl <$> db (snd (scrapeMain Scripted.oracles Scripted.geminiOnly
                                         (blogServer [])))
     = [postUrl].
Proof. vm_compute. split; reflexivity. Qed.

(** The update script on the citing site: the one pending article is
    enhanced. *)
Example update_script_enhances :
  fst (updateMain Scripted.oracles Scripted.geminiOnly citingServer) = Ok (1, 0)%nat
  /\ pending (db (snd (updateMain Scripted.oracles Scripted.geminiOnly citingServer)))
     = 0%nat.
Proof. vm_compute. split; reflexivity. Qed.
